(** * BlinkApp desktop: intake queue, upload fallback, folder resolution, cache expiry

    A shallow embedding of the intake and upload-coordination pipeline:
    - [JS]: the JavaScript string and value operations the code relies on;
    - [Queue]: the renderer's processing queue ([src/renderer/App-simple.tsx]);
    - [OneDrive]: the remote drive client ([src/main/oneDriveService.ts]);
    - [Cache]: the key/value cache of [DatabaseManager].

    Asynchronous handlers are modelled as state-passing computations: every
    call to a collaborator (IPC bridge, HTTP client, auth service) is answered
    by an oracle over an abstract world, and is recorded in a log. *)

From Stdlib Require Import ZArith Ascii String List Bool Lia.
From stdpp Require Import base option list strings gmap.
Import ListNotations.

Local Open Scope Z_scope.

(** ** JavaScript strings and values *)

Module JS.

(** [s.startsWith(p)] *)
Definition startsWith (s p : string) : bool := String.prefix p s.

Fixpoint drop (n : nat) (s : string) : string :=
  match n, s with
  | O, _ => s
  | S n', String _ s' => drop n' s'
  | S _, EmptyString => EmptyString
  end.

Fixpoint take (n : nat) (s : string) : string :=
  match n, s with
  | O, _ => EmptyString
  | S n', String a s' => String a (take n' s')
  | S _, EmptyString => EmptyString
  end.

(** Index arguments are clamped to [0, length]. *)
Definition clamp (len : nat) (z : Z) : nat :=
  if z <? 0 then O else Nat.min (Z.to_nat z) len.

(** [s.substring(start)] and [s.substring(start, end)]: both bounds are
    clamped, and swapped when [start > end]. *)
Definition substring (s : string) (start : Z) (end_ : option Z) : string :=
  let len := String.length s in
  let a := clamp len start in
  let b := match end_ with Some e => clamp len e | None => len end in
  take (Nat.max a b - Nat.min a b) (drop (Nat.min a b) s).

(** First position at or after [i] (the offset of [s] in the whole string)
    where [sub] occurs; [-1] when there is none. *)
Fixpoint index_of (sub s : string) (i : Z) : Z :=
  if String.prefix sub s then i
  else match s with
       | EmptyString => -1
       | String _ s' => index_of sub s' (i + 1)
       end.

(** [s.indexOf(sub, pos)] *)
Definition indexOf (s sub : string) (pos : Z) : Z :=
  let p := clamp (String.length s) pos in
  index_of sub (drop p s) (Z.of_nat p).

(** [s.includes(sub)] *)
Definition includes (s sub : string) : bool := 0 <=? indexOf s sub 0.

Fixpoint last_index_of (sub s : string) (i acc : Z) : Z :=
  let acc' := if String.prefix sub s then i else acc in
  match s with
  | EmptyString => acc'
  | String _ s' => last_index_of sub s' (i + 1) acc'
  end.

(** [s.lastIndexOf(sub)] *)
Definition lastIndexOf (s sub : string) : Z := last_index_of sub s 0 (-1).

(** [s.split(c)] for a one-character separator, the only kind the code
    uses. The result is never empty. *)
Fixpoint split (c : ascii) (s : string) : list string :=
  match s with
  | EmptyString => [EmptyString]
  | String a s' =>
      if Ascii.eqb a c then EmptyString :: split c s'
      else match split c s' with
           | h :: t => String a h :: t
           | [] => [String a EmptyString]
           end
  end.

(** [arr.pop()] read as a value: the last element, [undefined] if none. *)
Definition pop (l : list string) : option string := last l.

(** Truthiness of a possibly undefined string. *)
Definition truthy (o : option string) : bool :=
  match o with
  | Some s => negb (String.eqb s "")
  | None => false
  end.

(** [a || b] on possibly undefined strings. *)
Definition or_else (a b : option string) : option string :=
  if truthy a then a else b.

(** [s.replace(/c/g, r)] for a one-character pattern. *)
Fixpoint replace_all (c : ascii) (r : string) (s : string) : string :=
  match s with
  | EmptyString => EmptyString
  | String a s' =>
      if Ascii.eqb a c then r +:+ replace_all c r s'
      else String a (replace_all c r s')
  end.

(** [s.replace(/^p/, '')] for a literal prefix [p]. *)
Definition strip_prefix (p s : string) : string :=
  if startsWith s p then drop (String.length p) s else s.

(** [s.replace(/^c+/, '')] *)
Fixpoint strip_leading (c : ascii) (s : string) : string :=
  match s with
  | String a s' => if Ascii.eqb a c then strip_leading c s' else s
  | EmptyString => EmptyString
  end.

(** [s.replace(/c+$/, '')] *)
Fixpoint strip_trailing (c : ascii) (s : string) : string :=
  match s with
  | EmptyString => EmptyString
  | String a s' =>
      match strip_trailing c s' with
      | EmptyString => if Ascii.eqb a c then EmptyString else String a EmptyString
      | t => String a t
      end
  end.

(** [s.toLowerCase()] on the ASCII range. *)
Definition lower (a : ascii) : ascii :=
  let n := nat_of_ascii a in
  if (Nat.leb 65 n && Nat.leb n 90)%bool then ascii_of_nat (n + 32)%nat else a.

Fixpoint toLowerCase (s : string) : string :=
  match s with
  | EmptyString => EmptyString
  | String a s' => String (lower a) (toLowerCase s')
  end.

(** The characters the code searches for. *)
Definition backslash : ascii := "\"%char.
Definition slash : ascii := "/"%char.
Definition dot : ascii := "."%char.

(** A character does not occur in a string. *)
Fixpoint lacks (c : ascii) (s : string) : Prop :=
  match s with
  | EmptyString => True
  | String a s' => a <> c /\ lacks c s'
  end.

(** JSON-like values exchanged with the remote services ([any] in the
    source). Numbers are the integers the code meets (sizes, status codes). *)
#[local] Unset Elimination Schemes.
Inductive json : Type :=
  | JUndef
  | JNull
  | JBool (b : bool)
  | JNum (z : Z)
  | JStr (s : string)
  | JArr (l : list json)
  | JObj (fields : list (string * json)).
#[local] Set Elimination Schemes.

(** [o.k]: property access; [undefined] when absent. Reading a property of
    [undefined] or [null] throws in JavaScript, which [prop] reports with
    [None]. *)
Fixpoint assoc (k : string) (fields : list (string * json)) : json :=
  match fields with
  | [] => JUndef
  | (k', v) :: rest => if String.eqb k k' then v else assoc k rest
  end.

Definition prop (j : json) (k : string) : option json :=
  match j with
  | JUndef | JNull => None
  | JObj fields => Some (assoc k fields)
  | _ => Some JUndef
  end.

Definition digit (n : nat) : ascii := ascii_of_nat (48 + n).

Fixpoint digits (fuel : nat) (n : nat) (acc : string) : string :=
  match fuel with
  | O => acc
  | S fuel' =>
      let acc' := String (digit (n mod 10)) acc in
      if Nat.ltb n 10 then acc' else digits fuel' (n / 10) acc'
  end.

(** Decimal rendering of an integer, as [`${n}`] gives it. *)
Definition string_of_Z (z : Z) : string :=
  let n := Z.to_nat (Z.abs z) in
  let d := digits (S n) n EmptyString in
  if z <? 0 then String "-"%char d else d.

(** [String(v)], the conversion a template literal applies. *)
Fixpoint to_string (j : json) : string :=
  match j with
  | JUndef => "undefined"
  | JNull => "null"
  | JBool true => "true"
  | JBool false => "false"
  | JNum z => string_of_Z z
  | JStr s => s
  | JArr l =>
      String.concat ","
        (List.map (fun x => match x with
                            | JUndef | JNull => EmptyString
                            | _ => to_string x
                            end) l)
  | JObj _ => "[object Object]"
  end.

End JS.

(** ** Computations with state and exceptions *)

Module Eff.

(** An [async] function body: it reads and writes a state [St], and either
    returns a value or throws a value of type [E]. *)
Definition M (St E A : Type) : Type := St -> (E + A) * St.

Definition ret {St E A} (x : A) : M St E A := fun st => (inr x, st).

Definition throw {St E A} (e : E) : M St E A := fun st => (inl e, st).

Definition bind {St E A B} (m : M St E A) (k : A -> M St E B) : M St E B :=
  fun st =>
    match m st with
    | (inl e, st') => (inl e, st')
    | (inr x, st') => k x st'
    end.

(** [try { m } catch (e) { h e }] *)
Definition try_catch {St E A} (m : M St E A) (h : E -> M St E A) : M St E A :=
  fun st =>
    match m st with
    | (inl e, st') => h e st'
    | (inr x, st') => (inr x, st')
    end.

Definition modify {St E} (f : St -> St) : M St E unit := fun st => (inr tt, f st).

Definition gets {St E A} (f : St -> A) : M St E A := fun st => (inr (f st), st).

(** A value that is there, or else an exception. *)
Definition require {St E A} (o : option A) (e : E) : M St E A :=
  match o with
  | Some x => ret x
  | None => throw e
  end.

Declare Scope eff_scope.
Delimit Scope eff_scope with eff.
Notation "x <- m ;; k" := (bind m (fun x => k))
  (at level 100, m at next level, right associativity) : eff_scope.
Notation "m ;;; k" := (bind m (fun _ => k))
  (at level 100, right associativity) : eff_scope.

End Eff.

(** ** The processing queue of the renderer *)

Module Queue.
Import JS.

(** [UserPreferences]; [oneDriveRootFolder] may be missing from the saved
    preferences object. *)
Record UserPreferences := {
  dropFolderPath : string;
  oneDriveRootFolder : option string;
  autoProcess : bool
}.

Record UserInfo := {
  user_id : string;
  user_name : string;
  user_email : string;
  accessToken : string;
  expiresOn : Z
}.

(** The [result] object stored on a processed entry. *)
Record ProcessResult := {
  success : bool;
  file_id : json;
  one_drive_id : json;
  web_url : json;
  message : string;
  associations : json
}.

(** [FileProcessingState]: one entry of the queue. *)
Record FileProcessingState := {
  fileName : string;
  displayName : string;
  filePath : string;
  timestamp : Z;
  selectedFolder : string;
  selectedTags : list Z;
  isProcessing : bool;
  isProcessed : bool;
  result : option ProcessResult;
  error : option string
}.

Definition set_selectedFolder (d : string) (f : FileProcessingState) :=
  {| fileName := fileName f; displayName := displayName f;
     filePath := filePath f; timestamp := timestamp f;
     selectedFolder := d; selectedTags := selectedTags f;
     isProcessing := isProcessing f; isProcessed := isProcessed f;
     result := result f; error := error f |}.

Definition set_selectedTags (t : list Z) (f : FileProcessingState) :=
  {| fileName := fileName f; displayName := displayName f;
     filePath := filePath f; timestamp := timestamp f;
     selectedFolder := selectedFolder f; selectedTags := t;
     isProcessing := isProcessing f; isProcessed := isProcessed f;
     result := result f; error := error f |}.

Definition set_displayName (n : string) (f : FileProcessingState) :=
  {| fileName := fileName f; displayName := n;
     filePath := filePath f; timestamp := timestamp f;
     selectedFolder := selectedFolder f; selectedTags := selectedTags f;
     isProcessing := isProcessing f; isProcessed := isProcessed f;
     result := result f; error := error f |}.

(** [{ ...f, isProcessing: true, error: undefined }] *)
Definition mark_processing (f : FileProcessingState) :=
  {| fileName := fileName f; displayName := displayName f;
     filePath := filePath f; timestamp := timestamp f;
     selectedFolder := selectedFolder f; selectedTags := selectedTags f;
     isProcessing := true; isProcessed := isProcessed f;
     result := result f; error := None |}.

(** [{ ...f, isProcessing: false, isProcessed: true, result }] *)
Definition mark_processed (r : ProcessResult) (f : FileProcessingState) :=
  {| fileName := fileName f; displayName := displayName f;
     filePath := filePath f; timestamp := timestamp f;
     selectedFolder := selectedFolder f; selectedTags := selectedTags f;
     isProcessing := false; isProcessed := true;
     result := Some r; error := error f |}.

(** [{ ...f, isProcessing: false, error: msg }] *)
Definition mark_failed (msg : string) (f : FileProcessingState) :=
  {| fileName := fileName f; displayName := displayName f;
     filePath := filePath f; timestamp := timestamp f;
     selectedFolder := selectedFolder f; selectedTags := selectedTags f;
     isProcessing := false; isProcessed := isProcessed f;
     result := result f; error := Some msg |}.

(** [prev.map((f, i) => i === index ? g(f) : f)] *)
Definition map_at (index : nat) (g : FileProcessingState -> FileProcessingState)
    (prev : list FileProcessingState) : list FileProcessingState :=
  imap (fun i f => if Nat.eqb i index then g f else f) prev.

(** [prev.filter((_, i) => i !== index)] *)
Definition remove_at (index : nat) (prev : list FileProcessingState)
    : list FileProcessingState :=
  delete index prev.

(** [prev.some(file => file.filePath === filePath)] *)
Definition exists_path (path : string) (prev : list FileProcessingState) : bool :=
  existsb (fun file => String.eqb (filePath file) path) prev.

(** The folder shown for a new entry, as both detection handlers compute it
    from the configured root folder and the path of the file. *)
Definition displayFolder_for (root : option string) (path : string) : string :=
  match root with
  | Some d =>
      if (String.eqb d "/" || String.eqb d "")%bool then
        let fileDriveRoot := substring path 0 (Some (indexOf path "\" 3)) in
        if includes fileDriveRoot "OneDrive"
        then "OneDrive Root (Configure in Settings)"
        else "OneDrive Root"
      else if includes d "\" then
        replace_all backslash "/" (strip_prefix "E:\365\" d)
      else d
  | None =>
      let fileDriveRoot := substring path 0 (Some (indexOf path "\" 3)) in
      if includes fileDriveRoot "OneDrive"
      then "OneDrive Root (Configure in Settings)"
      else "OneDrive Root"
  end.

Definition new_entry (name path : string) (now : Z) (folder : string)
    : FileProcessingState :=
  {| fileName := name; displayName := name; filePath := path;
     timestamp := now; selectedFolder := folder; selectedTags := [];
     isProcessing := false; isProcessed := false;
     result := None; error := None |}.

(** The renderer state the detection handlers read and write. *)
Record App := {
  preferences : UserPreferences;
  preferencesLoaded : bool;
  loadedPreferencesRef : option UserPreferences;
  detectedFiles : list FileProcessingState
}.

Definition with_files (a : App) (q : list FileProcessingState) : App :=
  {| preferences := preferences a;
     preferencesLoaded := preferencesLoaded a;
     loadedPreferencesRef := loadedPreferencesRef a;
     detectedFiles := q |}.

(** [filePath.split('\\').pop() || filePath.split('/').pop() || 'Unknown file'] *)
Definition fileName_of (path : string) : string :=
  default "Unknown file"
    (or_else (or_else (pop (split backslash path)) (pop (split slash path)))
             (Some "Unknown file")).

(** [handleFileDetected(filePath, loadedPrefs)] at time [now]. *)
Definition handleFileDetected (path : string) (loadedPrefs : option UserPreferences)
    (now : Z) (a : App) : App :=
  let currentPrefs :=
    match loadedPrefs with
    | Some p => p
    | None => default (preferences a) (loadedPreferencesRef a)
    end in
  if negb (preferencesLoaded a) then a
  else
    let name := fileName_of path in
    with_files a
      (let prev := detectedFiles a in
       if negb (exists_path path prev) then
         prev ++ [new_entry name path now
                    (displayFolder_for (oneDriveRootFolder currentPrefs) path)]
       else prev).

(** [handleNotificationClicked(data)] at time [now]. *)
Definition handleNotificationClicked (data_fileName data_filePath : string)
    (now : Z) (a : App) : App :=
  match preferencesLoaded a, loadedPreferencesRef a with
  | true, Some ref =>
      let root :=
        or_else (oneDriveRootFolder ref) (oneDriveRootFolder (preferences a)) in
      with_files a
        (let prev := detectedFiles a in
         if negb (exists_path data_filePath prev) then
           prev ++ [new_entry data_fileName data_filePath now
                      (displayFolder_for root data_filePath)]
         else prev)
  | _, _ => a
  end.

(** [handleFileFolderChange(index, newFolder)] *)
Definition handleFileFolderChange (index : nat) (newFolder : string) (a : App) : App :=
  with_files a (map_at index (set_selectedFolder newFolder) (detectedFiles a)).

(** [handleFileTagToggle(index, tagId)] *)
Definition handleFileTagToggle (index : nat) (tagId : Z) (a : App) : App :=
  with_files a
    (map_at index
       (fun file =>
          set_selectedTags
            (if existsb (Z.eqb tagId) (selectedTags file)
             then List.filter (fun id => negb (Z.eqb id tagId)) (selectedTags file)
             else selectedTags file ++ [tagId])
            file)
       (detectedFiles a)).

(** The name [handleFileNameChange] stores for an entry. *)
Definition finalName (file : FileProcessingState) (newName : string) : string :=
  let originalExtension :=
    substring (fileName file) (lastIndexOf (fileName file) ".") None in
  if (negb (includes newName ".") && truthy (Some originalExtension))%bool
  then newName +:+ originalExtension
  else newName.

(** [handleFileNameChange(index, newName)] *)
Definition handleFileNameChange (index : nat) (newName : string) (a : App) : App :=
  with_files a
    (map_at index (fun file => set_displayName (finalName file newName) file)
       (detectedFiles a)).

(** [handleApplyFolderToAll(folderPath)], with the user's answer to the
    confirmation dialog. *)
Definition handleApplyFolderToAll (folderPath : string) (confirmed : bool)
    (a : App) : App :=
  if confirmed
  then with_files a (List.map (set_selectedFolder folderPath) (detectedFiles a))
  else a.

(** The queue after [handleRemoveFile(index)]: the entry leaves the list
    whether or not deleting the source file worked. *)
Definition handleRemoveFile (index : nat) (confirmed : bool) (a : App) : App :=
  if confirmed then with_files a (remove_at index (detectedFiles a)) else a.

(** The queue after [handleClearAllFiles()]. *)
Definition handleClearAllFiles (confirmed : bool) (a : App) : App :=
  if forallb isProcessed (detectedFiles a) then with_files a []
  else if confirmed then with_files a [] else a.

(** The folder shown when existing entries are re-labelled after the
    preferences arrive (no inference from the file path here). *)
Definition plainFolder (root : option string) : string :=
  match root with
  | Some d =>
      if (String.eqb d "/" || String.eqb d "")%bool then "OneDrive Root"
      else if includes d "\" then
        replace_all backslash "/" (strip_prefix "E:\365\" d)
      else d
  | None => "OneDrive Root"
  end.

(** [loadPreferences()] once the bridge has answered with [savedPrefs]: the
    preferences are stored and every queued entry is re-labelled. The effect
    on [preferencesLoaded, preferences.oneDriveRootFolder] repeats the same
    re-labelling. *)
Definition loadPreferences (savedPrefs : option UserPreferences) (a : App) : App :=
  match savedPrefs with
  | Some p =>
      {| preferences := p;
         preferencesLoaded := true;
         loadedPreferencesRef := Some p;
         detectedFiles :=
           List.map (fun file => set_selectedFolder (plainFolder (oneDriveRootFolder p)) file)
             (detectedFiles a) |}
  | None => a
  end.

(** [setPreferences(newPrefs)] as [savePreferences] performs it, followed by
    the effect that re-labels the queue when the root folder changed. *)
Definition setPreferences (newPrefs : UserPreferences) (a : App) : App :=
  let changed :=
    negb (bool_decide (oneDriveRootFolder newPrefs = oneDriveRootFolder (preferences a))) in
  {| preferences := newPrefs;
     preferencesLoaded := preferencesLoaded a;
     loadedPreferencesRef := loadedPreferencesRef a;
     detectedFiles :=
       if (changed && preferencesLoaded a
           && Nat.ltb 0 (List.length (detectedFiles a)))%bool
       then List.map (fun file =>
                        set_selectedFolder (plainFolder (oneDriveRootFolder newPrefs)) file)
              (detectedFiles a)
       else detectedFiles a |}.

(** The state [App] starts in. *)
Definition initial : App :=
  {| preferences := {| dropFolderPath := ""; oneDriveRootFolder := Some "/";
                       autoProcess := true |};
     preferencesLoaded := false;
     loadedPreferencesRef := None;
     detectedFiles := [] |}.

(** What reaches the queue: detections from the watcher or the startup
    scan, notification clicks, preference updates and the user's edits. *)
Inductive Event :=
  | FileReady (path : string) (loadedPrefs : option UserPreferences) (now : Z)
  | NotificationClicked (name path : string) (now : Z)
  | PreferencesRead (savedPrefs : option UserPreferences)
  | PreferencesSaved (newPrefs : UserPreferences)
  | AssignFolder (index : nat) (folder : string)
  | ToggleTag (index : nat) (tagId : Z)
  | RenameDisplayName (index : nat) (name : string)
  | ApplyFolderToAll (folder : string) (confirmed : bool)
  | Cancel (index : nat) (confirmed : bool)
  | ClearAllUnprocessed (confirmed : bool).

Definition step (a : App) (e : Event) : App :=
  match e with
  | FileReady path prefs now => handleFileDetected path prefs now a
  | NotificationClicked name path now => handleNotificationClicked name path now a
  | PreferencesRead p => loadPreferences p a
  | PreferencesSaved p => setPreferences p a
  | AssignFolder i d => handleFileFolderChange i d a
  | ToggleTag i t => handleFileTagToggle i t a
  | RenameDisplayName i n => handleFileNameChange i n a
  | ApplyFolderToAll d c => handleApplyFolderToAll d c a
  | Cancel i c => handleRemoveFile i c a
  | ClearAllUnprocessed c => handleClearAllFiles c a
  end.

Definition run (a : App) (events : list Event) : App := fold_left step events a.

(** The paths of the live entries, in queue order. *)
Definition paths (q : list FileProcessingState) : list string :=
  List.map filePath q.

(** [s] ends with [suffix]. *)
Definition endsWith (s suffix : string) : Prop := exists p, s = p +:+ suffix.

(** The extension of a file name as the specification words it: the suffix
    of the name that starts at its last ['.']. *)
Definition is_extension (ext name : string) : Prop :=
  exists pre rest,
    name = pre +:+ String dot rest /\ lacks dot rest /\ ext = String dot rest.

(** *** Processing an entry *)

(** A value caught by the handler, as it reads it:
    [error instanceof Error ? error.message : String(error)]. *)
Inductive caught :=
  | ErrorObj (message : string)
  | Other (v : json).

Definition error_text (e : caught) : string :=
  match e with
  | ErrorObj m => m
  | Other v => to_string v
  end.

(** The response of [fetch]: [ok], [statusText] and what [json()] gives. *)
Record FetchResponse := {
  ok : bool;
  statusText : string;
  body : caught + json
}.

(** The collaborators the handlers call, answered over a world [W]:
    [window.electronAPI.uploadToOneDrive], the POST to
    [/api/file-tags/associations] (user-name header, and one
    [(file_id, tag_id)] pair per tag), and [window.electronAPI.deleteFile]. *)
Class Bridge (W : Type) := {
  uploadToOneDrive : string -> string -> option string -> W -> (caught + json) * W;
  postAssociations : string -> list (json * Z) -> W -> (caught + FetchResponse) * W;
  deleteFile : string -> W -> (caught + bool) * W
}.

(** The calls a handler made, in order. *)
Inductive Call :=
  | Upload (path name : string) (folder : option string)
  | Associate (userName : string) (pairs : list (json * Z))
  | Delete (path : string)
  | Delay (ms : Z)
  | Alert (text : string).

(** The live queue (the React state the updaters act on), the world, and
    the calls made so far. *)
Record Sys (W : Type) := {
  live : list FileProcessingState;
  world : W;
  calls : list Call
}.
Arguments live {W} _.
Arguments world {W} _.
Arguments calls {W} _.

Section Handlers.
Context {W : Type} `{Bridge W}.
Import Eff.
Local Open Scope eff_scope.

Abbreviation Async := (M (Sys W) caught).

(** [setDetectedFiles(prev => g(prev))] *)
Definition setDetectedFiles
    (g : list FileProcessingState -> list FileProcessingState) : Async unit :=
  modify (fun st => {| live := g (live st); world := world st; calls := calls st |}).

(** A call to a collaborator: it is logged, and the world answers. *)
Definition call {A} (c : Call) (oracle : W -> (caught + A) * W) : Async A :=
  fun st =>
    let '(r, w) := oracle (world st) in
    (r, {| live := live st; world := w; calls := calls st ++ [c] |}).

(** An effect that cannot fail ([alert], the timer between two files). *)
Definition emit (c : Call) : Async unit :=
  modify (fun st => {| live := live st; world := world st; calls := calls st ++ [c] |}).

(** [o.k] on the upload result; a [TypeError] when [o] is [undefined] or
    [null]. *)
Definition read_result (o : json) (k : string) : Async json :=
  require (prop o k)
    (ErrorObj ("Cannot read properties of " +:+ to_string o +:+ " (reading '" +:+ k +:+ "')")).

(** [currentUser?.name || 'Desktop App User'] *)
Definition userName_of (user : UserInfo) : string :=
  default "Desktop App User"
    (or_else (Some (user_name user)) (Some "Desktop App User")).

(** One association per selected tag, all for the uploaded file. *)
Definition pairs_of (id : json) (file : FileProcessingState) : list (json * Z) :=
  List.map (fun tagId => (id, tagId)) (selectedTags file).

(** [file.selectedFolder] as it is passed to the upload. *)
Definition oneDriveFolder_of (file : FileProcessingState) : option string :=
  if String.eqb (selectedFolder file) "OneDrive Root"
  then None else Some (selectedFolder file).

(** The tag-association step of [handleProcessSingleFile]. *)
Definition associate (user : UserInfo) (file : FileProcessingState)
    (oneDriveResult : json) : Async json :=
  if Nat.ltb 0 (List.length (selectedTags file)) then
    id <- read_result oneDriveResult "id" ;;
    let userName := userName_of user in
    let pairs := pairs_of id file in
    tagResult <- call (Associate userName pairs) (postAssociations userName pairs) ;;
    if negb (ok tagResult) then
      throw (ErrorObj ("Failed to create tag associations: " +:+ statusText tagResult))
    else
      fun st => (body tagResult, st)
  else ret (JArr []).

(** The deletion of the source file, inside its own [try]/[catch]. *)
Definition delete_source (file : FileProcessingState) : Async unit :=
  try_catch
    (deleteSuccess <- call (Delete (filePath file)) (deleteFile (filePath file)) ;;
     ret tt)
    (fun deleteError => ret tt).

(** [handleProcessSingleFile(index)], in the render whose state is
    [detectedFiles] and whose user is [currentUser]; [electronAPI] tells
    whether [window.electronAPI] is there. *)
Definition handleProcessSingleFile (detectedFiles : list FileProcessingState)
    (currentUser : option UserInfo) (electronAPI : bool) (index : nat)
    : Async unit :=
  match detectedFiles !! index with
  | None => ret tt
  | Some file =>
      if (isProcessing file || isProcessed file)%bool then ret tt
      else
        setDetectedFiles (map_at index mark_processing) ;;;
        try_catch
          (match currentUser with
           | None =>
               throw (ErrorObj
                 "Please authenticate with Microsoft to upload files to OneDrive.")
           | Some user =>
               if electronAPI then
                 let oneDriveFolder := oneDriveFolder_of file in
                 oneDriveResult <-
                   call (Upload (filePath file) (displayName file) oneDriveFolder)
                        (uploadToOneDrive (filePath file) (displayName file)
                           oneDriveFolder) ;;
                 associationResult <- associate user file oneDriveResult ;;
                 id <- read_result oneDriveResult "id" ;;
                 webUrl <- read_result oneDriveResult "webUrl" ;;
                 let result :=
                   {| success := true; file_id := id; one_drive_id := id;
                      web_url := webUrl;
                      message := "File uploaded and tagged successfully";
                      associations := associationResult |} in
                 delete_source file ;;;
                 setDetectedFiles (map_at index (mark_processed result))
               else ret tt
           end)
          (fun error =>
             setDetectedFiles (map_at index (mark_failed (error_text error))))
  end.

(** The association step went through from world [w1] to world [w2]: there
    was nothing to associate, or the request was answered with [ok] and a
    body that parses. *)
Definition association_succeeds (user : UserInfo) (file : FileProcessingState)
    (oneDriveResult : json) (w1 w2 : W) : Prop :=
  (selectedTags file = [] /\ w2 = w1) \/
  (selectedTags file <> [] /\
   exists id resp j,
     prop oneDriveResult "id" = Some id /\
     postAssociations (userName_of user) (pairs_of id file) w1 = (inr resp, w2) /\
     ok resp = true /\ body resp = inr j).

(** [arr.findIndex(p)]; [None] stands for [-1]. *)
Fixpoint findIndex {A} (p : A -> bool) (l : list A) : option nat :=
  match l with
  | [] => None
  | x :: l' => if p x then Some O else S <$> findIndex p l'
  end.

(** An entry [handleProcessAllFiles] selects. *)
Definition ready (f : FileProcessingState) : bool :=
  (negb (isProcessed f) && negb (isProcessing f))%bool.

(** The [for] loop of [handleProcessAllFiles], from the entry it is at. *)
Fixpoint process_from (detectedFiles : list FileProcessingState)
    (currentUser : option UserInfo) (electronAPI : bool)
    (filesToProcess : list FileProcessingState) : Async unit :=
  match filesToProcess with
  | [] => ret tt
  | f :: rest =>
      match findIndex (fun g => String.eqb (filePath g) (filePath f)) detectedFiles with
      | Some fileIndex =>
          handleProcessSingleFile detectedFiles currentUser electronAPI fileIndex ;;;
          match rest with
          | [] => ret tt
          | _ :: _ => emit (Delay 1000)
          end
      | None => ret tt
      end ;;;
      process_from detectedFiles currentUser electronAPI rest
  end.

(** [handleProcessAllFiles()] *)
Definition handleProcessAllFiles (detectedFiles : list FileProcessingState)
    (currentUser : option UserInfo) (electronAPI : bool) : Async unit :=
  let filesToProcess := List.filter ready detectedFiles in
  if Nat.eqb (List.length filesToProcess) 0 then emit (Alert "No files ready to process.")
  else process_from detectedFiles currentUser electronAPI filesToProcess.

(** The positions of the entries that are neither completed nor being
    processed, in queue order, counted from [k]. *)
Fixpoint ready_from (k : nat) (q : list FileProcessingState) : list nat :=
  match q with
  | [] => []
  | f :: q' => if ready f then k :: ready_from (S k) q' else ready_from (S k) q'
  end.

(** The batch as the specification words it: each selected entry in queue
    order, one after the other, with a delay between two of them. *)
Fixpoint process_in_order (detectedFiles : list FileProcessingState)
    (currentUser : option UserInfo) (electronAPI : bool)
    (indices : list nat) : Async unit :=
  match indices with
  | [] => ret tt
  | i :: rest =>
      handleProcessSingleFile detectedFiles currentUser electronAPI i ;;;
      match rest with
      | [] => ret tt
      | _ :: _ => emit (Delay 1000)
      end ;;;
      process_in_order detectedFiles currentUser electronAPI rest
  end.

End Handlers.

(** The positions of a queue whose entry is neither completed nor being
    processed, in increasing order. *)
Definition ready_positions (q : list FileProcessingState) : list nat :=
  List.filter (fun i => match q !! i with Some f => ready f | None => false end)
    (seq 0 (List.length q)).

(** The call is the tag-association request. *)
Definition is_associate (c : Call) : bool :=
  match c with
  | Associate _ _ => true
  | _ => false
  end.

(** The entry is completed, or failed with its error recorded, and is no
    longer being processed. *)
Definition settled (f : FileProcessingState) : Prop :=
  isProcessing f = false /\ (isProcessed f = true \/ is_Some (error f)).


End Queue.

(** ** The remote drive client *)

Module OneDrive.
Import JS Eff.

(** An HTTP response as axios hands it over. *)
Record Response := {
  status : Z;
  statusText : string;
  data : json
}.

(** A thrown value ([error: any]): axios errors carry [response] when the
    server answered and [request] when the request went out unanswered; an
    ordinary [Error] has neither. *)
Record thrown := {
  response : option Response;
  request : bool;
  message : string
}.

(** [new Error(msg)] *)
Definition Error (msg : string) : thrown :=
  {| response := None; request := false; message := msg |}.

Inductive Method := GET | POST | PUT.

Inductive Body :=
| NoBody
| JsonBody (j : json)
| Bytes (b : list Byte.byte).

(** A request given to axios: method, URL, the bearer token of the
    [Authorization] header when there is one, and the body. *)
Record Request := {
  method : Method;
  url : json;
  bearer : option string;
  content : Body
}.

(** A drive as the auth service lists it. *)
Record Drive := {
  drive_id : string;
  drive_name : option string;
  driveType : string
}.

Record OneDriveFile := {
  file_id : json;
  file_name : json;
  file_webUrl : json;
  file_size : json;
  file_createdDateTime : json;
  file_lastModifiedDateTime : json
}.

Record OneDriveFolder := {
  folder_id : json;
  folder_name : json;
  folder_webUrl : json;
  folder_createdDateTime : json;
  folder_lastModifiedDateTime : json
}.

(** What the service calls and does not define: the auth service
    ([getAccessToken], [getOneDriveDrives]), the file system, axios, and
    [JSON.stringify]. *)
Class Remote (W : Type) := {
  getAccessToken : W -> (thrown + string) * W;
  getOneDriveDrives : W -> (thrown + list Drive) * W;
  readFileSync : string -> W -> (thrown + list Byte.byte) * W;
  axios : Request -> W -> (thrown + Response) * W;
  JSON_stringify : json -> string
}.

(** The service object: its [currentDriveId] field, the world behind the
    collaborators, and the HTTP requests made so far. *)
Record Service (W : Type) := {
  currentDriveId : option string;
  net : W;
  requests : list Request
}.
Arguments currentDriveId {W} _.
Arguments net {W} _.
Arguments requests {W} _.

Definition graph : string := "https://graph.microsoft.com/v1.0/drives/".

(** The path segment of an upload URL: [root:/name] at the root,
    [root:/target/name] below it. *)
Definition item_path (targetPath fileName : string) : string :=
  if String.eqb targetPath "root" then "/root:/" +:+ fileName
  else "/root:/" +:+ targetPath +:+ "/" +:+ fileName.

Definition sessionUrl (driveId targetPath fileName : string) : string :=
  graph +:+ driveId +:+ item_path targetPath fileName +:+ ":/createUploadSession".

Definition fallbackUploadUrl (driveId targetPath fileName : string) : string :=
  graph +:+ driveId +:+ item_path targetPath fileName +:+ ":/content".

(** The conversion of [folderPath] into the remote path syntax. *)
Definition targetPath_of (folderPath : string) : string :=
  if (negb (String.eqb folderPath "") && negb (String.eqb folderPath "root"))%bool then
    if includes folderPath "\" then
      let t := replace_all backslash "/" (strip_prefix "E:\365\" folderPath) in
      if startsWith t "OneDrive - Broadlink/"
      then substring t (Z.of_nat (String.length "OneDrive - Broadlink/")) None
      else t
    else
      if startsWith folderPath "OneDrive - Broadlink/"
      then substring folderPath (Z.of_nat (String.length "OneDrive - Broadlink/")) None
      else folderPath
  else "root".

(** The message of the error [uploadFile] throws for an answered request. *)
Definition upload_failed `{Remote W} (st : Z) (detail : json) : string :=
  "Upload failed with status " +:+ string_of_Z st +:+ ": " +:+ JSON_stringify detail.

Definition drive_json (d : Drive) : json :=
  JObj [("id", JStr (drive_id d));
        ("name", match drive_name d with Some n => JStr n | None => JUndef end);
        ("driveType", JStr (driveType d))].

Definition folderData (folderName : string) : json :=
  JObj [("name", JStr folderName);
        ("folder", JObj []);
        ("@microsoft.graph.conflictBehavior", JStr "rename")].

Definition is_2xx (r : Response) : bool := (200 <=? status r) && (status r <? 300).

(** A parameter with a default value, [p = dflt]: the default stands in
    when the argument is [undefined], and only then. *)
Definition or_default (arg dflt : json) : json :=
  match arg with
  | JUndef => dflt
  | _ => arg
  end.

Section Client.
Context {W : Type} `{Remote W}.
Local Open Scope eff_scope.

Abbreviation Async := (M (Service W) thrown).

(** A call to the auth service or the file system. *)
Definition ask {A} (oracle : W -> (thrown + A) * W) : Async A :=
  fun st =>
    let '(r, w) := oracle (net st) in
    (r, {| currentDriveId := currentDriveId st; net := w; requests := requests st |}).

(** An HTTP request: logged, then answered. *)
Definition send (r : Request) : Async Response :=
  fun st =>
    let '(a, w) := axios r (net st) in
    (a, {| currentDriveId := currentDriveId st; net := w;
           requests := requests st ++ [r] |}).

(** [o.k], a [TypeError] when [o] is [undefined] or [null]. *)
Definition read (o : json) (k : string) : Async json :=
  require (prop o k)
    (Error ("Cannot read properties of " +:+ to_string o +:+ " (reading '" +:+ k +:+ "')")).

(** [getDefaultDrive()] *)
Definition getDefaultDrive : Async (string * string) :=
  drives <- ask getOneDriveDrives ;;
  let personalDrive :=
    match List.find (fun d => String.eqb (driveType d) "personal") drives with
    | Some d => Some d
    | None =>
        match List.find (fun d => match drive_name d with
                                  | Some n => (negb (String.eqb n "") &&
                                               includes (toLowerCase n) "onedrive")%bool
                                  | None => false
                                  end) drives with
        | Some d => Some d
        | None => head drives
        end
    end in
  match personalDrive with
  | None =>
      throw (Error ("No OneDrive drives found. Available drives: " +:+
                    JSON_stringify (JArr (List.map drive_json drives))))
  | Some d =>
      modify (fun st => {| currentDriveId := Some (drive_id d); net := net st;
                           requests := requests st |}) ;;;
      ret (drive_id d,
           default "OneDrive" (or_else (drive_name d) (Some "OneDrive")))
  end.

(** [this.currentDriveId || (await this.getDefaultDrive()).id] *)
Definition driveId_or_default : Async string :=
  cur <- gets currentDriveId ;;
  if truthy cur then ret (default "" cur)
  else (d <- getDefaultDrive ;; ret (fst d)).

(** [handleUploadResponse(response)] *)
Definition handleUploadResponse (r : Response) : Async OneDriveFile :=
  if is_2xx r then
    id <- read (data r) "id" ;;
    name <- read (data r) "name" ;;
    webUrl <- read (data r) "webUrl" ;;
    size <- read (data r) "size" ;;
    created <- read (data r) "createdDateTime" ;;
    modified <- read (data r) "lastModifiedDateTime" ;;
    ret {| file_id := id; file_name := name; file_webUrl := webUrl;
           file_size := size; file_createdDateTime := created;
           file_lastModifiedDateTime := modified |}
  else
    throw (Error ("Upload failed with status " +:+ string_of_Z (status r) +:+ ": "
                  +:+ statusText r)).

Definition session_request (accessToken driveId targetPath fileName : string) : Request :=
  {| method := POST;
     url := JStr (sessionUrl driveId targetPath fileName);
     bearer := Some accessToken;
     content := JsonBody (JObj [("item", JObj [("name", JStr fileName);
                                               ("file", JObj [])])]) |}.

Definition session_put (sessionUploadUrl : json) (fileBuffer : list Byte.byte) : Request :=
  {| method := PUT; url := sessionUploadUrl; bearer := None;
     content := Bytes fileBuffer |}.

Definition fallback_request (accessToken driveId targetPath fileName : string)
    (fileBuffer : list Byte.byte) : Request :=
  {| method := PUT;
     url := JStr (fallbackUploadUrl driveId targetPath fileName);
     bearer := Some accessToken;
     content := Bytes fileBuffer |}.

(** The inner [try] block of [uploadFile]: create an upload session, then put
    the bytes to the session URL. *)
Definition session_upload (accessToken driveId targetPath fileName : string)
    (fileBuffer : list Byte.byte) : Async OneDriveFile :=
  sessionResponse <- send (session_request accessToken driveId targetPath fileName) ;;
  sessionUploadUrl <- read (data sessionResponse) "uploadUrl" ;;
  uploadResponse <- send (session_put sessionUploadUrl fileBuffer) ;;
  handleUploadResponse uploadResponse.

(** The fallback in its [catch]: one PUT of the bytes to the content URL. *)
Definition simple_upload (accessToken driveId targetPath fileName : string)
    (fileBuffer : list Byte.byte) : Async OneDriveFile :=
  try_catch
    (resp <- send (fallback_request accessToken driveId targetPath fileName fileBuffer) ;;
     handleUploadResponse resp)
    (fun fallbackError => throw fallbackError).

(** The outer [catch] of [uploadFile]: the error that leaves the function. *)
Definition report (error : thrown) : thrown :=
  match response error with
  | Some r => Error (upload_failed (status r) (data r))
  | None =>
      if request error
      then Error ("Network error during upload: " +:+ message error)
      else Error ("Upload error: " +:+ message error)
  end.

(** [uploadFile(filePath, fileName, folderPath = 'root')] *)
Definition uploadFile (filePath fileName : string) (folderPath : option string)
    : Async OneDriveFile :=
  let folderPath := default "root" folderPath in
  try_catch
    (accessToken <- ask getAccessToken ;;
     driveId <- driveId_or_default ;;
     fileBuffer <- ask (readFileSync filePath) ;;
     let targetPath := targetPath_of folderPath in
     try_catch
       (session_upload accessToken driveId targetPath fileName fileBuffer)
       (fun error => simple_upload accessToken driveId targetPath fileName fileBuffer))
    (fun error => throw (report error)).

Definition folder_of (d : json) : Async OneDriveFolder :=
  id <- read d "id" ;;
  name <- read d "name" ;;
  webUrl <- read d "webUrl" ;;
  created <- read d "createdDateTime" ;;
  modified <- read d "lastModifiedDateTime" ;;
  ret {| folder_id := id; folder_name := name; folder_webUrl := webUrl;
         folder_createdDateTime := created;
         folder_lastModifiedDateTime := modified |}.

Definition create_request (accessToken driveId : string) (folderName : string)
    (parentFolderId : json) : Request :=
  {| method := POST;
     url := JStr (graph +:+ driveId +:+ "/items/" +:+ to_string parentFolderId
                  +:+ "/children");
     bearer := Some accessToken;
     content := JsonBody (folderData folderName) |}.

(** [createFolder(folderName, parentFolderId = 'root')] *)
Definition createFolder (folderName : string) (parentFolderId : json)
    : Async OneDriveFolder :=
  let parentFolderId := or_default parentFolderId (JStr "root") in
  try_catch
    (accessToken <- ask getAccessToken ;;
     driveId <- driveId_or_default ;;
     resp <- send (create_request accessToken driveId folderName parentFolderId) ;;
     if is_2xx resp then folder_of (data resp)
     else throw (Error ("Folder creation failed with status "
                        +:+ string_of_Z (status resp) +:+ ": " +:+ statusText resp)))
    (fun error => throw error).

(** The cleaned path [findFolderByPath] looks up. *)
Definition cleanPath_of (folderPath : string) : string :=
  let p :=
    if includes folderPath ":"
    then substring folderPath (indexOf folderPath ":" 0 + 1) None
    else folderPath in
  strip_trailing slash (strip_leading slash (replace_all backslash "/" p)).

(** [cleanPath.split('/').filter(part => part.length > 0)] *)
Definition pathParts_of (cleanPath : string) : list string :=
  List.filter (fun part => Nat.ltb 0 (String.length part)) (split slash cleanPath).

(** The loop that creates the folder structure: the identifier of the last
    folder created, or [None] as soon as one creation fails. *)
Fixpoint create_parts (pathParts : list string) (currentFolderId : json)
    : Async (option json) :=
  match pathParts with
  | [] => ret (Some currentFolderId)
  | part :: rest =>
      r <- try_catch
             (folder <- createFolder part currentFolderId ;; ret (Some folder))
             (fun createError => ret None) ;;
      match r with
      | Some folder => create_parts rest (folder_id folder)
      | None => ret None
      end
  end.

Definition lookup_request (accessToken driveId cleanPath : string) : Request :=
  {| method := GET;
     url := JStr (graph +:+ driveId +:+ "/root:/" +:+ cleanPath);
     bearer := Some accessToken; content := NoBody |}.

Definition item_request (accessToken driveId : string) (itemId : json) : Request :=
  {| method := GET;
     url := JStr (graph +:+ driveId +:+ "/items/" +:+ to_string itemId);
     bearer := Some accessToken; content := NoBody |}.

(** [findFolderByPath(folderPath)]; [None] is the [null] result. *)
Definition findFolderByPath (folderPath : string) : Async (option OneDriveFolder) :=
  try_catch
    (accessToken <- ask getAccessToken ;;
     driveId <- driveId_or_default ;;
     let cleanPath := cleanPath_of folderPath in
     try_catch
       (resp <- send (lookup_request accessToken driveId cleanPath) ;;
        folder <- folder_of (data resp) ;;
        ret (Some folder))
       (fun getError =>
          match response getError with
          | Some r =>
              if status r =? 404 then
                last <- create_parts (pathParts_of cleanPath) (JStr "root") ;;
                match last with
                | None => ret None
                | Some currentFolderId =>
                    finalResponse <- send (item_request accessToken driveId currentFolderId) ;;
                    folder <- folder_of (data finalResponse) ;;
                    ret (Some folder)
                end
              else throw getError
          | None => throw getError
          end))
    (fun error => ret None).

(** Every folder of [pathParts] was created, each inside the one created
    before it, starting inside [parent]: the folders created, in order, and
    the state afterwards. *)
Inductive created : list string -> json -> Service W ->
                    list OneDriveFolder -> Service W -> Prop :=
| created_none (parent : json) (st : Service W) :
    created [] parent st [] st
| created_next (part : string) (rest : list string) (parent : json)
    (st st1 st' : Service W) (folder : OneDriveFolder)
    (folders : list OneDriveFolder) :
    createFolder part parent st = (inr folder, st1) ->
    created rest (folder_id folder) st1 folders st' ->
    created (part :: rest) parent st (folder :: folders) st'.

(** The parent of each creation: the root, then each folder just created. *)
Definition parents_of (folders : list OneDriveFolder) : list json :=
  JStr "root" :: List.map folder_id folders.

(** The identifier of the deepest folder: the last one created, or the
    starting parent when the path has no segment. *)
Definition deepest (parent : json) (folders : list OneDriveFolder) : json :=
  default parent (last (List.map folder_id folders)).

(** The request asks for rename-on-conflict. *)
Definition renames_on_conflict (req : Request) : Prop :=
  exists j, content req = JsonBody j /\
            prop j "@microsoft.graph.conflictBehavior" = Some (JStr "rename").

(** The request creates a folder named [part] inside [parent], the root
    when [parent] is [undefined], and asks for rename-on-conflict. *)
Definition creates (req : Request) (target : string * json) : Prop :=
  exists accessToken driveId,
    req = {| method := POST;
             url := JStr ("https://graph.microsoft.com/v1.0/drives/" +:+ driveId
                          +:+ "/items/"
                          +:+ to_string (match snd target with
                                         | JUndef => JStr "root"
                                         | parent => parent
                                         end)
                          +:+ "/children");
             bearer := Some accessToken;
             content := JsonBody (JObj [("name", JStr (fst target));
                                        ("folder", JObj []);
                                        ("@microsoft.graph.conflictBehavior",
                                         JStr "rename")]) |}.

End Client.

End OneDrive.

(** ** The key/value cache of the local store *)

Module Cache.
Import JS.

(** A row of the [cache] table; [key] is its primary key. *)
Record CacheRow := {
  value : string;
  expires_at : string
}.

(** The open database. The [cache] table is absent when [createTables]
    failed (it only logs the failure); preparing a statement on it throws. *)
Record Database := {
  cache : option (gmap string CacheRow)
}.

(** [DatabaseManager]: [db] is [null] in mock mode. *)
Record DatabaseManager := {
  db : option Database
}.

(** What the method takes from the JavaScript runtime: [JSON.parse] ([None]
    when it throws) and the time value of [new Date(text)] in milliseconds
    ([None] for an invalid date, whose comparisons are all false). *)
Class Runtime := {
  JSON_parse : string -> option json;
  Date_time : string -> option Z
}.

(** [new Date(text) < new Date()], the second date being [now]. *)
Definition before `{Runtime} (text : string) (now : Z) : bool :=
  match Date_time text with
  | Some t => t <? now
  | None => false
  end.

(** [getCachedData(key)] called at time [now]: the value returned ([JNull]
    for [null]) and the store afterwards. *)
Definition getCachedData `{Runtime} (key : string) (now : Z) (m : DatabaseManager)
    : json * DatabaseManager :=
  match db m with
  | None => (JNull, m)
  | Some d =>
      match cache d with
      | None => (JNull, m)
      | Some rows =>
          match rows !! key with
          | None => (JNull, m)
          | Some result =>
              if before (expires_at result) now then
                (JNull, {| db := Some {| cache := Some (delete key rows) |} |})
              else
                match JSON_parse (value result) with
                | Some v => (v, m)
                | None => (JNull, m)
                end
          end
      end
  end.

(** The row stored under [key], if the store holds one. *)
Definition row (m : DatabaseManager) (key : string) : option CacheRow :=
  d ← db m; rows ← cache d; rows !! key.

End Cache.

(** ** More of the renderer: removal, clearing, links *)

Module QueueOps.
Import JS Queue Eff.

(** The event makes [loadPreferences] store preferences. *)
Definition reads_preferences (e : Event) : bool :=
  match e with
  | PreferencesRead (Some _) => true
  | _ => false
  end.

(** No entry of the queue has a tag selected twice. *)
Definition tags_unique (q : list FileProcessingState) : Prop :=
  Forall (fun f => NoDup (selectedTags f)) q.

(** The local file a call is about, if it is about one. *)
Definition call_path (c : Call) : option string :=
  match c with
  | Upload path _ _ => Some path
  | Delete path => Some path
  | _ => None
  end.

(** What detection and the user's edits put on an entry; processing is
    not meant to touch it. *)
Definition assignment (f : FileProcessingState)
    : string * string * string * Z * string * list Z :=
  (fileName f, displayName f, filePath f, timestamp f, selectedFolder f,
   selectedTags f).

Definition is_delete (c : Call) : bool :=
  match c with
  | Delete _ => true
  | _ => false
  end.

(** The folder link [handleOpenOneDriveWebFolder] opens for a file URL:
    [webUrl.substring(0, webUrl.lastIndexOf('/'))]. *)
Definition folderUrl_of (webUrl : string) : string :=
  substring webUrl 0 (Some (lastIndexOf webUrl "/")).

(** [`${error}`] for a caught value; an error object is taken to be a plain
    [Error], whose string form is its message after ["Error: "]. *)
Definition error_string (e : caught) : string :=
  match e with
  | ErrorObj m => "Error: " +:+ m
  | Other v => to_string v
  end.

Section Handlers.
Context {W : Type} `{Bridge W}.
Local Open Scope eff_scope.

Abbreviation Async := (M (Sys W) caught).

(** [handleRemoveFile(index)] in the render whose state is [detectedFiles],
    with the user's answer to the confirmation dialog. Building the dialog
    text reads [file.fileName], which throws when there is no such entry. *)
Definition handleRemoveFile_async (detectedFiles : list FileProcessingState)
    (electronAPI confirmed : bool) (index : nat) : Async unit :=
  match detectedFiles !! index with
  | None => throw (ErrorObj "Cannot read properties of undefined (reading 'fileName')")
  | Some file =>
      if confirmed then
        try_catch
          ((if electronAPI
            then (deleted <- call (Delete (filePath file)) (deleteFile (filePath file)) ;;
                  ret tt)
            else ret tt) ;;;
           setDetectedFiles (remove_at index))
          (fun error =>
             setDetectedFiles (remove_at index) ;;;
             emit (Alert ("File removed from processing list, but there was an error deleting the file from the drop folder: "
                          +:+ error_string error)))
      else ret tt
  end.

(** One deletion of [handleClearAllFiles]: whether it counts as a success. *)
Definition delete_one (electronAPI : bool) (file : FileProcessingState) : Async bool :=
  try_catch
    (if electronAPI
     then (deleted <- call (Delete (filePath file)) (deleteFile (filePath file)) ;;
           ret true)
     else ret false)
    (fun error => ret false).

(** The deletions of [handleClearAllFiles]: [deleteFile] is called for the
    files in list order, and [Promise.all] gathers the outcomes in that
    order. *)
Fixpoint delete_each (electronAPI : bool) (files : list FileProcessingState)
    : Async (list bool) :=
  match files with
  | [] => ret []
  | file :: rest =>
      r <- delete_one electronAPI file ;;
      rs <- delete_each electronAPI rest ;;
      ret (r :: rs)
  end.

(** The bridge answers every deletion, with [true] or [false], and never
    throws: what the handler of [delete-file] in the main process does. *)
Definition deletions_answer : Prop :=
  forall path (w : W), exists b w', deleteFile path w = (inr b, w').

Definition count (b : bool) (results : list bool) : nat :=
  List.length (List.filter (Bool.eqb b) results).

(** [handleClearAllFiles()] in the render whose state is [detectedFiles]. *)
Definition handleClearAllFiles_async (detectedFiles : list FileProcessingState)
    (electronAPI confirmed : bool) : Async unit :=
  let unprocessedFiles := List.filter (fun file => negb (isProcessed file)) detectedFiles in
  if Nat.eqb (List.length unprocessedFiles) 0 then setDetectedFiles (fun _ => [])
  else if confirmed then
    try_catch
      (results <- delete_each electronAPI unprocessedFiles ;;
       let successful := count true results in
       let failed := count false results in
       setDetectedFiles (fun _ => []) ;;;
       if Nat.ltb 0 failed then
         emit (Alert ("Cleared " +:+ string_of_Z (Z.of_nat successful)
                      +:+ " unprocessed files successfully, but "
                      +:+ string_of_Z (Z.of_nat failed)
                      +:+ " files could not be deleted from the drop folder. Check the console for details."))
       else ret tt)
      (fun error =>
         setDetectedFiles (fun _ => []) ;;;
         emit (Alert ("Files removed from processing list, but there was an error deleting some unprocessed files from the drop folder: "
                      +:+ error_string error)))
  else ret tt.

End Handlers.

End QueueOps.

(** ** More of the remote drive client: folder contents *)

Module DriveOps.
Import JS OneDrive Eff.

(** Truthiness of a value, as [||] tests it. *)
Definition js_truthy (j : json) : bool :=
  match j with
  | JUndef | JNull => false
  | JBool b => b
  | JNum z => negb (z =? 0)
  | JStr s => negb (String.eqb s "")
  | JArr _ | JObj _ => true
  end.

(** [a || b] on values. *)
Definition js_or (a b : json) : json := if js_truthy a then a else b.

(** The value has properties that can be read. *)
Definition readable (j : json) : Prop := j <> JUndef /\ j <> JNull.

(** The entry listed for an item whose properties can be read. *)
Definition listed (item : json) : OneDriveFile :=
  let get k := default JUndef (prop item k) in
  {| file_id := get "id"; file_name := get "name"; file_webUrl := get "webUrl";
     file_size := js_or (get "size") (JNum 0);
     file_createdDateTime := get "createdDateTime";
     file_lastModifiedDateTime := get "lastModifiedDateTime" |}.

Section Client.
Context {W : Type} `{Remote W}.
Local Open Scope eff_scope.

Abbreviation Async := (M (Service W) thrown).

Definition children_request (accessToken driveId : string) (folderId : json) : Request :=
  {| method := GET;
     url := JStr (graph +:+ driveId +:+ "/items/" +:+ to_string folderId +:+ "/children");
     bearer := Some accessToken; content := NoBody |}.

(** One element of the listing: [size] is [item.size || 0]. *)
Definition item_of (item : json) : Async OneDriveFile :=
  id <- read item "id" ;;
  name <- read item "name" ;;
  webUrl <- read item "webUrl" ;;
  size <- read item "size" ;;
  created <- read item "createdDateTime" ;;
  modified <- read item "lastModifiedDateTime" ;;
  ret {| file_id := id; file_name := name; file_webUrl := webUrl;
         file_size := js_or size (JNum 0); file_createdDateTime := created;
         file_lastModifiedDateTime := modified |}.

(** [items.map(item => ...)] inside the [try]. *)
Fixpoint items_of (items : list json) : Async (list OneDriveFile) :=
  match items with
  | [] => ret []
  | item :: rest =>
      f <- item_of item ;;
      fs <- items_of rest ;;
      ret (f :: fs)
  end.

(** [getFolderContents(folderId = 'root')] *)
Definition getFolderContents (folderId : json) : Async (list OneDriveFile) :=
  let folderId := or_default folderId (JStr "root") in
  try_catch
    (accessToken <- ask getAccessToken ;;
     driveId <- driveId_or_default ;;
     resp <- send (children_request accessToken driveId folderId) ;;
     value <- read (data resp) "value" ;;
     match js_or value (JArr []) with
     | JArr items => items_of items
     | _ => throw (Error "items.map is not a function")
     end)
    (fun error => throw error).

End Client.

End DriveOps.

(** ** More of the local store: writing the cache *)

Module Store.
Import JS Cache.

(** What [cacheData] takes from the runtime: [JSON.stringify] ([None] when
    it gives [undefined], which the statement refuses to bind) and
    [toISOString] ([None] when the date is out of range and it throws). *)
Class Encoder := {
  JSON_stringify : json -> option string;
  toISOString : Z -> option string
}.

(** [cacheData(key, value, ttlMinutes)] called at time [now]: the result and
    the store afterwards. [INSERT OR REPLACE] overwrites the row of [key]. *)
Definition cacheData `{Encoder} (key : string) (value : json) (ttlMinutes : Z)
    (now : Z) (m : DatabaseManager) : bool * DatabaseManager :=
  match db m with
  | None => (true, m)
  | Some d =>
      match toISOString (now + ttlMinutes * 60 * 1000) with
      | None => (false, m)
      | Some expiresAt =>
          match cache d with
          | None => (false, m)
          | Some rows =>
              match JSON_stringify value with
              | None => (false, m)
              | Some text =>
                  (true,
                   {| db := Some {| cache :=
                        Some (<[key := {| Cache.value := text;
                                          expires_at := expiresAt |}]> rows) |} |})
              end
          end
      end
  end.

End Store.

(** ** The folder watcher and its handlers in the main process *)

Module Watch.
Import JS.

(** A path as the pattern sees it: the UTF-16 code units of the string. *)
Definition code (a : ascii) : N := N_of_ascii a.

(** The code units of a text in the ASCII range. *)
Definition units_of (s : string) : list N := List.map code (list_ascii_of_string s).

(** A [.] of the pattern matches one code unit, any but the line terminators
    LF, CR, U+2028 and U+2029. *)
Definition any_char (u : N) : bool :=
  negb (N.eqb u 10 || N.eqb u 13 || N.eqb u 8232 || N.eqb u 8233).

Definition is_separator (u : N) : bool :=
  (N.eqb u (code slash) || N.eqb u (code backslash))%bool.

(** The pattern [(^|[\/\\])\..] tried from a position of the path that is
    its start or follows a separator when [boundary] holds. *)
Fixpoint ignored_from (boundary : bool) (s : list N) : bool :=
  match s with
  | [] => false
  | u :: s' =>
      (boundary && N.eqb u (code dot) &&
       match s' with
       | b :: _ => any_char b
       | [] => false
       end)
      || ignored_from (is_separator u) s'
  end.

(** [ignored: /(^|[\/\\])\../] *)
Definition ignored (path : list N) : bool := ignored_from true path.

(** The path has a segment that starts with a dot and goes on: a ['.']
    (46) at the start of the path or right after ['/'] (47) or a backslash
    (92), followed by a code unit that is none of LF, CR, U+2028, U+2029. *)
Definition hidden (path : list N) : Prop :=
  exists pre b rest,
    path = (pre ++ 46 :: b :: rest)%N /\
    (b <> 10 /\ b <> 13 /\ b <> 8232 /\ b <> 8233)%N /\
    (pre = [] \/ exists pre' sep, pre = pre' ++ [sep] /\ (sep = 47 \/ sep = 92)%N).

(** The watchers chokidar has open, by handle, and the next handle. *)
Record Chokidar := {
  open : gset nat;
  next : nat
}.

(** A [FileWatcher] object: its folder and its [watcher] field. *)
Record FileWatcher := {
  folderPath : string;
  watcher : option nat
}.

(** The main process: its [fileWatcher] field and chokidar. *)
Record Main := {
  fileWatcher : option FileWatcher;
  chokidar : Chokidar
}.

(** [FileWatcher.start()]; [ok] tells whether [chokidar.watch] returns. The
    result is [false] when it throws. *)
Definition start (ok : bool) (fw : FileWatcher) (c : Chokidar)
    : bool * FileWatcher * Chokidar :=
  if ok then
    (true,
     {| folderPath := folderPath fw; watcher := Some (next c) |},
     {| open := {[ next c ]} ∪ open c; next := S (next c) |})
  else (false, fw, c).

(** [FileWatcher.stop()] *)
Definition stop (fw : FileWatcher) (c : Chokidar) : FileWatcher * Chokidar :=
  match watcher fw with
  | Some h =>
      ({| folderPath := folderPath fw; watcher := None |},
       {| open := open c ∖ {[ h ]}; next := next c |})
  | None => (fw, c)
  end.

(** [FileWatcher.isWatching()] *)
Definition isWatching (fw : FileWatcher) : bool :=
  match watcher fw with
  | Some _ => true
  | None => false
  end.

(** The requests the renderer sends about the watcher. For a restart,
    [saved] is what the preferences file gives: [None] when reading it
    throws, [Some None] when there is no file or no drop folder in it. *)
Inductive Ipc :=
| StartFileWatcher (path : string) (ok : bool)
| StopFileWatcher
| RestartFileWatcher (saved : option (option string)) (ok : bool).

(** The handlers of [start-file-watcher], [stop-file-watcher] and
    [restart-file-watcher]: the value returned and the state afterwards. *)
Definition handle (m : Main) (req : Ipc) : bool * Main :=
  match req with
  | StartFileWatcher path ok =>
      let c1 := match fileWatcher m with
                | Some fw => snd (stop fw (chokidar m))
                | None => chokidar m
                end in
      let '(started, fw, c2) := start ok {| folderPath := path; watcher := None |} c1 in
      (started, {| fileWatcher := Some fw; chokidar := c2 |})
  | StopFileWatcher =>
      match fileWatcher m with
      | Some fw => (true, {| fileWatcher := None; chokidar := snd (stop fw (chokidar m)) |})
      | None => (true, m)
      end
  | RestartFileWatcher saved ok =>
      let c1 := match fileWatcher m with
                | Some fw => snd (stop fw (chokidar m))
                | None => chokidar m
                end in
      match saved with
      | None => (false, {| fileWatcher := None; chokidar := c1 |})
      | Some None => (true, {| fileWatcher := None; chokidar := c1 |})
      | Some (Some path) =>
          if String.eqb path "" then (true, {| fileWatcher := None; chokidar := c1 |})
          else
            let '(started, fw, c2) :=
              start ok {| folderPath := path; watcher := None |} c1 in
            (started, {| fileWatcher := Some fw; chokidar := c2 |})
      end
  end.

Definition serve (m : Main) (reqs : list Ipc) : Main :=
  fold_left (fun m req => snd (handle m req)) reqs m.

(** The main process as it starts: no watcher. *)
Definition boot : Main :=
  {| fileWatcher := None; chokidar := {| open := ∅; next := O |} |}.

(** The handle the main process holds, if its watcher is watching. *)
Definition held (m : Main) : option nat :=
  fw ← fileWatcher m; watcher fw.

(** The handle held is the only watcher open, and every open handle was
    given out before. *)
Definition tidy (m : Main) : Prop :=
  open (chokidar m) = match held m with Some h => {[ h ]} | None => ∅ end /\
  forall h, h ∈ open (chokidar m) -> (h < next (chokidar m))%nat.

End Watch.

(** ** Sample data *)

Module Samples.
Import JS.

(** A queue entry as a detection creates it. *)
Definition entry (name path : string) : Queue.FileProcessingState :=
  Queue.new_entry name path 0 "Finance/2024".

Definition done (f : Queue.FileProcessingState) : Queue.FileProcessingState :=
  Queue.mark_processed
    {| Queue.success := true; Queue.file_id := JStr "F0";
       Queue.one_drive_id := JStr "F0"; Queue.web_url := JStr "https://1drv.ms/F0";
       Queue.message := "File uploaded and tagged successfully";
       Queue.associations := JArr [] |} f.

Definition savedPrefs : Queue.UserPreferences :=
  {| Queue.dropFolderPath := "C:\drop";
     Queue.oneDriveRootFolder := Some "Finance/2024";
     Queue.autoProcess := true |}.

Definition invoice : Queue.FileProcessingState := entry "invoice.pdf" "C:\drop\invoice.pdf".
Definition broken : Queue.FileProcessingState := entry "broken.pdf" "C:\drop\broken.pdf".
Definition readme : Queue.FileProcessingState := entry "README" "C:\drop\README".

Definition tagged : Queue.FileProcessingState :=
  Queue.set_selectedTags [7; 9] (entry "contract.pdf" "C:\drop\contract.pdf").

Definition user : Queue.UserInfo :=
  {| Queue.user_id := "u1"; Queue.user_name := "Ada"; Queue.user_email := "ada@example.org";
     Queue.accessToken := "token"; Queue.expiresOn := 0 |}.

(** A bridge whose world counts the calls: uploads succeed except for
    [broken.pdf], associations are accepted, and deleting a file fails. *)
Definition bridge : Queue.Bridge nat :=
  {| Queue.uploadToOneDrive := fun path name folder n =>
       if String.eqb name "broken.pdf"
       then (inl (Queue.ErrorObj "Upload failed with status 401: {}"), S n)
       else (inr (JObj [("id", JStr "F1"); ("webUrl", JStr "https://1drv.ms/F1")]), S n);
     Queue.postAssociations := fun userName pairs n =>
       (inr {| Queue.ok := true; Queue.statusText := "OK";
               Queue.body := inr (JArr []) |}, S n);
     Queue.deleteFile := fun path n => (inr false, S n) |}.

Definition sys (q : list Queue.FileProcessingState) : Queue.Sys nat :=
  {| Queue.live := q; Queue.world := O; Queue.calls := [] |}.

Definition personal : OneDrive.Drive :=
  {| OneDrive.drive_id := "drive1"; OneDrive.drive_name := Some "OneDrive";
     OneDrive.driveType := "personal" |}.


(** A session that has expired: the access token cannot be obtained. *)
Definition signed_out : OneDrive.Remote unit :=
  {| OneDrive.getAccessToken := fun w =>
       (inl (OneDrive.Error "Silent token acquisition failed"), w);
     OneDrive.getOneDriveDrives := fun w => (inr [personal], w);
     OneDrive.readFileSync := fun path w => (inr [], w);
     OneDrive.axios := fun req w =>
       (inr {| OneDrive.status := 201; OneDrive.statusText := "Created";
               OneDrive.data := JObj [] |}, w);
     OneDrive.JSON_stringify := fun j => "{}" |}.

Definition folder_data (n : nat) : json :=
  JObj [("id", JStr ("F" +:+ string_of_Z (Z.of_nat n)));
        ("name", JStr "folder"); ("webUrl", JStr "https://1drv.ms/f");
        ("createdDateTime", JStr "2024-01-01T00:00:00Z");
        ("lastModifiedDateTime", JStr "2024-01-01T00:00:00Z")].

(** A drive whose world counts the folders created: a lookup by path finds
    nothing, creations succeed, and an item is found by its identifier. *)
Definition drive : OneDrive.Remote nat :=
  {| OneDrive.getAccessToken := fun w => (inr "token", w);
     OneDrive.getOneDriveDrives := fun w => (inr [personal], w);
     OneDrive.readFileSync := fun path w => (inr [], w);
     OneDrive.axios := fun req n =>
       match OneDrive.method req with
       | OneDrive.GET =>
           if includes (to_string (OneDrive.url req)) "/root:/" then
             (inl {| OneDrive.response :=
                       Some {| OneDrive.status := 404; OneDrive.statusText := "Not Found";
                               OneDrive.data := JObj [] |};
                     OneDrive.request := true;
                     OneDrive.message := "Request failed with status code 404" |}, n)
           else
             (inr {| OneDrive.status := 200; OneDrive.statusText := "OK";
                     OneDrive.data := folder_data n |}, n)
       | OneDrive.POST =>
           (inr {| OneDrive.status := 201; OneDrive.statusText := "Created";
                   OneDrive.data := folder_data (S n) |}, S n)
       | OneDrive.PUT =>
           (inr {| OneDrive.status := 201; OneDrive.statusText := "Created";
                   OneDrive.data := folder_data n |}, n)
       end;
     OneDrive.JSON_stringify := fun j => "{}" |}.

Definition service {W} (w : W) : OneDrive.Service W :=
  {| OneDrive.currentDriveId := Some "drive1"; OneDrive.net := w;
     OneDrive.requests := [] |}.

(** A runtime that reads one date and takes every payload as a string. *)
Definition runtime : Cache.Runtime :=
  {| Cache.JSON_parse := fun s => Some (JStr s);
     Cache.Date_time := fun s =>
       if String.eqb s "2024-01-01T00:00:00.000Z" then Some 1704067200000 else None |}.

Definition cached : Cache.CacheRow :=
  {| Cache.value := "tags"; Cache.expires_at := "2024-01-01T00:00:00.000Z" |}.

Definition store : Cache.DatabaseManager :=
  {| Cache.db := Some {| Cache.cache := Some {[ "tag-categories" := cached ]} |} |}.

End Samples.

(** ** More sample data *)

Module MoreSamples.
Import JS.

Definition uploaded : json :=
  JObj [("id", JStr "F7"); ("webUrl", JStr "https://1drv.ms/Finance/2024/invoice.pdf")].

Definition forbidden : Queue.FetchResponse :=
  {| Queue.ok := false; Queue.statusText := "Forbidden";
     Queue.body := inr (JObj []) |}.

(** A bridge whose world counts the calls: the first call finds the network
    down, later uploads succeed, the backend refuses associations, and
    deletions succeed. *)
Definition flaky : Queue.Bridge nat :=
  {| Queue.uploadToOneDrive := fun path name folder n =>
       match n with
       | O => (inl (Queue.ErrorObj "Network error during upload: timeout"), S n)
       | S _ => (inr uploaded, S n)
       end;
     Queue.postAssociations := fun userName pairs n => (inr forbidden, S n);
     Queue.deleteFile := fun path n => (inr true, S n) |}.

Definition sys_at (n : nat) (q : list Queue.FileProcessingState) : Queue.Sys nat :=
  {| Queue.live := q; Queue.world := n; Queue.calls := [] |}.

(** A service that has not chosen its drive yet. *)
Definition fresh {W} (w : W) : OneDrive.Service W :=
  {| OneDrive.currentDriveId := None; OneDrive.net := w; OneDrive.requests := [] |}.

Definition refused (code : Z) (text : string) : OneDrive.thrown :=
  {| OneDrive.response :=
       Some {| OneDrive.status := code; OneDrive.statusText := text;
               OneDrive.data := JObj [] |};
     OneDrive.request := true;
     OneDrive.message := "Request failed with status code " +:+ string_of_Z code |}.

(** A drive that runs out of room: a lookup by path finds nothing, the first
    folder is created, and every later creation is refused. *)
Definition quota : OneDrive.Remote nat :=
  {| OneDrive.getAccessToken := fun w => (inr "token", w);
     OneDrive.getOneDriveDrives := fun w => (inr [Samples.personal], w);
     OneDrive.readFileSync := fun path w => (inr [], w);
     OneDrive.axios := fun req n =>
       match OneDrive.method req with
       | OneDrive.GET => (inl (refused 404 "Not Found"), n)
       | OneDrive.POST =>
           match n with
           | O => (inr {| OneDrive.status := 201; OneDrive.statusText := "Created";
                          OneDrive.data := Samples.folder_data 1 |}, S n)
           | S _ => (inl (refused 507 "Insufficient Storage"), n)
           end
       | OneDrive.PUT => (inl (refused 507 "Insufficient Storage"), n)
       end;
     OneDrive.JSON_stringify := fun j => "{}" |}.

(** A drive that refuses every request. *)
Definition locked : OneDrive.Remote unit :=
  {| OneDrive.getAccessToken := fun w => (inr "token", w);
     OneDrive.getOneDriveDrives := fun w => (inr [Samples.personal], w);
     OneDrive.readFileSync := fun path w => (inr [], w);
     OneDrive.axios := fun req w => (inl (refused 403 "Forbidden"), w);
     OneDrive.JSON_stringify := fun j => "{}" |}.

Definition report_pdf : json :=
  JObj [("id", JStr "A1"); ("name", JStr "report.pdf");
        ("webUrl", JStr "https://1drv.ms/report.pdf"); ("size", JNum 2048);
        ("createdDateTime", JStr "2024-01-01T00:00:00Z");
        ("lastModifiedDateTime", JStr "2024-01-02T00:00:00Z")].

Definition archive_folder : json :=
  JObj [("id", JStr "A2"); ("name", JStr "Archive");
        ("webUrl", JStr "https://1drv.ms/Archive");
        ("createdDateTime", JStr "2024-01-01T00:00:00Z");
        ("lastModifiedDateTime", JStr "2024-01-01T00:00:00Z")].

(** A drive whose every folder lists one file and one sub-folder. *)
Definition listing : OneDrive.Remote unit :=
  {| OneDrive.getAccessToken := fun w => (inr "token", w);
     OneDrive.getOneDriveDrives := fun w => (inr [Samples.personal], w);
     OneDrive.readFileSync := fun path w => (inr [], w);
     OneDrive.axios := fun req w =>
       (inr {| OneDrive.status := 200; OneDrive.statusText := "OK";
               OneDrive.data := JObj [("value", JArr [report_pdf; archive_folder])] |}, w);
     OneDrive.JSON_stringify := fun j => "{}" |}.






Definition answer (code : Z) (text : string) (d : json) : OneDrive.Response :=
  {| OneDrive.status := code; OneDrive.statusText := text; OneDrive.data := d |}.



(** The encoder that goes with [Samples.runtime]: strings are written as
    they are, and one instant has a text. *)
Definition encoder : Store.Encoder :=
  {| Store.JSON_stringify := fun j => match j with JStr s => Some s | _ => None end;
     Store.toISOString := fun t =>
       if t =? 1704067200000 then Some "2024-01-01T00:00:00.000Z" else None |}.

(** A store in mock mode, and an open store with an empty cache. *)
Definition mock : Cache.DatabaseManager := {| Cache.db := None |}.

Definition empty_store : Cache.DatabaseManager :=
  {| Cache.db := Some {| Cache.cache := Some ∅ |} |}.

End MoreSamples.

(** * Properties *)

(** ** Facts about the string operations *)

Module JSFacts.
Import JS.
#[local] Arguments String.append !_ _ / : simpl nomatch.

Lemma append_nil_r (s : string) : s +:+ "" = s.
Proof. induction s as [|a s IH]; simpl; [reflexivity | now rewrite IH]. Qed.

Lemma length_append (s t : string) :
  String.length (s +:+ t) = (String.length s + String.length t)%nat.
Proof. induction s as [|a s IH]; simpl; [reflexivity | now rewrite IH]. Qed.

Lemma drop_append (s t : string) : drop (String.length s) (s +:+ t) = t.
Proof. induction s as [|a s IH]; simpl; [now destruct t | exact IH]. Qed.

Lemma take_all (s : string) : take (String.length s) s = s.
Proof. induction s as [|a s IH]; simpl; [reflexivity | now rewrite IH]. Qed.

Lemma prefix_dot (a : ascii) (s : string) :
  String.prefix "." (String a s) = Ascii.eqb a dot.
Proof.
  change (String.prefix "." (String a s))
    with (if ascii_dec "." a then String.prefix "" s else false).
  destruct (ascii_dec "." a) as [<- | Hne].
  - now destruct s.
  - symmetry. apply Ascii.eqb_neq. intros ->. now apply Hne.
Qed.

Lemma index_of_lacks (s : string) (i : Z) :
  lacks dot s -> index_of "." s i = -1.
Proof.
  revert i. induction s as [|a s IH]; intros i Hs; [reflexivity |].
  destruct Hs as [Ha Hs]. cbn [index_of]. rewrite prefix_dot.
  apply Ascii.eqb_neq in Ha. rewrite Ha. now apply IH.
Qed.

Lemma index_of_bounds (sub s : string) (i : Z) :
  index_of sub s i = -1 \/ i <= index_of sub s i.
Proof.
  revert i. induction s as [|a s IH]; intros i; cbn [index_of].
  - destruct (String.prefix sub ""); lia.
  - destruct (String.prefix sub (String a s)); [lia |].
    destruct (IH (i + 1)); lia.
Qed.

Lemma lacks_index_of (s : string) (i : Z) :
  0 <= i -> index_of "." s i = -1 -> lacks dot s.
Proof.
  revert i. induction s as [|a s IH]; intros i Hi Hs; [exact I |].
  cbn [index_of] in Hs. rewrite prefix_dot in Hs.
  destruct (Ascii.eqb a dot) eqn:Ha; [lia |].
  split; [now apply Ascii.eqb_neq | apply (IH (i + 1)); [lia | exact Hs]].
Qed.

(** [name.includes('.')] is false exactly when no character is a dot. *)
Lemma includes_dot (s : string) : includes s "." = false <-> lacks dot s.
Proof.
  unfold includes, indexOf, clamp.
  change (0 <? 0) with false. cbv iota.
  change (Nat.min (Z.to_nat 0) (String.length s)) with O.
  change (drop 0 s) with s. change (Z.of_nat 0) with 0. split.
  - intros Hs. apply Z.leb_gt in Hs.
    destruct (index_of_bounds "." s 0) as [Hm | Hm]; [| lia].
    apply (lacks_index_of s 0); [lia | exact Hm].
  - intros Hs. rewrite (index_of_lacks s 0 Hs). reflexivity.
Qed.

Lemma last_index_of_lacks (s : string) (i acc : Z) :
  lacks dot s -> last_index_of "." s i acc = acc.
Proof.
  revert i acc. induction s as [|a s IH]; intros i acc Hs; [reflexivity |].
  destruct Hs as [Ha Hs]. cbn [last_index_of]. rewrite prefix_dot.
  apply Ascii.eqb_neq in Ha. rewrite Ha. now apply IH.
Qed.

Lemma last_index_of_dot (pre rest : string) (i acc : Z) :
  lacks dot rest ->
  last_index_of "." (pre +:+ String dot rest) i acc = i + Z.of_nat (String.length pre).
Proof.
  revert i acc. induction pre as [|a pre IH]; intros i acc Hrest.
  - cbn [String.append last_index_of]. rewrite prefix_dot, Ascii.eqb_refl.
    rewrite last_index_of_lacks by exact Hrest. simpl. lia.
  - cbn [String.append last_index_of]. rewrite IH by exact Hrest.
    cbn [String.length]. lia.
Qed.

(** [name.substring(name.lastIndexOf('.'))] is the suffix from the last dot. *)
Lemma substring_lastIndexOf_dot (pre rest : string) :
  lacks dot rest ->
  substring (pre +:+ String dot rest)
    (lastIndexOf (pre +:+ String dot rest) ".") None = String dot rest.
Proof.
  intros Hrest. unfold lastIndexOf. rewrite last_index_of_dot by exact Hrest.
  unfold substring, clamp. rewrite length_append.
  destruct (Z.ltb_spec (0 + Z.of_nat (String.length pre)) 0) as [Hneg | _]; [lia |].
  replace (Z.to_nat (0 + Z.of_nat (String.length pre))) with (String.length pre) by lia.
  rewrite Nat.min_l by lia. rewrite Nat.max_r by lia. rewrite Nat.min_l by lia.
  rewrite drop_append.
  replace (String.length pre + String.length (String dot rest) - String.length pre)%nat
    with (String.length (String dot rest)) by lia.
  apply take_all.
Qed.

(** Without a dot, [name.substring(name.lastIndexOf('.'))] is the whole name. *)
Lemma substring_lastIndexOf_none (name : string) :
  lacks dot name -> substring name (lastIndexOf name ".") None = name.
Proof.
  intros Hn. unfold lastIndexOf. rewrite last_index_of_lacks by exact Hn.
  unfold substring, clamp. change (-1 <? 0) with true. cbv iota.
  cbn [Nat.max Nat.min drop]. rewrite Nat.sub_0_r. apply take_all.
Qed.

End JSFacts.

(** ** The queue: uniqueness of paths and renaming *)

Module QueueFacts.
Import JS JSFacts Queue.
#[local] Arguments String.append !_ _ / : simpl nomatch.

Lemma map_fmap {A B} (f : A -> B) (l : list A) : List.map f l = f <$> l.
Proof. reflexivity. Qed.

Lemma with_files_same (a : App) : with_files a (detectedFiles a) = a.
Proof. now destruct a. Qed.

Lemma exists_path_In (path : string) (q : list FileProcessingState) :
  exists_path path q = true <-> path ∈ paths q.
Proof.
  unfold exists_path, paths. rewrite existsb_exists, map_fmap, list_elem_of_fmap.
  split.
  - intros (f & Hf & Heq). apply String.eqb_eq in Heq. exists f.
    split; [now symmetry | now apply list_elem_of_In].
  - intros (f & -> & Hf). exists f.
    split; [now apply list_elem_of_In | apply String.eqb_refl].
Qed.

Lemma lookup_map_at (i j : nat) g (q : list FileProcessingState) :
  map_at i g q !! j = (fun f => if Nat.eqb j i then g f else f) <$> q !! j.
Proof. unfold map_at. now rewrite list_lookup_imap. Qed.

Lemma length_map_at (i : nat) g (q : list FileProcessingState) :
  length (map_at i g q) = length q.
Proof. apply length_imap. Qed.

(** An update at one position that keeps [filePath] keeps the list of paths. *)
Lemma paths_map_at (i : nat) g (q : list FileProcessingState) :
  (forall f, filePath (g f) = filePath f) -> paths (map_at i g q) = paths q.
Proof.
  intros Hg. unfold paths. rewrite !map_fmap. apply list_eq. intros j.
  rewrite !list_lookup_fmap, lookup_map_at.
  destruct (q !! j) as [f|]; [| reflexivity]. simpl.
  destruct (Nat.eqb j i); [now rewrite Hg | reflexivity].
Qed.

Lemma paths_map g (q : list FileProcessingState) :
  (forall f, filePath (g f) = filePath f) -> paths (List.map g q) = paths q.
Proof.
  intros Hg. unfold paths. rewrite List.map_map. apply List.map_ext. exact Hg.
Qed.

Lemma paths_remove_at (i : nat) (q : list FileProcessingState) :
  NoDup (paths q) -> NoDup (paths (remove_at i q)).
Proof.
  intros Hq. unfold paths, remove_at in *. rewrite map_fmap in *.
  rewrite list_fmap_delete. exact (sublist_NoDup _ _ Hq (sublist_delete _ _)).
Qed.

Lemma paths_snoc (q : list FileProcessingState) (f : FileProcessingState) :
  NoDup (paths q) -> exists_path (filePath f) q = false -> NoDup (paths (q ++ [f])).
Proof.
  intros Hq Hf. unfold paths in *. rewrite List.map_app. apply NoDup_app.
  split; [exact Hq | split; [| apply NoDup_singleton]].
  intros x Hx Hin. apply list_elem_of_singleton in Hin. simpl in Hin. subst x.
  apply exists_path_In in Hx. congruence.
Qed.

(** Every event keeps the paths of the queue pairwise different. *)
Lemma step_unique (a : App) (e : Event) :
  NoDup (paths (detectedFiles a)) -> NoDup (paths (detectedFiles (step a e))).
Proof.
  intros Ha. destruct e; simpl.
  - unfold handleFileDetected. destruct (preferencesLoaded a); simpl; [| exact Ha].
    destruct (exists_path path (detectedFiles a)) eqn:Hex; simpl; [exact Ha |].
    now apply paths_snoc.
  - unfold handleNotificationClicked.
    destruct (preferencesLoaded a); [| exact Ha].
    destruct (loadedPreferencesRef a); [| exact Ha]. simpl.
    destruct (exists_path path (detectedFiles a)) eqn:Hex; simpl; [exact Ha |].
    now apply paths_snoc.
  - unfold loadPreferences. destruct savedPrefs; [| exact Ha]. simpl.
    now rewrite paths_map.
  - unfold setPreferences. simpl.
    match goal with |- context [if ?b then _ else _] => destruct b end;
      [now rewrite paths_map | exact Ha].
  - unfold handleFileFolderChange. simpl. now rewrite paths_map_at.
  - unfold handleFileTagToggle. simpl. now rewrite paths_map_at.
  - unfold handleFileNameChange. simpl. now rewrite paths_map_at.
  - unfold handleApplyFolderToAll. destruct confirmed; [| exact Ha]. simpl.
    now rewrite paths_map.
  - unfold handleRemoveFile. destruct confirmed; [| exact Ha]. simpl.
    now apply paths_remove_at.
  - unfold handleClearAllFiles.
    destruct (forallb isProcessed (detectedFiles a)); [apply NoDup_nil_2 |].
    destruct confirmed; [apply NoDup_nil_2 | exact Ha].
Qed.

Lemma run_unique (events : list Event) (a : App) :
  NoDup (paths (detectedFiles a)) -> NoDup (paths (detectedFiles (run a events))).
Proof.
  revert a. induction events as [|e events IH]; intros a Ha; [exact Ha |].
  apply IH. now apply step_unique.
Qed.

(** A detection for a path that is in the queue changes nothing. *)
Lemma detection_ignored (a : App) (path : string) :
  path ∈ paths (detectedFiles a) ->
  (forall prefs now, handleFileDetected path prefs now a = a) /\
  (forall name now, handleNotificationClicked name path now a = a).
Proof.
  intros Hin. apply exists_path_In in Hin. split.
  - intros prefs now. unfold handleFileDetected.
    destruct (preferencesLoaded a); simpl; [| reflexivity].
    rewrite Hin. simpl. apply with_files_same.
  - intros name now. unfold handleNotificationClicked.
    destruct (preferencesLoaded a); [| reflexivity].
    destruct (loadedPreferencesRef a); [| reflexivity].
    rewrite Hin. simpl. apply with_files_same.
Qed.

(** C1. Uniqueness of queued paths: from a queue whose paths are pairwise
    different (the empty queue the application starts with is one), every
    sequence of detections, notification clicks, preference updates and user
    edits leaves a queue in which no two entries have the same [filePath];
    and a detection for a path that has an entry is ignored, the state
    staying as it was. *)
Theorem detected_paths_unique (a : App) (events : list Event) :
  NoDup (paths (detectedFiles a)) ->
  NoDup (paths (detectedFiles (run a events))) /\
  (forall path, path ∈ paths (detectedFiles (run a events)) ->
     (forall prefs now,
        step (run a events) (FileReady path prefs now) = run a events) /\
     (forall name now,
        step (run a events) (NotificationClicked name path now) = run a events)).
Proof.
  intros Ha. split; [now apply run_unique |].
  intros path Hin. now apply detection_ignored.
Qed.

Lemma lookup_rename (a : App) (index : nat) (newName : string)
    (file : FileProcessingState) :
  detectedFiles a !! index = Some file ->
  detectedFiles (handleFileNameChange index newName a) !! index
  = Some (set_displayName (finalName file newName) file).
Proof.
  intros Hf. unfold handleFileNameChange. simpl.
  rewrite lookup_map_at, Hf. simpl. now rewrite Nat.eqb_refl.
Qed.

(** C5. Extension preservation: renaming an entry to a name without ['.']
    gives a display name that is the new name followed by the extension of
    the original file name (its suffix from the last ['.']), so it ends with
    that extension; [fileName] itself is not touched. *)
Theorem rename_keeps_extension (a : App) (index : nat) (newName ext : string)
    (file : FileProcessingState) :
  detectedFiles a !! index = Some file ->
  lacks dot newName ->
  is_extension ext (fileName file) ->
  exists file',
    detectedFiles (step a (RenameDisplayName index newName)) !! index = Some file' /\
    endsWith (displayName file') ext /\
    displayName file' = newName +:+ ext /\
    fileName file' = fileName file.
Proof.
  intros Hf Hnew (pre & rest & Hname & Hrest & ->).
  exists (set_displayName (finalName file newName) file).
  split; [now apply lookup_rename |].
  assert (Hfinal : finalName file newName = newName +:+ String dot rest).
  { unfold finalName. rewrite Hname, substring_lastIndexOf_dot by exact Hrest.
    apply includes_dot in Hnew. rewrite Hnew. reflexivity. }
  simpl. rewrite Hfinal. split; [now exists newName | split; reflexivity].
Qed.

(** C10. When neither the original file name nor the new name contains a
    ['.'], [lastIndexOf('.')] is [-1], the computed extension is the whole
    original name, and the display name becomes the new name followed by the
    entire original file name. *)
Theorem rename_without_dot_appends_name (a : App) (index : nat) (newName : string)
    (file : FileProcessingState) :
  detectedFiles a !! index = Some file ->
  lacks dot (fileName file) ->
  lacks dot newName ->
  lastIndexOf (fileName file) "." = -1 /\
  substring (fileName file) (lastIndexOf (fileName file) ".") None = fileName file /\
  exists file',
    detectedFiles (step a (RenameDisplayName index newName)) !! index = Some file' /\
    displayName file' = newName +:+ fileName file.
Proof.
  intros Hf Hold Hnew. split; [| split].
  - unfold lastIndexOf. now apply last_index_of_lacks.
  - now apply substring_lastIndexOf_none.
  - exists (set_displayName (finalName file newName) file).
    split; [now apply lookup_rename |]. simpl. unfold finalName.
    rewrite substring_lastIndexOf_none by exact Hold.
    apply includes_dot in Hnew. rewrite Hnew. simpl.
    destruct (fileName file) as [|c s]; [now rewrite append_nil_r | reflexivity].
Qed.

Lemma detected_paths_unique_witness :
  let events := [PreferencesRead (Some Samples.savedPrefs);
                 FileReady "C:\drop\invoice.pdf" None 1;
                 FileReady "C:\drop\invoice.pdf" None 2] in
  NoDup (paths (detectedFiles initial)) /\
  NoDup (paths (detectedFiles (run initial events))) /\
  paths (detectedFiles (run initial events)) = ["C:\drop\invoice.pdf"].
Proof.
  intros events.
  assert (Hinit : NoDup (paths (detectedFiles initial))) by apply NoDup_nil_2.
  split; [exact Hinit |].
  split; [exact (proj1 (detected_paths_unique initial events Hinit)) | reflexivity].
Defined.

Lemma rename_keeps_extension_witness :
  let a := with_files initial [Samples.invoice] in
  detectedFiles a !! 0%nat = Some Samples.invoice /\
  lacks dot "report" /\
  is_extension ".pdf" (fileName Samples.invoice) /\
  exists file',
    detectedFiles (step a (RenameDisplayName 0 "report")) !! 0%nat = Some file' /\
    endsWith (displayName file') ".pdf" /\
    displayName file' = "report" +:+ ".pdf" /\
    fileName file' = fileName Samples.invoice.
Proof.
  intros a.
  assert (Hfile : detectedFiles a !! 0%nat = Some Samples.invoice) by reflexivity.
  assert (Hname : lacks dot "report") by (cbv; intuition discriminate).
  assert (Hext : is_extension ".pdf" (fileName Samples.invoice)).
  { exists "invoice", "pdf". split; [reflexivity |].
    split; [cbv; intuition discriminate | reflexivity]. }
  split; [exact Hfile |]. split; [exact Hname |]. split; [exact Hext |].
  exact (rename_keeps_extension a 0 "report" ".pdf" Samples.invoice Hfile Hname Hext).
Defined.

Lemma rename_without_dot_appends_name_witness :
  let a := with_files initial [Samples.readme] in
  detectedFiles a !! 0%nat = Some Samples.readme /\
  lacks dot (fileName Samples.readme) /\
  lacks dot "notes" /\
  exists file',
    detectedFiles (step a (RenameDisplayName 0 "notes")) !! 0%nat = Some file' /\
    displayName file' = "notes" +:+ fileName Samples.readme.
Proof.
  intros a.
  assert (Hfile : detectedFiles a !! 0%nat = Some Samples.readme) by reflexivity.
  assert (Hold : lacks dot (fileName Samples.readme)) by (cbv; intuition discriminate).
  assert (Hnew : lacks dot "notes") by (cbv; intuition discriminate).
  split; [exact Hfile |]. split; [exact Hold |]. split; [exact Hnew |].
  exact (proj2 (proj2 (rename_without_dot_appends_name a 0 "notes" Samples.readme
                         Hfile Hold Hnew))).
Defined.

End QueueFacts.

(** ** Processing one entry and the whole batch *)

Module ProcessFacts.
Import JS JSFacts Queue QueueFacts Eff.

Section Facts.
Context {W : Type} `{Bridge W}.

Lemma map_at_id (i : nat) (q : list FileProcessingState) : map_at i (fun f => f) q = q.
Proof.
  apply list_eq. intros j. rewrite lookup_map_at.
  destruct (q !! j); simpl; [now destruct (Nat.eqb j i) | reflexivity].
Qed.

Lemma map_at_twice (i : nat) g h (q : list FileProcessingState) :
  map_at i h (map_at i g q) = map_at i (fun f => h (g f)) q.
Proof.
  apply list_eq. intros j. rewrite !lookup_map_at.
  destruct (q !! j); simpl; [now destruct (Nat.eqb j i) | reflexivity].
Qed.

Ltac crunch := cbn -[map_at String.append to_string pairs_of lookup].

Ltac unfold_async :=
  unfold handleProcessSingleFile, associate, delete_source, read_result, require,
    setDetectedFiles, emit, call, bind, try_catch, modify, ret, throw in *.

Ltac answer :=
  match goal with
  | |- context [uploadToOneDrive ?a ?b ?c ?w] =>
      destruct (uploadToOneDrive a b c w) as [[? | ?r] ?] eqn:?Hupload
  | |- context [postAssociations ?a ?b ?w] =>
      destruct (postAssociations a b w) as [[? | ?resp] ?] eqn:?Hpost
  | |- context [deleteFile ?a ?w] =>
      destruct (deleteFile a w) as [[? | ?d] ?] eqn:?Hdelete
  | |- context [prop ?r ?k] => destruct (prop r k) as [? |] eqn:?Hprop
  | |- context [ok ?r] => destruct (ok r) eqn:?Hok
  | |- context [body ?r] => destruct (body r) as [? | ?] eqn:?Hbody
  end; crunch.

Lemma settled_processed r g : settled (mark_processed r (mark_processing g)).
Proof. split; [reflexivity | now left]. Qed.

Lemma settled_failed msg g : settled (mark_failed msg (mark_processing g)).
Proof. split; [reflexivity | right; now exists msg]. Qed.

(** What one run of [handleProcessSingleFile] does, whatever the world
    answers: it returns normally, rewrites at most the entry at [index],
    and only adds calls. *)
Lemma process_single_spec (snap : list FileProcessingState)
    (user : option UserInfo) (api : bool) (i : nat) (st : Sys W) :
  exists h added w,
    handleProcessSingleFile snap user api i st
    = (inr tt, {| live := map_at i h (live st); world := w;
                  calls := calls st ++ added |}) /\
    (forall f, filePath (h f) = filePath f) /\
    (forall file, snap !! i = Some file -> ready file = true -> api = true ->
       (forall g, settled (h g)) /\
       (is_Some user ->
        Upload (filePath file) (displayName file) (oneDriveFolder_of file) ∈ added)) /\
    (forall file, snap !! i = Some file -> selectedTags file = [] ->
       forallb (fun c => negb (is_associate c)) added = true).
Proof.
  unfold handleProcessSingleFile.
  destruct (snap !! i) as [file|] eqn:Hfile.
  2:{ exists (fun f => f), [], (world st). rewrite map_at_id, app_nil_r.
      split; [now destruct st |]. repeat split; congruence. }
  unfold ready.
  destruct (isProcessing file || isProcessed file)%bool eqn:Hbusy.
  { exists (fun f => f), [], (world st). rewrite map_at_id, app_nil_r.
    split; [now destruct st |]. split; [reflexivity |]. split; [| reflexivity].
    intros file' [= <-] Hready.
    destruct (isProcessing file), (isProcessed file); discriminate. }
  unfold_async. crunch.
  destruct user as [user|]; crunch.
  2:{ rewrite map_at_twice. eexists _, [], _. rewrite app_nil_r.
      split; [reflexivity |]. split; [reflexivity |]. split; [| reflexivity].
      intros file' [= <-] _ _. split; [intros g; apply settled_failed |].
      intros [u Hu]; discriminate. }
  destruct api; crunch.
  2:{ eexists _, [], _. rewrite app_nil_r.
      split; [reflexivity |]. split; [reflexivity |]. split; [| reflexivity].
      intros file' _ _ [=]. }
  destruct (selectedTags file) as [|tag tags] eqn:Htags;
    crunch;
    repeat answer; rewrite ?map_at_twice, <- ?app_assoc;
    (eexists _, _, _; split; [reflexivity |]; split; [reflexivity |]; split;
     [ intros file' [= <-] _ _; split;
       [ intros g; first [apply settled_failed | apply settled_processed]
       | intros _; cbn [app]; apply list_elem_of_here ]
     | intros file' [= <-] Hnone; first [congruence | reflexivity] ]).
Qed.

(** C9. Processing an entry that is being processed or is completed does
    nothing: the handler returns at once, so no upload, association or
    deletion call is made and the queue, every entry of it, stays as it was. *)
Theorem process_busy_or_done_is_noop (snap : list FileProcessingState)
    (user : option UserInfo) (api : bool) (index : nat)
    (file : FileProcessingState) (st : Sys W) :
  snap !! index = Some file ->
  isProcessing file = true \/ isProcessed file = true ->
  handleProcessSingleFile snap user api index st = (inr tt, st) /\
  calls (snd (handleProcessSingleFile snap user api index st)) = calls st /\
  live (snd (handleProcessSingleFile snap user api index st)) = live st.
Proof.
  intros Hfile Hbusy.
  assert (Hrun : handleProcessSingleFile snap user api index st = (inr tt, st)).
  { unfold handleProcessSingleFile. rewrite Hfile.
    destruct Hbusy as [-> | ->]; [reflexivity |].
    now rewrite orb_true_r. }
  rewrite Hrun. repeat split.
Qed.

Lemma prop_defined (r : json) (k : string) :
  r <> JUndef -> r <> JNull -> exists v, prop r k = Some v.
Proof. intros Hu Hn. destruct r; simpl; eauto; congruence. Qed.

Lemma ready_not_busy (file : FileProcessingState) :
  ready file = true -> (isProcessing file || isProcessed file)%bool = false.
Proof. unfold ready. destruct (isProcessing file), (isProcessed file); easy. Qed.

(** C2. Tags are optional: with no tag selected, processing an entry never
    makes the tag-association call, whatever the collaborators answer; and
    when the user is signed in and the upload succeeds, the entry is marked
    processed (completed) after exactly an upload call and the deletion of the
    source file. *)
Theorem process_without_tags (snap : list FileProcessingState)
    (user : option UserInfo) (api : bool) (index : nat)
    (file : FileProcessingState) (st : Sys W) :
  snap !! index = Some file ->
  selectedTags file = [] ->
  (exists added,
     calls (snd (handleProcessSingleFile snap user api index st)) = calls st ++ added /\
     forallb (fun c => negb (is_associate c)) added = true) /\
  (forall u r w1,
     live st = snap -> ready file = true -> user = Some u -> api = true ->
     uploadToOneDrive (filePath file) (displayName file) (oneDriveFolder_of file)
       (world st) = (inr r, w1) ->
     r <> JUndef -> r <> JNull ->
     exists file',
       live (snd (handleProcessSingleFile snap user api index st)) !! index = Some file' /\
       isProcessed file' = true /\ isProcessing file' = false /\
       error file' = None /\
       calls (snd (handleProcessSingleFile snap user api index st))
       = calls st ++ [Upload (filePath file) (displayName file) (oneDriveFolder_of file);
                      Delete (filePath file)]).
Proof.
  intros Hfile Htags. split.
  - destruct (process_single_spec snap user api index st)
      as (h & added & w & Hrun & _ & _ & Hnone).
    exists added. rewrite Hrun. split; [reflexivity | now apply (Hnone file)].
  - intros u r w1 Hlive Hready -> -> Hupload Hu Hn.
    destruct (prop_defined r "id" Hu Hn) as [id Hid].
    destruct (prop_defined r "webUrl" Hu Hn) as [webUrl Hweb].
    unfold handleProcessSingleFile. rewrite Hfile, (ready_not_busy _ Hready).
    unfold_async. crunch.
    rewrite Hupload, Htags. crunch.
    rewrite Hid, Hweb. crunch.
    destruct (deleteFile (filePath file) w1) as [[e | d] w2];
      crunch;
      rewrite map_at_twice, lookup_map_at, Hlive, Hfile; simpl;
      rewrite Nat.eqb_refl, <- app_assoc;
      (eexists; split; [reflexivity |]; repeat split).
Qed.

(** C3. A failed deletion does not retract the success: when upload and
    association went through and deleting the source file fails (the bridge
    answers [false], or the call throws), the entry ends processed, no longer
    processing, and with no error recorded. *)
Theorem deletion_failure_keeps_completed (snap : list FileProcessingState)
    (u : UserInfo) (index : nat) (file : FileProcessingState) (st : Sys W)
    (r : json) (w1 w2 w3 : W) (d : caught + bool) :
  live st = snap ->
  snap !! index = Some file ->
  ready file = true ->
  uploadToOneDrive (filePath file) (displayName file) (oneDriveFolder_of file)
    (world st) = (inr r, w1) ->
  r <> JUndef -> r <> JNull ->
  association_succeeds u file r w1 w2 ->
  deleteFile (filePath file) w2 = (d, w3) ->
  d <> inr true ->
  exists st' file',
    handleProcessSingleFile snap (Some u) true index st = (inr tt, st') /\
    live st' !! index = Some file' /\
    isProcessed file' = true /\ isProcessing file' = false /\
    error file' = None /\ is_Some (result file') /\
    Delete (filePath file) ∈ calls st' /\ world st' = w3.
Proof.
  intros Hlive Hfile Hready Hupload Hu Hn Hassoc Hdelete _.
  destruct (prop_defined r "id" Hu Hn) as [id Hid].
  destruct (prop_defined r "webUrl" Hu Hn) as [webUrl Hweb].
  unfold handleProcessSingleFile. rewrite Hfile, (ready_not_busy _ Hready).
  unfold_async. crunch.
  rewrite Hupload. crunch.
  destruct Hassoc as [[Htags ->] | (Htags & id' & resp & j & Hid' & Hpost & Hok & Hbody)].
  - rewrite Htags. crunch.
    rewrite Hid, Hweb. crunch.
    rewrite Hdelete.
    destruct d as [e | b]; crunch;
      (eexists _, _; split; [reflexivity |]); crunch;
      rewrite map_at_twice, lookup_map_at, Hlive, Hfile; simpl;
      rewrite Nat.eqb_refl;
      (split; [reflexivity |]; repeat split; [now eexists | set_solver]).
  - destruct (selectedTags file) as [|tag tags] eqn:Hsel; [congruence |].
    crunch.
    rewrite Hid in Hid'. injection Hid' as <-.
    rewrite Hid. crunch.
    rewrite Hpost. crunch.
    rewrite Hok, Hbody. crunch.
    rewrite Hweb. crunch.
    rewrite Hdelete.
    destruct d as [e | b]; crunch;
      (eexists _, _; split; [reflexivity |]); crunch;
      rewrite map_at_twice, lookup_map_at, Hlive, Hfile; simpl;
      rewrite Nat.eqb_refl;
      (split; [reflexivity |]; repeat split; [now eexists | set_solver]).
Qed.

(** With pairwise different paths, [findIndex] by path finds the entry
    itself. *)
Lemma findIndex_unique (q : list FileProcessingState) (i : nat)
    (f : FileProcessingState) :
  NoDup (paths q) -> q !! i = Some f ->
  findIndex (fun g => String.eqb (filePath g) (filePath f)) q = Some i.
Proof.
  revert i. induction q as [|g q IH]; intros i Hq Hf; [discriminate |].
  apply NoDup_cons in Hq as [Hg Hq]. destruct i as [|i]; simpl in *.
  - injection Hf as ->. now rewrite String.eqb_refl.
  - destruct (String.eqb_spec (filePath g) (filePath f)) as [Heq | _].
    + exfalso. apply Hg. rewrite Heq. change (filePath f ∈ filePath <$> q).
      apply list_elem_of_fmap_2. eapply list_elem_of_lookup_2. exact Hf.
    + now rewrite (IH i Hq Hf).
Qed.

(** The entries the batch selects sit at the positions [ready_from] lists. *)
Lemma ready_from_lookup (pre q : list FileProcessingState) :
  Forall2 (fun f i => (pre ++ q) !! i = Some f)
    (List.filter ready q) (ready_from (length pre) q).
Proof.
  revert pre. induction q as [|f q IH]; intros pre; [constructor |].
  specialize (IH (pre ++ [f])).
  rewrite <- app_assoc, length_app, Nat.add_1_r in IH. simpl in IH.
  simpl. destruct (ready f); [constructor |]; try exact IH.
  apply list_lookup_middle. reflexivity.
Qed.

Lemma ready_from_filter (pre q : list FileProcessingState) :
  ready_from (length pre) q
  = List.filter (fun i => match (pre ++ q) !! i with
                          | Some f => ready f
                          | None => false
                          end) (seq (length pre) (length q)).
Proof.
  revert pre. induction q as [|f q IH]; intros pre; [reflexivity |].
  specialize (IH (pre ++ [f])).
  rewrite <- app_assoc, length_app, Nat.add_1_r in IH. simpl in IH.
  simpl. rewrite (list_lookup_middle pre q f (length pre) eq_refl).
  destruct (ready f); now rewrite IH.
Qed.

Lemma ready_from_positions (q : list FileProcessingState) :
  ready_from 0 q = ready_positions q.
Proof. exact (ready_from_filter [] q). Qed.

Lemma elem_of_ready_positions (q : list FileProcessingState) (i : nat) :
  i ∈ ready_positions q <-> exists f, q !! i = Some f /\ ready f = true.
Proof.
  unfold ready_positions. rewrite list_elem_of_In, filter_In, in_seq. split.
  - intros [_ Hi]. destruct (q !! i) as [f|]; [now exists f | discriminate].
  - intros (f & Hf & Hr). rewrite Hf. split; [| exact Hr].
    apply lookup_lt_Some in Hf. lia.
Qed.

Lemma NoDup_ready_positions (q : list FileProcessingState) :
  NoDup (ready_positions q).
Proof.
  unfold ready_positions. apply NoDup_ListNoDup, List.NoDup_filter, List.seq_NoDup.
Qed.

(** The loop over the selected entries is the loop over their positions. *)
Lemma process_from_in_order (snap : list FileProcessingState)
    (user : option UserInfo) (api : bool)
    (files : list FileProcessingState) (indices : list nat) :
  NoDup (paths snap) ->
  Forall2 (fun f i => snap !! i = Some f) files indices ->
  forall st, process_from snap user api files st
             = process_in_order snap user api indices st.
Proof.
  intros Hsnap Hall. induction Hall as [|f i files indices Hf Hrest IH]; intros st.
  - reflexivity.
  - cbn [process_from process_in_order]. rewrite (findIndex_unique snap i f Hsnap Hf).
    unfold bind.
    destruct (handleProcessSingleFile snap user api i st) as [[e | []] st1];
      [reflexivity |].
    destruct Hrest; [reflexivity |].
    destruct (emit (Delay 1000) st1) as [[e | []] st2]; [reflexivity |].
    apply IH.
Qed.

Lemma lookup_map_at_ne (i j : nat) g (q : list FileProcessingState) :
  j <> i -> map_at i g q !! j = q !! j.
Proof.
  intros Hne. rewrite lookup_map_at. apply Nat.eqb_neq in Hne. rewrite Hne.
  now destruct (q !! j).
Qed.

(** The sequential batch: it returns normally; at the end every selected
    entry is settled, and the other entries are as they were. *)
Lemma process_in_order_spec (snap : list FileProcessingState)
    (user : option UserInfo) (api : bool) (indices : list nat) :
  NoDup indices ->
  (forall i, i ∈ indices -> exists f, snap !! i = Some f /\ ready f = true) ->
  forall st, length (live st) = length snap ->
  exists st',
    process_in_order snap user api indices st = (inr tt, st') /\
    length (live st') = length snap /\
    (forall j, j ∉ indices -> live st' !! j = live st !! j) /\
    (exists added, calls st' = calls st ++ added) /\
    (api = true ->
     forall i f, i ∈ indices -> snap !! i = Some f ->
       (exists f', live st' !! i = Some f' /\ settled f') /\
       (is_Some user ->
        Upload (filePath f) (displayName f) (oneDriveFolder_of f) ∈ calls st')).
Proof.
  induction indices as [|i rest IH]; intros Hnd Hsel st Hlen.
  - exists st. split; [reflexivity |]. split; [exact Hlen |].
    split; [reflexivity |]. split; [exists []; now rewrite app_nil_r |].
    intros _ i f Hi. now apply elem_of_nil in Hi.
  - apply NoDup_cons in Hnd as [Hi Hnd].
    destruct (process_single_spec snap user api i st)
      as (h & added & w & Hrun & Hpath & Hready & _).
    set (st1 := {| live := map_at i h (live st); world := w;
                   calls := calls st ++ added |}) in *.
    set (pause := match rest with [] => [] | _ :: _ => [Delay 1000] end).
    set (st2 := {| live := live st1; world := world st1;
                   calls := calls st1 ++ pause |}).
    destruct (IH Hnd (fun j Hj => Hsel j (list_elem_of_further _ _ _ Hj)) st2)
      as (st' & Hrest & Hlen' & Hframe & [added' Hcalls] & Hpost).
    { simpl. now rewrite length_map_at. }
    exists st'. split.
    { cbn [process_in_order]. unfold bind. rewrite Hrun.
      replace st2 with (snd (match rest with
                             | [] => ret tt
                             | _ :: _ => emit (Delay 1000)
                             end st1 : (caught + unit) * Sys W)) in Hrest.
      - destruct rest; exact Hrest.
      - subst st2 pause. destruct rest; simpl; [| reflexivity].
        rewrite app_nil_r. reflexivity. }
    split; [exact Hlen' |]. split.
    { intros j Hj. apply not_elem_of_cons in Hj as [Hne Hj].
      rewrite (Hframe j Hj). simpl. now apply lookup_map_at_ne. }
    split.
    { exists (added ++ pause ++ added'). rewrite Hcalls. simpl.
      now rewrite <- !app_assoc. }
    intros Hapi j f Hj Hf. apply elem_of_cons in Hj as [-> | Hj].
    + destruct (Hready f Hf) as [Hsettled Hup]; [| exact Hapi |].
      { destruct (Hsel i (list_elem_of_here _ _)) as (f0 & Hf0 & Hr). congruence. }
      split.
      * rewrite (Hframe i Hi). simpl. rewrite lookup_map_at, Nat.eqb_refl.
        destruct (lookup_lt_is_Some_2 (live st) i) as [g Hg].
        { rewrite Hlen. eapply lookup_lt_Some. exact Hf. }
        rewrite Hg. simpl. eexists. split; [reflexivity | apply Hsettled].
      * intros Huser. rewrite Hcalls. simpl.
        apply elem_of_app. left. apply elem_of_app. left.
        apply elem_of_app. right. now apply Hup.
    + now apply Hpost.
Qed.

(** C8. The batch: [handleProcessAllFiles] selects exactly the entries that
    are neither completed nor being processed; on a queue with pairwise
    different paths it runs [handleProcessSingleFile] on them one after the
    other in queue order with a one-second delay between two files; it never
    stops on a failure: whatever happens to an entry, every selected entry is
    attempted and ends settled (completed, or failed with its error). *)
Theorem process_all_in_order (snap : list FileProcessingState)
    (user : option UserInfo) (api : bool) (st : Sys W) :
  NoDup (paths snap) ->
  live st = snap ->
  (forall i, i ∈ ready_positions snap <->
             exists f, snap !! i = Some f /\
                       isProcessed f = false /\ isProcessing f = false) /\
  (ready_positions snap <> [] ->
   handleProcessAllFiles snap user api st
   = process_in_order snap user api (ready_positions snap) st) /\
  exists st',
    handleProcessAllFiles snap user api st = (inr tt, st') /\
    (api = true ->
     forall i f, snap !! i = Some f -> ready f = true ->
       (exists f', live st' !! i = Some f' /\ settled f') /\
       (is_Some user ->
        Upload (filePath f) (displayName f) (oneDriveFolder_of f) ∈ calls st')).
Proof.
  intros Hsnap Hlive.
  pose proof (ready_from_lookup [] snap) as Hall. simpl in Hall.
  rewrite ready_from_positions in Hall.
  assert (Hrun : forall s, List.filter ready snap <> [] ->
            handleProcessAllFiles snap user api s
            = process_in_order snap user api (ready_positions snap) s).
  { intros s Hne. unfold handleProcessAllFiles.
    destruct (List.filter ready snap) as [|f fs] eqn:Hfs; [congruence |].
    cbn [List.length Nat.eqb]. now apply process_from_in_order. }
  split; [| split].
  - intros i. rewrite elem_of_ready_positions. unfold ready. split.
    + intros (f & Hf & Hr). exists f. split; [exact Hf |].
      destruct (isProcessed f), (isProcessing f); easy.
    + intros (f & Hf & Hp & Hq). exists f. now rewrite Hp, Hq.
  - intros Hne. apply Hrun. intros Hnil. rewrite Hnil in Hall.
    apply Forall2_nil_inv_l in Hall. congruence.
  - destruct (List.filter ready snap) as [|f0 fs] eqn:Hfs.
    + apply Forall2_nil_inv_l in Hall.
      exists {| live := live st; world := world st;
                calls := calls st ++ [Alert "No files ready to process."] |}.
      split; [unfold handleProcessAllFiles; now rewrite Hfs |].
      intros _ i f Hf Hr.
      assert (Hi : i ∈ ready_positions snap)
        by (apply elem_of_ready_positions; eauto).
      rewrite Hall in Hi. now apply elem_of_nil in Hi.
    + destruct (process_in_order_spec snap user api (ready_positions snap)
                  (NoDup_ready_positions snap)
                  (fun i Hi => proj1 (elem_of_ready_positions snap i) Hi) st)
        as (st' & Hin & _ & _ & _ & Hpost); [now rewrite Hlive |].
      exists st'. split; [rewrite Hrun by congruence; exact Hin |].
      intros Hapi i f Hf Hr. apply (Hpost Hapi i f); [| exact Hf].
      apply elem_of_ready_positions. eauto.
Qed.

End Facts.

Lemma process_busy_or_done_is_noop_witness :
  let snap := [Samples.done Samples.invoice] in
  let st := Samples.sys snap in
  snap !! 0%nat = Some (Samples.done Samples.invoice) /\
  (isProcessing (Samples.done Samples.invoice) = true \/
   isProcessed (Samples.done Samples.invoice) = true) /\
  handleProcessSingleFile (H := Samples.bridge) snap (Some Samples.user) true 0 st
  = (inr tt, st).
Proof.
  intros snap st.
  assert (Hfile : snap !! 0%nat = Some (Samples.done Samples.invoice)) by reflexivity.
  assert (Hdone : isProcessing (Samples.done Samples.invoice) = true \/
                  isProcessed (Samples.done Samples.invoice) = true)
    by (right; reflexivity).
  split; [exact Hfile |]. split; [exact Hdone |].
  exact (proj1 (process_busy_or_done_is_noop (H := Samples.bridge) snap
                  (Some Samples.user) true 0 _ st Hfile Hdone)).
Defined.

Lemma process_without_tags_witness :
  let snap := [Samples.invoice; Samples.readme] in
  let st := Samples.sys snap in
  let run := handleProcessSingleFile (H := Samples.bridge) snap (Some Samples.user)
               true 0 st in
  snap !! 0%nat = Some Samples.invoice /\
  selectedTags Samples.invoice = [] /\
  (exists added,
     calls (snd run) = calls st ++ added /\
     forallb (fun c => negb (is_associate c)) added = true) /\
  exists file',
    live (snd run) !! 0%nat = Some file' /\
    isProcessed file' = true /\ isProcessing file' = false /\ error file' = None /\
    calls (snd run)
    = calls st ++ [Upload "C:\drop\invoice.pdf" "invoice.pdf" (Some "Finance/2024");
                   Delete "C:\drop\invoice.pdf"].
Proof.
  intros snap st run.
  assert (Hfile : snap !! 0%nat = Some Samples.invoice) by reflexivity.
  assert (Htags : selectedTags Samples.invoice = []) by reflexivity.
  split; [exact Hfile |]. split; [exact Htags |].
  destruct (process_without_tags (H := Samples.bridge) snap (Some Samples.user)
              true 0 Samples.invoice st Hfile Htags) as [Hnone Hdone].
  split; [exact Hnone |].
  apply (Hdone Samples.user
           (JObj [("id", JStr "F1"); ("webUrl", JStr "https://1drv.ms/F1")]) 1%nat);
    try reflexivity; discriminate.
Defined.

Lemma deletion_failure_keeps_completed_witness :
  let snap := [Samples.tagged] in
  let st := Samples.sys snap in
  deleteFile (Bridge := Samples.bridge) (filePath Samples.tagged) 2%nat
  = (inr false, 3%nat) /\
  exists st' file',
    handleProcessSingleFile (H := Samples.bridge) snap (Some Samples.user) true 0 st
    = (inr tt, st') /\
    live st' !! 0%nat = Some file' /\
    isProcessed file' = true /\ isProcessing file' = false /\
    error file' = None /\ is_Some (result file') /\
    Delete (filePath Samples.tagged) ∈ calls st' /\ world st' = 3%nat.
Proof.
  intros snap st. split; [reflexivity |].
  apply (deletion_failure_keeps_completed (H := Samples.bridge) snap Samples.user 0
           Samples.tagged st
           (JObj [("id", JStr "F1"); ("webUrl", JStr "https://1drv.ms/F1")])
           1%nat 2%nat 3%nat (inr false));
    try reflexivity; try discriminate.
  right. split; [discriminate |].
  exists (JStr "F1"),
    {| ok := true; statusText := "OK"; body := inr (JArr []) |}, (JArr []).
  repeat split.
Defined.

Lemma process_all_in_order_witness :
  let snap := [Samples.broken; Samples.done Samples.readme; Samples.invoice] in
  let st := Samples.sys snap in
  NoDup (paths snap) /\
  live st = snap /\
  ready_positions snap = [0%nat; 2%nat] /\
  exists st',
    handleProcessAllFiles (H := Samples.bridge) snap (Some Samples.user) true st
    = (inr tt, st') /\
    calls st' = [Upload "C:\drop\broken.pdf" "broken.pdf" (Some "Finance/2024");
                 Delay 1000;
                 Upload "C:\drop\invoice.pdf" "invoice.pdf" (Some "Finance/2024");
                 Delete "C:\drop\invoice.pdf"] /\
    forall i f, snap !! i = Some f -> ready f = true ->
      (exists f', live st' !! i = Some f' /\ settled f') /\
      (is_Some (Some Samples.user) ->
       Upload (filePath f) (displayName f) (oneDriveFolder_of f) ∈ calls st').
Proof.
  intros snap st.
  assert (Hsnap : NoDup (paths snap)).
  { apply NoDup_ListNoDup. repeat constructor; simpl; intuition discriminate. }
  assert (Hlive : live st = snap) by reflexivity.
  split; [exact Hsnap |]. split; [exact Hlive |]. split; [reflexivity |].
  destruct (process_all_in_order (H := Samples.bridge) snap (Some Samples.user) true st
              Hsnap Hlive) as (_ & _ & st' & Hrun & Hpost).
  exists st'. split; [exact Hrun |]. split.
  - assert (Hst : st' = snd (handleProcessAllFiles (H := Samples.bridge) snap
                               (Some Samples.user) true st)) by now rewrite Hrun.
    rewrite Hst. reflexivity.
  - exact (Hpost eq_refl).
Defined.

End ProcessFacts.

(** ** The remote drive client: upload fallback and folder creation *)

Module OneDriveFacts.
Import JS JSFacts OneDrive Eff.

Section Facts.
Context {W : Type} `{Remote W}.

Ltac crunch := cbn -[String.append to_string string_of_Z sessionUrl fallbackUploadUrl
                     upload_failed graph].

Ltac unfold_async :=
  unfold ask, send, read, require, bind, try_catch, modify, gets, ret, throw in *.

(** The session attempt always starts with the request that creates the
    session, and makes at most one more request, a PUT of the bytes. *)
Lemma session_upload_requests (accessToken driveId targetPath fileName : string)
    (fileBuffer : list Byte.byte) (st : Service W) :
  exists more,
    requests (snd (session_upload accessToken driveId targetPath fileName fileBuffer st))
    = requests st ++ session_request accessToken driveId targetPath fileName :: more /\
    (more = [] \/ exists u, more = [session_put u fileBuffer]).
Proof.
  unfold session_upload, handleUploadResponse. unfold_async. crunch.
  destruct (axios _ (net st)) as [[e | sresp] w1]; crunch.
  { exists []. split; [reflexivity | now left]. }
  destruct (prop (data sresp) "uploadUrl") as [u |]; crunch.
  2:{ exists []. split; [reflexivity | now left]. }
  exists [session_put u fileBuffer]. split; [| right; now exists u].
  destruct (axios (session_put u fileBuffer) w1) as [[e | uresp] w2]; crunch.
  { now rewrite <- app_assoc. }
  destruct (is_2xx uresp); crunch; [| now rewrite <- app_assoc].
  repeat (match goal with
          | |- context [prop ?d ?k] => destruct (prop d k)
          end; crunch); now rewrite <- app_assoc.
Qed.

Lemma handleUploadResponse_state (r : Response) (st : Service W) :
  snd (handleUploadResponse r st) = st.
Proof.
  unfold handleUploadResponse. unfold_async.
  destruct (is_2xx r); crunch; [| reflexivity].
  repeat (match goal with
          | |- context [prop ?d ?k] => destruct (prop d k)
          end; crunch); reflexivity.
Qed.

(** The fallback makes exactly one request, the direct PUT, and fails with
    the error of that request or of reading its response. *)
Lemma simple_upload_run (accessToken driveId targetPath fileName : string)
    (fileBuffer : list Byte.byte) (st : Service W) :
  let req := fallback_request accessToken driveId targetPath fileName fileBuffer in
  requests (snd (simple_upload accessToken driveId targetPath fileName fileBuffer st))
  = requests st ++ [req] /\
  match axios req (net st) with
  | (inl e, w) =>
      fst (simple_upload accessToken driveId targetPath fileName fileBuffer st) = inl e
  | (inr resp, w) =>
      fst (simple_upload accessToken driveId targetPath fileName fileBuffer st)
      = fst (handleUploadResponse resp st)
  end.
Proof.
  intros req. unfold simple_upload. unfold_async. crunch. fold req.
  destruct (axios req (net st)) as [[e | resp] w]; crunch; [now split |].
  match goal with
  | |- context [handleUploadResponse resp ?s] =>
      pose proof (handleUploadResponse_state resp s) as Hs;
      assert (Hr : fst (handleUploadResponse resp s) = fst (handleUploadResponse resp st));
      [| destruct (handleUploadResponse resp s) as [[e | f] s'] eqn:Hrun ]
  end.
  { unfold handleUploadResponse. unfold_async.
    destruct (is_2xx resp); crunch; [| reflexivity].
    repeat (match goal with
            | |- context [prop ?d ?k] => destruct (prop d k)
            end; crunch); reflexivity. }
  - simpl in *. subst s'. now split.
  - simpl in *. subst s'. now split.
Qed.

Lemma report_message (e : thrown) :
  match response e with
  | Some r => message (report e) = upload_failed (status r) (data r)
  | None =>
      message (report e)
      = (if request e then "Network error during upload: " else "Upload error: ")
        +:+ message e
  end.
Proof. unfold report. destruct (response e); [reflexivity |]. now destruct (request e). Qed.


Lemma folder_of_state (d : json) (st : Service W) :
  snd (folder_of d st) = st /\
  forall s : Service W, fst (folder_of d s) = fst (folder_of d st).
Proof.
  unfold folder_of. unfold_async.
  repeat (match goal with
          | |- context [prop ?d ?k] => destruct (prop d k)
          end; crunch); now split.
Qed.

Lemma folder_of_error (d : json) (st : Service W) (e : thrown) :
  fst (folder_of d st) = inl e -> response e = None.
Proof.
  unfold folder_of. unfold_async.
  repeat (match goal with
          | |- context [prop ?d ?k] => destruct (prop d k)
          end; crunch); now intros [= <-].
Qed.

Lemma getDefaultDrive_requests (st : Service W) :
  requests (snd (getDefaultDrive st)) = requests st.
Proof.
  unfold getDefaultDrive. unfold_async. crunch.
  destruct (getOneDriveDrives (net st)) as [[e | drives] w]; crunch; [reflexivity |].
  repeat (match goal with
          | |- context [match ?x with Some _ => _ | None => _ end] => destruct x
          end; crunch); reflexivity.
Qed.

Lemma driveId_requests (st : Service W) :
  requests (snd (driveId_or_default st)) = requests st.
Proof.
  unfold driveId_or_default. unfold bind at 1. unfold gets. crunch.
  destruct (truthy (currentDriveId st)); [reflexivity |].
  unfold bind. pose proof (getDefaultDrive_requests st) as Hd.
  destruct (getDefaultDrive st) as [[e | d] s]; exact Hd.
Qed.




(** A successful [createFolder] made exactly one request: the creation of
    [folderName] inside [parent]. *)
Lemma createFolder_request (folderName : string) (parent : json)
    (st st1 : Service W) (folder : OneDriveFolder) :
  createFolder folderName parent st = (inr folder, st1) ->
  exists req, requests st1 = requests st ++ [req] /\ creates req (folderName, parent).
Proof.
  unfold createFolder. unfold try_catch at 1. unfold bind at 1. unfold ask at 1.
  destruct (getAccessToken (net st)) as [[e | accessToken] w1]; [discriminate |].
  unfold bind at 1.
  match goal with
  | |- context [driveId_or_default ?s] =>
      pose proof (driveId_requests s) as Hd;
      destruct (driveId_or_default s) as [[e | driveId] s2]; [discriminate |]
  end.
  simpl in Hd. unfold bind at 1. unfold send at 1.
  destruct (axios _ (net s2)) as [[e | resp] w3]; [discriminate |].
  destruct (is_2xx resp); [| discriminate].
  match goal with
  | |- context [folder_of ?d ?s] =>
      pose proof (proj1 (folder_of_state d s)) as Hs;
      destruct (folder_of d s) as [[e | f] s3]; [discriminate |]
  end.
  simpl in Hs. intros [= <- <-]. subst s3. simpl. rewrite Hd.
  eexists. split; [reflexivity |]. exists accessToken, driveId.
  unfold create_request, or_default. simpl. now destruct parent.
Qed.

Lemma create_parts_created (pathParts : list string) (parent : json)
    (st st' : Service W) (folders : list OneDriveFolder) :
  created pathParts parent st folders st' ->
  create_parts pathParts parent st = (inr (Some (deepest parent folders)), st') /\
  exists reqs,
    requests st' = requests st ++ reqs /\
    Forall2 creates reqs (zip pathParts (parent :: List.map folder_id folders)).
Proof.
  induction 1 as [parent st | part rest parent st st1 st' folder folders Hcreate _ IH].
  - split; [reflexivity |]. exists []. split; [now rewrite app_nil_r | constructor].
  - destruct IH as [Hrest (reqs & Hreqs & Hall)].
    destruct (createFolder_request _ _ _ _ _ Hcreate) as (req & Hreq & Hcreates).
    split.
    + cbn [create_parts]. unfold bind at 1. unfold try_catch at 1. unfold bind at 1.
      rewrite Hcreate. unfold ret at 1. rewrite Hrest. f_equal. f_equal. f_equal.
      unfold deepest. cbn [List.map]. rewrite last_cons.
      now destruct (last (List.map folder_id folders)).
    + exists (req :: reqs). split.
      * rewrite Hreqs, Hreq. now rewrite <- app_assoc.
      * constructor; [exact Hcreates | exact Hall].
Qed.

Lemma creates_renames (req : Request) (target : string * json) :
  creates req target -> renames_on_conflict req.
Proof. intros (tok & drv & ->). eexists. split; reflexivity. Qed.




End Facts.





End OneDriveFacts.

(** ** The key/value cache: expiry on read *)

Module CacheFacts.
Import JS Cache.

Section Facts.
Context `{Runtime}.

Lemma row_lookup (m : DatabaseManager) (key : string) (r : CacheRow) :
  row m key = Some r ->
  exists rows, m = {| db := Some {| cache := Some rows |} |} /\ rows !! key = Some r.
Proof.
  unfold row. destruct m as [[[[rows|]]|]]; simpl; try discriminate.
  intros Hr. now exists rows.
Qed.

(** C7. Expiry on read. For a stored row whose [expires_at] is a valid
    date: a read after that date returns [null] and removes the row, the
    other rows staying; a read before that date returns the stored value
    (the parsed payload) and leaves the store as it was. *)
Theorem cached_read_expiry (m : DatabaseManager) (key : string) (r : CacheRow)
    (expiresAt now : Z) :
  row m key = Some r ->
  Date_time (expires_at r) = Some expiresAt ->
  (expiresAt < now ->
   fst (getCachedData key now m) = JNull /\
   row (snd (getCachedData key now m)) key = None /\
   forall k, k <> key -> row (snd (getCachedData key now m)) k = row m k) /\
  (now < expiresAt ->
   forall v, JSON_parse (value r) = Some v ->
     getCachedData key now m = (v, m)).
Proof.
  intros Hrow Hdate. destruct (row_lookup m key r Hrow) as (rows & -> & Hr).
  unfold getCachedData, before. simpl. rewrite Hr, Hdate. split.
  - intros Hpast. apply Z.ltb_lt in Hpast. rewrite Hpast. simpl.
    split; [reflexivity |]. unfold row. simpl. split.
    + apply lookup_delete_eq.
    + intros k Hk. now apply lookup_delete_ne.
  - intros Hbefore v Hv.
    destruct (Z.ltb_spec expiresAt now) as [Hlt | _]; [lia |]. now rewrite Hv.
Qed.

End Facts.

Lemma cached_read_expiry_witness :
  row Samples.store "tag-categories" = Some Samples.cached /\
  Date_time (Runtime := Samples.runtime) (expires_at Samples.cached)
  = Some 1704067200000 /\
  fst (getCachedData (H := Samples.runtime) "tag-categories" 1704067200001 Samples.store)
  = JNull /\
  row (snd (getCachedData (H := Samples.runtime) "tag-categories" 1704067200001
              Samples.store)) "tag-categories" = None /\
  getCachedData (H := Samples.runtime) "tag-categories" 1704067199999 Samples.store
  = (JStr "tags", Samples.store).
Proof.
  assert (Hrow : row Samples.store "tag-categories" = Some Samples.cached).
  { unfold row, Samples.store. simpl. apply lookup_singleton_eq. }
  assert (Hdate : Date_time (Runtime := Samples.runtime) (expires_at Samples.cached)
                  = Some 1704067200000) by reflexivity.
  destruct (cached_read_expiry (H := Samples.runtime) Samples.store "tag-categories"
              Samples.cached 1704067200000 1704067200001 Hrow Hdate) as [Hpast _].
  destruct (cached_read_expiry (H := Samples.runtime) Samples.store "tag-categories"
              Samples.cached 1704067200000 1704067199999 Hrow Hdate) as [_ Hbefore].
  split; [exact Hrow |]. split; [exact Hdate |].
  destruct (Hpast ltac:(lia)) as (Hnull & Hgone & _).
  split; [exact Hnull |]. split; [exact Hgone |].
  exact (Hbefore ltac:(lia) (JStr "tags") eq_refl).
Defined.

End CacheFacts.

(** ** More facts about the string operations *)

Module JSMoreFacts.
Import JS JSFacts.
#[local] Arguments String.append !_ _ / : simpl nomatch.

Lemma prefix_char (c a : ascii) (s : string) :
  String.prefix (String c EmptyString) (String a s) = Ascii.eqb a c.
Proof.
  change (String.prefix (String c EmptyString) (String a s))
    with (if ascii_dec c a then String.prefix "" s else false).
  destruct (ascii_dec c a) as [<- | Hne].
  - rewrite Ascii.eqb_refl. now destruct s.
  - symmetry. apply Ascii.eqb_neq. intros ->. now apply Hne.
Qed.

Lemma index_of_char_lacks (c : ascii) (s : string) (i : Z) :
  lacks c s -> index_of (String c EmptyString) s i = -1.
Proof.
  revert i. induction s as [|a s IH]; intros i Hs; [reflexivity |].
  destruct Hs as [Ha Hs]. cbn [index_of]. rewrite prefix_char.
  apply Ascii.eqb_neq in Ha. rewrite Ha. now apply IH.
Qed.

Lemma lacks_index_of_char (c : ascii) (s : string) (i : Z) :
  0 <= i -> index_of (String c EmptyString) s i = -1 -> lacks c s.
Proof.
  revert i. induction s as [|a s IH]; intros i Hi Hs; [exact I |].
  cbn [index_of] in Hs. rewrite prefix_char in Hs.
  destruct (Ascii.eqb a c) eqn:Ha; [lia |].
  split; [now apply Ascii.eqb_neq | apply (IH (i + 1)); [lia | exact Hs]].
Qed.

(** [s.includes(c)] is false exactly when the character does not occur. *)
Lemma includes_char (c : ascii) (s : string) :
  includes s (String c EmptyString) = false <-> lacks c s.
Proof.
  unfold includes, indexOf, clamp.
  change (0 <? 0) with false. cbv iota.
  change (Nat.min (Z.to_nat 0) (String.length s)) with O.
  change (drop 0 s) with s. change (Z.of_nat 0) with 0. split.
  - intros Hs. apply Z.leb_gt in Hs.
    destruct (index_of_bounds (String c EmptyString) s 0) as [Hm | Hm]; [| lia].
    apply (lacks_index_of_char c s 0); [lia | exact Hm].
  - intros Hs. rewrite (index_of_char_lacks c s 0 Hs). reflexivity.
Qed.

Lemma last_index_of_char_lacks (c : ascii) (s : string) (i acc : Z) :
  lacks c s -> last_index_of (String c EmptyString) s i acc = acc.
Proof.
  revert i acc. induction s as [|a s IH]; intros i acc Hs; [reflexivity |].
  destruct Hs as [Ha Hs]. cbn [last_index_of]. rewrite prefix_char.
  apply Ascii.eqb_neq in Ha. rewrite Ha. now apply IH.
Qed.

Lemma last_index_of_char (c : ascii) (pre rest : string) (i acc : Z) :
  lacks c rest ->
  last_index_of (String c EmptyString) (pre +:+ String c rest) i acc
  = i + Z.of_nat (String.length pre).
Proof.
  revert i acc. induction pre as [|a pre IH]; intros i acc Hrest.
  - cbn [String.append last_index_of]. rewrite prefix_char, Ascii.eqb_refl.
    rewrite last_index_of_char_lacks by exact Hrest. simpl. lia.
  - cbn [String.append last_index_of]. rewrite IH by exact Hrest.
    cbn [String.length]. lia.
Qed.

Lemma take_append (s t : string) : take (String.length s) (s +:+ t) = s.
Proof. induction s as [|a s IH]; simpl; [now destruct t | now rewrite IH]. Qed.

Lemma lacks_append (c : ascii) (s t : string) :
  lacks c (s +:+ t) <-> lacks c s /\ lacks c t.
Proof.
  induction s as [|a s IH]; simpl; [tauto |]. rewrite IH. tauto.
Qed.

Lemma lacks_drop (c : ascii) (n : nat) (s : string) : lacks c s -> lacks c (drop n s).
Proof.
  revert s. induction n as [|n IH]; intros s Hs; [exact Hs |].
  destruct s as [|a s]; [exact I |]. simpl. apply IH. now destruct Hs.
Qed.

Lemma lacks_take (c : ascii) (n : nat) (s : string) : lacks c s -> lacks c (take n s).
Proof.
  revert s. induction n as [|n IH]; intros s Hs; [exact I |].
  destruct s as [|a s]; [exact I |]. destruct Hs as [Ha Hs]. simpl. split; auto.
Qed.

Lemma lacks_substring (c : ascii) (s : string) (a : Z) (b : option Z) :
  lacks c s -> lacks c (substring s a b).
Proof. intros Hs. unfold substring. now apply lacks_take, lacks_drop. Qed.

Lemma lacks_replace_all (c : ascii) (r s : string) :
  lacks c r -> lacks c (replace_all c r s).
Proof.
  intros Hr. induction s as [|a s IH]; [exact I |]. simpl.
  destruct (Ascii.eqb_spec a c) as [-> | Hne].
  - apply lacks_append. now split.
  - now split.
Qed.

Lemma replace_all_lacks (c d : ascii) (r s : string) :
  lacks d r -> lacks d s -> lacks d (replace_all c r s).
Proof.
  intros Hr. induction s as [|a s IH]; intros Hs; [exact I |]. simpl.
  destruct Hs as [Ha Hs]. destruct (Ascii.eqb a c).
  - apply lacks_append. split; auto.
  - split; auto.
Qed.

Lemma split_nonempty (c : ascii) (s : string) : split c s <> [].
Proof.
  destruct s as [|a s]; simpl; [discriminate |].
  destruct (Ascii.eqb a c); [discriminate |]. now destruct (split c s).
Qed.

Lemma split_lacks (c : ascii) (s : string) : lacks c s -> split c s = [s].
Proof.
  induction s as [|a s IH]; intros Hs; [reflexivity |].
  destruct Hs as [Ha Hs]. simpl. apply Ascii.eqb_neq in Ha. rewrite Ha.
  now rewrite (IH Hs).
Qed.

(** Splitting at a separator splits the two sides. *)
Lemma split_append (c : ascii) (pre s : string) :
  split c (pre +:+ String c s) = split c pre ++ split c s.
Proof.
  induction pre as [|a pre IH]; simpl.
  - now rewrite Ascii.eqb_refl.
  - rewrite IH. destruct (Ascii.eqb a c); [reflexivity |].
    pose proof (split_nonempty c pre) as Hne.
    destruct (split c pre) as [|h t]; [congruence | reflexivity].
Qed.

(** The parts of a split do not contain the separator. *)
Lemma split_parts_lack (c : ascii) (s : string) :
  Forall (lacks c) (split c s).
Proof.
  induction s as [|a s IH]; simpl; [repeat constructor |].
  destruct (Ascii.eqb_spec a c) as [-> | Hne].
  - constructor; [exact I | exact IH].
  - pose proof (split_nonempty c s) as Hs.
    destruct (split c s) as [|h t]; [congruence |].
    inversion IH; subst. constructor; [now split | assumption].
Qed.

Lemma truthy_Some (o : option string) :
  truthy o = true -> exists s, o = Some s /\ s <> EmptyString.
Proof.
  destruct o as [s|]; simpl; [| discriminate]. intros Hs. exists s.
  split; [reflexivity |]. intros ->. discriminate.
Qed.

End JSMoreFacts.

(** ** Detection: file names, the preference gate, cancel and re-detection *)

Module DetectionFacts.
Import JS JSFacts JSMoreFacts Queue QueueFacts QueueOps.
#[local] Arguments String.append !_ _ / : simpl nomatch.


(** X2. The file name is the text after the last backslash, and ['/'] is no
    separator as long as that text is not empty: a Windows path gives its last
    segment, and a path without any backslash, such as a POSIX path, is taken
    whole, directories included. *)
Theorem fileName_of_last_backslash_segment (dir name : string) :
  name <> EmptyString ->
  lacks backslash name ->
  fileName_of (dir +:+ String backslash name) = name /\
  fileName_of name = name.
Proof.
  intros Hname Hlacks.
  assert (Ht : truthy (Some name) = true).
  { simpl. destruct (String.eqb_spec name ""); [congruence | reflexivity]. }
  split; unfold fileName_of, pop.
  - rewrite split_append, (split_lacks backslash name Hlacks), last_snoc.
    unfold or_else at 2. rewrite Ht. unfold or_else. now rewrite Ht.
  - rewrite (split_lacks backslash name Hlacks). cbn [last].
    unfold or_else at 2. rewrite Ht. unfold or_else. now rewrite Ht.
Qed.

Lemma fileName_of_last_backslash_segment_witness :
  fileName_of "C:\drop\in/2024/invoice.pdf" = "in/2024/invoice.pdf" /\
  fileName_of "in/2024/invoice.pdf" = "in/2024/invoice.pdf".
Proof.
  refine (fileName_of_last_backslash_segment "C:\drop" "in/2024/invoice.pdf" _ _).
  - discriminate.
  - cbv. intuition discriminate.
Defined.

Lemma step_before_preferences (a : App) (e : Event) :
  reads_preferences e = false ->
  preferencesLoaded a = false -> detectedFiles a = [] ->
  preferencesLoaded (step a e) = false /\ detectedFiles (step a e) = [].
Proof.
  intros He Hl Hq. destruct e; simpl in *.
  - unfold handleFileDetected. rewrite Hl. simpl. now split.
  - unfold handleNotificationClicked. rewrite Hl. now split.
  - destruct savedPrefs; [discriminate | now split].
  - unfold setPreferences. simpl. rewrite Hl, Hq. simpl.
    rewrite andb_false_r. now split.
  - unfold handleFileFolderChange. simpl. rewrite Hq. now split.
  - unfold handleFileTagToggle. simpl. rewrite Hq. now split.
  - unfold handleFileNameChange. simpl. rewrite Hq. now split.
  - unfold handleApplyFolderToAll. destruct confirmed; simpl; rewrite ?Hq; now split.
  - unfold Queue.handleRemoveFile. destruct confirmed; simpl; rewrite ?Hq; now split.
  - unfold Queue.handleClearAllFiles. rewrite Hq. simpl. now split.
Qed.

(** X3. Nothing is queued before the preferences have been read: from the
    initial state, as long as no [loadPreferences] has stored preferences,
    every detection and notification click is dropped and the queue stays
    empty. *)
Theorem nothing_queued_before_preferences (events : list Event) :
  forallb (fun e => negb (reads_preferences e)) events = true ->
  detectedFiles (run initial events) = [] /\
  preferencesLoaded (run initial events) = false.
Proof.
  intros Hev.
  assert (Hgen : forall a, preferencesLoaded a = false -> detectedFiles a = [] ->
            detectedFiles (run a events) = [] /\ preferencesLoaded (run a events) = false).
  { induction events as [|e events IH]; intros a Hl Hq; [now split |].
    simpl in Hev. apply andb_true_iff in Hev as [He Hev].
    apply negb_true_iff in He.
    destruct (step_before_preferences a e He Hl Hq) as [Hl' Hq'].
    simpl. now apply IH. }
  now apply Hgen.
Qed.

Lemma nothing_queued_before_preferences_witness :
  let events := [FileReady "C:\drop\invoice.pdf" None 1;
                 NotificationClicked "a.pdf" "C:\drop\a.pdf" 2;
                 PreferencesRead None;
                 FileReady "C:\drop\invoice.pdf" (Some Samples.savedPrefs) 3] in
  forallb (fun e => negb (reads_preferences e)) events = true /\
  detectedFiles (run initial events) = [] /\
  preferencesLoaded (run initial events) = false.
Proof.
  intros events.
  assert (Hev : forallb (fun e => negb (reads_preferences e)) events = true)
    by reflexivity.
  split; [exact Hev |]. exact (nothing_queued_before_preferences events Hev).
Defined.

Lemma not_in_delete {A} (l : list A) (i : nat) (x : A) :
  NoDup l -> l !! i = Some x -> x ∉ delete i l.
Proof.
  intros Hl Hx. rewrite delete_take_drop.
  rewrite <- (take_drop_middle l i x Hx) in Hl.
  apply NoDup_app in Hl as (_ & Hdisj & Hright).
  apply NoDup_cons in Hright as [Hnot _].
  intros Hin. apply elem_of_app in Hin as [Hin | Hin]; [| now apply Hnot].
  apply (Hdisj x Hin). apply list_elem_of_here.
Qed.

(** X4. Cancelling an entry frees its path: in a queue with pairwise
    different paths, after the entry at [index] is removed its path is no
    longer queued, and a later detection of that path appends a fresh entry
    (display name reset to the file name, no tag, not processed) behind the
    entries that remained. *)
Theorem cancel_then_detect (a : App) (index : nat) (file : FileProcessingState)
    (prefs : option UserPreferences) (now : Z) :
  NoDup (paths (detectedFiles a)) ->
  preferencesLoaded a = true ->
  detectedFiles a !! index = Some file ->
  (filePath file ∉ paths (detectedFiles (step a (Cancel index true)))) /\
  exists folder,
    detectedFiles (run a [Cancel index true; FileReady (filePath file) prefs now])
    = delete index (detectedFiles a)
      ++ [new_entry (fileName_of (filePath file)) (filePath file) now folder].
Proof.
  intros Hnd Hloaded Hfile.
  assert (Hgone : filePath file ∉ paths (remove_at index (detectedFiles a))).
  { unfold paths, remove_at. rewrite map_fmap, list_fmap_delete.
    apply not_in_delete; [exact Hnd |].
    rewrite list_lookup_fmap, Hfile. reflexivity. }
  split; [exact Hgone |].
  simpl. unfold handleFileDetected. simpl. rewrite Hloaded. simpl.
  destruct (exists_path (filePath file) (remove_at index (detectedFiles a))) eqn:Hex.
  - apply exists_path_In in Hex. contradiction.
  - simpl. eexists. reflexivity.
Qed.

Lemma cancel_then_detect_witness :
  let a := loadPreferences (Some Samples.savedPrefs)
             (with_files initial [Samples.tagged; Samples.invoice]) in
  NoDup (paths (detectedFiles a)) /\
  preferencesLoaded a = true /\
  (exists file, detectedFiles a !! 0%nat = Some file /\
                filePath file = "C:\drop\contract.pdf" /\
                selectedTags file = [7; 9]) /\
  exists fresh,
    detectedFiles (run a [Cancel 0 true; FileReady "C:\drop\contract.pdf" None 5]) !! 1%nat
    = Some fresh /\
    filePath fresh = "C:\drop\contract.pdf" /\ selectedTags fresh = [].
Proof.
  intros a.
  assert (Hnd : NoDup (paths (detectedFiles a))).
  { apply NoDup_ListNoDup. repeat constructor; simpl; intuition discriminate. }
  assert (Hloaded : preferencesLoaded a = true) by reflexivity.
  split; [exact Hnd |]. split; [exact Hloaded |].
  split; [eexists; repeat split; reflexivity |].
  destruct (cancel_then_detect a 0 _ None 5 Hnd Hloaded eq_refl) as [_ [folder Hrun]].
  change (filePath _) with "C:\drop\contract.pdf" in Hrun.
  eexists. split; [rewrite Hrun; reflexivity |]. split; reflexivity.
Defined.

End DetectionFacts.

(** ** Edits: tags, names and links *)

Module EditFacts.
Import JS JSFacts JSMoreFacts Queue QueueFacts QueueOps.
#[local] Arguments String.append !_ _ / : simpl nomatch.

Lemma existsb_eqb (t : Z) (ts : list Z) : existsb (Z.eqb t) ts = true <-> t ∈ ts.
Proof.
  rewrite existsb_exists, list_elem_of_In. split.
  - intros (x & Hx & Heq). apply Z.eqb_eq in Heq. now subst.
  - intros Hin. exists t. split; [exact Hin | apply Z.eqb_refl].
Qed.

(** The tags [handleFileTagToggle] stores. *)
Lemma toggled_tags (t : Z) (ts : list Z) :
  let ts' := if existsb (Z.eqb t) ts
             then List.filter (fun id => negb (Z.eqb id t)) ts
             else ts ++ [t] in
  (t ∈ ts' <-> t ∉ ts) /\
  (forall u, u <> t -> (u ∈ ts' <-> u ∈ ts)) /\
  (NoDup ts -> NoDup ts').
Proof.
  intros ts'. subst ts'. destruct (existsb (Z.eqb t) ts) eqn:Hex.
  - apply existsb_eqb in Hex. repeat split.
    + intros Hin. apply list_elem_of_In, filter_In in Hin as [_ Hne].
      rewrite Z.eqb_refl in Hne. discriminate.
    + intros Hnot. contradiction.
    + intros Hin. apply list_elem_of_In, filter_In in Hin as [Hin _].
      now apply list_elem_of_In.
    + intros Hin. apply list_elem_of_In, filter_In. split; [now apply list_elem_of_In |].
      apply negb_true_iff, Z.eqb_neq. assumption.
    + intros Hnd. apply NoDup_ListNoDup, List.NoDup_filter, NoDup_ListNoDup, Hnd.
  - assert (Hnot : t ∉ ts).
    { intros Hin. apply existsb_eqb in Hin. congruence. }
    repeat split.
    + intros _. exact Hnot.
    + intros _. apply elem_of_app. right. apply list_elem_of_here.
    + intros Hin. apply elem_of_app in Hin as [Hin | Hin]; [exact Hin |].
      apply list_elem_of_singleton in Hin. contradiction.
    + intros Hin. apply elem_of_app. now left.
    + intros Hnd. apply NoDup_app. split; [exact Hnd |].
      split; [| apply NoDup_singleton].
      intros x Hx Hin. apply list_elem_of_singleton in Hin. now subst.
Qed.

(** X5. Toggling a tag flips it and nothing else: on the entry at [index]
    the tag is selected afterwards exactly when it was not before, every
    other tag is as before, the rest of the entry is untouched, and the other
    entries are as they were. *)
Theorem toggle_flips_tag (a : App) (index : nat) (tagId : Z)
    (file : FileProcessingState) :
  detectedFiles a !! index = Some file ->
  exists file',
    detectedFiles (step a (ToggleTag index tagId)) !! index = Some file' /\
    (tagId ∈ selectedTags file' <-> tagId ∉ selectedTags file) /\
    (forall u, u <> tagId -> (u ∈ selectedTags file' <-> u ∈ selectedTags file)) /\
    set_selectedTags (selectedTags file) file' = file /\
    (forall j, j <> index ->
       detectedFiles (step a (ToggleTag index tagId)) !! j = detectedFiles a !! j).
Proof.
  intros Hfile.
  destruct (toggled_tags tagId (selectedTags file)) as (Hflip & Hother & _).
  eexists. split.
  { simpl. rewrite lookup_map_at, Hfile. simpl. rewrite Nat.eqb_refl. reflexivity. }
  split; [exact Hflip |]. split; [exact Hother |]. split; [now destruct file |].
  intros j Hj. simpl. rewrite lookup_map_at.
  apply Nat.eqb_neq in Hj. rewrite Hj. now destruct (detectedFiles a !! j).
Qed.

Lemma toggle_flips_tag_witness :
  let a := with_files initial [Samples.invoice; Samples.tagged] in
  detectedFiles a !! 1%nat = Some Samples.tagged /\
  exists file',
    detectedFiles (step a (ToggleTag 1 7)) !! 1%nat = Some file' /\
    selectedTags file' = [9] /\
    detectedFiles (step a (ToggleTag 1 7)) !! 0%nat = Some Samples.invoice.
Proof.
  intros a.
  assert (Hfile : detectedFiles a !! 1%nat = Some Samples.tagged) by reflexivity.
  split; [exact Hfile |].
  destruct (toggle_flips_tag a 1 7 Samples.tagged Hfile)
    as (file' & Hlookup & _ & _ & _ & Hframe).
  exists file'. split; [exact Hlookup |]. split.
  - assert (Hsame : Some file' = detectedFiles (step a (ToggleTag 1 7)) !! 1%nat)
      by now rewrite Hlookup.
    injection Hsame as ->. reflexivity.
  - rewrite (Hframe 0%nat) by discriminate. reflexivity.
Defined.

Lemma Forall_map_at (P : FileProcessingState -> Prop) (i : nat) g
    (q : list FileProcessingState) :
  (forall f, P f -> P (g f)) -> Forall P q -> Forall P (map_at i g q).
Proof.
  intros Hg Hq. apply Forall_lookup. intros j f Hf.
  rewrite lookup_map_at in Hf. destruct (q !! j) as [f0|] eqn:Hj; [| discriminate].
  simpl in Hf. injection Hf as <-.
  pose proof (proj1 (Forall_lookup P q) Hq j f0 Hj) as Hf0.
  destruct (Nat.eqb j i); auto.
Qed.

Lemma Forall_list_map (P : FileProcessingState -> Prop) g
    (q : list FileProcessingState) :
  (forall f, P f -> P (g f)) -> Forall P q -> Forall P (List.map g q).
Proof. intros Hg Hq. induction Hq; simpl; constructor; auto. Qed.

Lemma step_tags_unique (a : App) (e : Event) :
  tags_unique (detectedFiles a) -> tags_unique (detectedFiles (step a e)).
Proof.
  unfold tags_unique. intros Ha. destruct e; simpl.
  - unfold handleFileDetected. destruct (preferencesLoaded a); simpl; [| exact Ha].
    destruct (exists_path path (detectedFiles a)); simpl; [exact Ha |].
    apply Forall_app. split; [exact Ha |]. repeat constructor.
  - unfold handleNotificationClicked.
    destruct (preferencesLoaded a); [| exact Ha].
    destruct (loadedPreferencesRef a); [| exact Ha]. simpl.
    destruct (exists_path path (detectedFiles a)); simpl; [exact Ha |].
    apply Forall_app. split; [exact Ha |]. repeat constructor.
  - unfold loadPreferences. destruct savedPrefs; [| exact Ha]. simpl.
    now apply Forall_list_map.
  - unfold setPreferences. simpl.
    match goal with |- context [if ?b then _ else _] => destruct b end;
      [now apply Forall_list_map | exact Ha].
  - now apply Forall_map_at.
  - apply Forall_map_at; [| exact Ha]. intros f Hf. simpl.
    now apply (toggled_tags tagId (selectedTags f)).
  - now apply Forall_map_at.
  - unfold handleApplyFolderToAll. destruct confirmed; [| exact Ha]. simpl.
    now apply Forall_list_map.
  - unfold Queue.handleRemoveFile. destruct confirmed; [| exact Ha]. simpl.
    unfold remove_at. now apply Forall_delete.
  - unfold Queue.handleClearAllFiles.
    destruct (forallb isProcessed (detectedFiles a)); [constructor |].
    destruct confirmed; [constructor | exact Ha].
Qed.

(** X6. No entry ever has a tag selected twice: this holds of the empty
    queue the application starts with and is kept by every detection,
    preference update and edit, so it holds after every sequence of them. *)
Theorem tags_never_duplicated (events : list Event) :
  tags_unique (detectedFiles (run initial events)).
Proof.
  assert (Hgen : forall a, tags_unique (detectedFiles a) ->
                           tags_unique (detectedFiles (run a events))).
  { induction events as [|e events IH]; intros a Ha; [exact Ha |].
    simpl. apply IH. now apply step_tags_unique. }
  apply Hgen. constructor.
Qed.

(** X7. Renaming keeps no history: the extension that is appended always
    comes from the original file name, so renaming twice gives what the last
    renaming alone gives; and a new name that contains a ['.'] is stored as
    typed, whatever its extension. *)
Theorem rename_last_wins (a : App) (index : nat) (first second : string) :
  step (step a (RenameDisplayName index first)) (RenameDisplayName index second)
  = step a (RenameDisplayName index second) /\
  (forall file, includes second "." = true -> finalName file second = second).
Proof.
  split.
  - simpl. unfold handleFileNameChange. simpl. f_equal.
    apply list_eq. intros j. rewrite !lookup_map_at.
    destruct (detectedFiles a !! j) as [f|]; [| reflexivity]. simpl.
    destruct (Nat.eqb j index); reflexivity.
  - intros file Hdot. unfold finalName. now rewrite Hdot.
Qed.

Lemma rename_last_wins_witness :
  finalName Samples.invoice "summary.v2" = "summary.v2".
Proof.
  exact (proj2 (rename_last_wins initial 0 "draft" "summary.v2")
           Samples.invoice eq_refl).
Defined.

(** X8. The folder link of an uploaded file is its URL without the last path
    segment; a URL without any ['/'] gives the empty link. *)
Theorem folderUrl_drops_last_segment (base name : string) :
  lacks slash name ->
  folderUrl_of (base +:+ String slash name) = base /\
  folderUrl_of name = EmptyString.
Proof.
  intros Hname. unfold folderUrl_of, lastIndexOf. split.
  - change "/"%string with (String slash EmptyString).
    rewrite last_index_of_char by exact Hname.
    unfold substring, clamp. rewrite length_append.
    change (0 <? 0) with false. cbv iota.
    destruct (Z.ltb_spec (0 + Z.of_nat (String.length base)) 0) as [Hneg | _]; [lia |].
    replace (Z.to_nat (0 + Z.of_nat (String.length base))) with (String.length base) by lia.
    change (Z.to_nat 0) with O. cbn [Nat.min].
    rewrite (Nat.min_l (String.length base)) by lia.
    cbn [Nat.max Nat.min drop]. rewrite Nat.sub_0_r. apply take_append.
  - change "/"%string with (String slash EmptyString).
    rewrite last_index_of_char_lacks by exact Hname.
    unfold substring, clamp. change (0 <? 0) with false. change (-1 <? 0) with true.
    cbv iota. change (Z.to_nat 0) with O. reflexivity.
Qed.

Lemma folderUrl_drops_last_segment_witness :
  lacks slash "invoice.pdf" /\
  folderUrl_of "https://1drv.ms/Finance/2024/invoice.pdf" = "https://1drv.ms/Finance/2024".
Proof.
  assert (Hname : lacks slash "invoice.pdf") by (cbv; intuition discriminate).
  split; [exact Hname |].
  exact (proj1 (folderUrl_drops_last_segment "https://1drv.ms/Finance/2024"
                  "invoice.pdf" Hname)).
Defined.

End EditFacts.

(** ** Outcomes of processing: failures, retries, what is left untouched *)

Module OutcomeFacts.
Import JS JSFacts Queue QueueFacts QueueOps Eff.

Section Facts.
Context {W : Type} `{Bridge W}.

Ltac crunch := cbn -[map_at String.append to_string pairs_of lookup].

Ltac unfold_async :=
  unfold handleProcessSingleFile, associate, delete_source, read_result, require,
    setDetectedFiles, emit, call, bind, try_catch, modify, ret, throw in *.

Ltac answer :=
  match goal with
  | |- context [uploadToOneDrive ?a ?b ?c ?w] =>
      destruct (uploadToOneDrive a b c w) as [[? | ?r] ?] eqn:?Hupload
  | |- context [postAssociations ?a ?b ?w] =>
      destruct (postAssociations a b w) as [[? | ?resp] ?] eqn:?Hpost
  | |- context [deleteFile ?a ?w] =>
      destruct (deleteFile a w) as [[? | ?d] ?] eqn:?Hdelete
  | |- context [prop ?r ?k] => destruct (prop r k) as [? |] eqn:?Hprop
  | |- context [ok ?r] => destruct (ok r) eqn:?Hok
  | |- context [body ?r] => destruct (body r) as [? | ?] eqn:?Hbody
  end; crunch.

Lemma map_at_same (i : nat) (q : list FileProcessingState) :
  map_at i (fun f => f) q = q.
Proof.
  apply list_eq. intros j. rewrite lookup_map_at.
  destruct (q !! j); simpl; [now destruct (Nat.eqb j i) | reflexivity].
Qed.

Lemma map_at_compose (i : nat) g h (q : list FileProcessingState) :
  map_at i h (map_at i g q) = map_at i (fun f => h (g f)) q.
Proof.
  apply list_eq. intros j. rewrite !lookup_map_at.
  destruct (q !! j); simpl; [now destruct (Nat.eqb j i) | reflexivity].
Qed.

(** The effects of one run of [handleProcessSingleFile], whatever the world
    answers: the assignment of the entry is kept, every call is about the
    file of the entry, a deletion is attempted exactly when the entry is
    marked processed, and an entry that is not ready is left alone. *)
Lemma process_single_effects (snap : list FileProcessingState)
    (user : option UserInfo) (api : bool) (i : nat) (st : Sys W) :
  exists h added w,
    handleProcessSingleFile snap user api i st
    = (inr tt, {| live := map_at i h (live st); world := w;
                  calls := calls st ++ added |}) /\
    (forall f, assignment (h f) = assignment f) /\
    (forall c, c ∈ added ->
       exists file, snap !! i = Some file /\ ready file = true /\
                    (call_path c = None \/ call_path c = Some (filePath file))) /\
    ((existsb is_delete added = true /\ forall g, isProcessed (h g) = true) \/
     (existsb is_delete added = false /\ forall g, isProcessed (h g) = isProcessed g)) /\
    ((forall file, snap !! i = Some file -> ready file = false) ->
     added = [] /\ forall g, h g = g).
Proof.
  unfold handleProcessSingleFile.
  destruct (snap !! i) as [file|] eqn:Hfile.
  2:{ exists (fun f => f), [], (world st). rewrite map_at_same, app_nil_r.
      split; [now destruct st |]. split; [reflexivity |].
      split; [intros c Hc; now apply elem_of_nil in Hc |].
      split; [right; now split | now split]. }
  destruct (isProcessing file || isProcessed file)%bool eqn:Hbusy.
  { exists (fun f => f), [], (world st). rewrite map_at_same, app_nil_r.
    split; [now destruct st |]. split; [reflexivity |].
    split; [intros c Hc; now apply elem_of_nil in Hc |].
    split; [right; now split | now split]. }
  assert (Hready : ready file = true).
  { unfold ready. destruct (isProcessing file), (isProcessed file); easy. }
  unfold_async. crunch.
  destruct user as [user|]; crunch.
  2:{ rewrite map_at_compose. eexists _, [], _. rewrite app_nil_r.
      split; [reflexivity |]. split; [reflexivity |].
      split; [intros c Hc; now apply elem_of_nil in Hc |].
      split; [right; now split |].
      intros Hnot. specialize (Hnot file eq_refl). congruence. }
  destruct api; crunch.
  2:{ eexists _, [], _. rewrite app_nil_r.
      split; [reflexivity |]. split; [reflexivity |].
      split; [intros c Hc; now apply elem_of_nil in Hc |].
      split; [right; now split |].
      intros Hnot. specialize (Hnot file eq_refl). congruence. }
  destruct (selectedTags file) as [|tag tags] eqn:Htags; crunch;
    repeat answer; rewrite ?map_at_compose, <- ?app_assoc; cbn [app];
    (eexists _, _, _; split; [reflexivity |]; split; [reflexivity |]; split;
     [ intros made Hmade; exists file; split; [reflexivity |];
       split; [exact Hready |];
       repeat (apply elem_of_cons in Hmade as [-> | Hmade]; [simpl; auto |]);
       now apply elem_of_nil in Hmade
     | split;
       [ first [ left; split; [reflexivity | intros g; reflexivity]
               | right; split; [reflexivity | intros g; reflexivity] ]
       | intros Hnot; specialize (Hnot file eq_refl); congruence ] ]).
Qed.

Lemma busy_false (file : FileProcessingState) :
  ready file = true -> (isProcessing file || isProcessed file)%bool = false.
Proof. unfold ready. destruct (isProcessing file), (isProcessed file); easy. Qed.

(** The run in which the upload fails. *)
Lemma upload_failure_run (snap : list FileProcessingState) (u : UserInfo)
    (index : nat) (file : FileProcessingState) (st : Sys W) (e : caught) (w1 : W) :
  snap !! index = Some file ->
  ready file = true ->
  uploadToOneDrive (filePath file) (displayName file) (oneDriveFolder_of file)
    (world st) = (inl e, w1) ->
  handleProcessSingleFile snap (Some u) true index st
  = (inr tt,
     {| live := map_at index (fun f => mark_failed (error_text e) (mark_processing f))
                  (live st);
        world := w1;
        calls := calls st ++ [Upload (filePath file) (displayName file)
                                (oneDriveFolder_of file)] |}).
Proof.
  intros Hfile Hready Hupload.
  unfold handleProcessSingleFile. rewrite Hfile, (busy_false _ Hready).
  unfold_async. crunch. rewrite Hupload. crunch. now rewrite map_at_compose.
Qed.

(** The run in which upload and association succeed, whatever the deletion
    answers. *)
Lemma process_completes_run (snap : list FileProcessingState) (u : UserInfo)
    (index : nat) (file : FileProcessingState) (st : Sys W)
    (r id webUrl : json) (w1 w2 w3 : W) (d : caught + bool) :
  snap !! index = Some file ->
  ready file = true ->
  uploadToOneDrive (filePath file) (displayName file) (oneDriveFolder_of file)
    (world st) = (inr r, w1) ->
  prop r "id" = Some id -> prop r "webUrl" = Some webUrl ->
  association_succeeds u file r w1 w2 ->
  deleteFile (filePath file) w2 = (d, w3) ->
  exists associationResult middle,
    handleProcessSingleFile snap (Some u) true index st
    = (inr tt,
       {| live := map_at index
                    (fun f => mark_processed
                                {| success := true; file_id := id; one_drive_id := id;
                                   web_url := webUrl;
                                   message := "File uploaded and tagged successfully";
                                   associations := associationResult |}
                                (mark_processing f))
                    (live st);
          world := w3;
          calls := calls st ++ Upload (filePath file) (displayName file)
                                 (oneDriveFolder_of file)
                               :: middle ++ [Delete (filePath file)] |}) /\
    (selectedTags file = [] -> middle = [] /\ associationResult = JArr []) /\
    (selectedTags file <> [] ->
     middle = [Associate (userName_of u) (pairs_of id file)]).
Proof.
  intros Hfile Hready Hupload Hid Hweb Hassoc Hdelete.
  unfold handleProcessSingleFile. rewrite Hfile, (busy_false _ Hready).
  unfold_async. crunch. rewrite Hupload. crunch.
  destruct Hassoc as [[Htags ->] | (Htags & id' & resp & j & Hid' & Hpost & Hok & Hbody)].
  - rewrite Htags. crunch. rewrite Hid, Hweb. crunch. rewrite Hdelete.
    exists (JArr []), [].
    split; [| split; [now split | congruence]].
    destruct d as [e | b]; crunch; rewrite map_at_compose, <- app_assoc; reflexivity.
  - destruct (selectedTags file) as [|tag tags] eqn:Hsel; [congruence |].
    rewrite Hid in Hid'. injection Hid' as <-.
    crunch. rewrite Hid. crunch. rewrite Hpost. crunch.
    rewrite Hok, Hbody. crunch. rewrite Hweb. crunch. rewrite Hdelete.
    exists j, [Associate (userName_of u) (pairs_of id file)].
    split; [| split; [discriminate | reflexivity]].
    destruct d as [e | b]; crunch; rewrite map_at_compose, <- !app_assoc; reflexivity.
Qed.

(** X9. A failed upload leaves the entry ready for a retry: the entry
    records the message of the error, is neither processing nor processed,
    keeps the folder, tags and display name the user gave it, and the only
    call made is the upload, so the source file is not deleted. *)
Theorem upload_failure_keeps_entry (snap : list FileProcessingState) (u : UserInfo)
    (index : nat) (file : FileProcessingState) (st : Sys W) (e : caught) (w1 : W) :
  live st = snap ->
  snap !! index = Some file ->
  ready file = true ->
  uploadToOneDrive (filePath file) (displayName file) (oneDriveFolder_of file)
    (world st) = (inl e, w1) ->
  exists st' file',
    handleProcessSingleFile snap (Some u) true index st = (inr tt, st') /\
    live st' !! index = Some file' /\
    error file' = Some (error_text e) /\
    ready file' = true /\
    assignment file' = assignment file /\
    calls st' = calls st ++ [Upload (filePath file) (displayName file)
                               (oneDriveFolder_of file)].
Proof.
  intros Hlive Hfile Hready Hupload.
  eexists _, _.
  split; [exact (upload_failure_run snap u index file st e w1 Hfile Hready Hupload) |].
  simpl.
  rewrite lookup_map_at, Hlive, Hfile. simpl. rewrite Nat.eqb_refl.
  split; [reflexivity |]. split; [reflexivity |]. split; [| split; reflexivity].
  unfold ready in *. simpl. destruct (isProcessed file); easy.
Qed.

(** X10. A rejected association fails the entry after the upload: when the
    association request is answered without [ok], the entry records
    ["Failed to create tag associations: "] followed by the status text, is
    not marked processed, and the source file is not deleted although the
    file has been uploaded. *)
Theorem association_rejected_fails_entry (snap : list FileProcessingState)
    (u : UserInfo) (index : nat) (file : FileProcessingState) (st : Sys W)
    (r id : json) (resp : FetchResponse) (w1 w2 : W) :
  live st = snap ->
  snap !! index = Some file ->
  ready file = true ->
  selectedTags file <> [] ->
  uploadToOneDrive (filePath file) (displayName file) (oneDriveFolder_of file)
    (world st) = (inr r, w1) ->
  prop r "id" = Some id ->
  postAssociations (userName_of u) (pairs_of id file) w1 = (inr resp, w2) ->
  ok resp = false ->
  exists st' file',
    handleProcessSingleFile snap (Some u) true index st = (inr tt, st') /\
    live st' !! index = Some file' /\
    error file' = Some ("Failed to create tag associations: " +:+ statusText resp) /\
    isProcessed file' = false /\ isProcessing file' = false /\
    calls st' = calls st ++ [Upload (filePath file) (displayName file)
                               (oneDriveFolder_of file);
                             Associate (userName_of u) (pairs_of id file)].
Proof.
  intros Hlive Hfile Hready Htags Hupload Hid Hpost Hok.
  unfold handleProcessSingleFile. rewrite Hfile, (busy_false _ Hready).
  unfold_async. crunch. rewrite Hupload. crunch.
  destruct (selectedTags file) as [|tag tags] eqn:Hsel; [congruence |].
  crunch. rewrite Hid. crunch. rewrite Hpost. crunch. rewrite Hok. crunch.
  eexists _, _. split; [reflexivity |]. crunch.
  rewrite map_at_compose, lookup_map_at, Hlive, Hfile. simpl. rewrite Nat.eqb_refl.
  assert (Hp : isProcessed file = false)
    by (unfold ready in Hready; destruct (isProcessed file); easy).
  split; [reflexivity |]. split; [reflexivity |]. split; [exact Hp |].
  split; [reflexivity |]. now rewrite <- app_assoc.
Qed.

(** X11. Without a signed-in user nothing is sent: processing a ready
    entry makes no call at all and records the request to authenticate as the
    error of the entry. *)
Theorem unauthenticated_makes_no_call (snap : list FileProcessingState)
    (api : bool) (index : nat) (file : FileProcessingState) (st : Sys W) :
  live st = snap ->
  snap !! index = Some file ->
  ready file = true ->
  exists st' file',
    handleProcessSingleFile snap None api index st = (inr tt, st') /\
    calls st' = calls st /\ world st' = world st /\
    live st' !! index = Some file' /\
    error file'
    = Some "Please authenticate with Microsoft to upload files to OneDrive." /\
    ready file' = true.
Proof.
  intros Hlive Hfile Hready.
  unfold handleProcessSingleFile. rewrite Hfile, (busy_false _ Hready).
  unfold_async. crunch. eexists _, _. split; [reflexivity |]. crunch.
  rewrite map_at_compose, lookup_map_at, Hlive, Hfile. simpl. rewrite Nat.eqb_refl.
  repeat split. unfold ready in *. simpl. destruct (isProcessed file); easy.
Qed.

(** X12. The source file is deleted only for an entry that completes:
    whatever the collaborators answer, processing an entry that is not yet
    processed attempts the deletion of its file exactly when the entry ends
    marked processed, and no other file is ever deleted. *)
Theorem delete_iff_processed (snap : list FileProcessingState)
    (user : option UserInfo) (api : bool) (index : nat)
    (file : FileProcessingState) (st : Sys W) :
  live st = snap ->
  snap !! index = Some file ->
  isProcessed file = false ->
  exists st' added,
    handleProcessSingleFile snap user api index st = (inr tt, st') /\
    calls st' = calls st ++ added /\
    (Delete (filePath file) ∈ added <->
     exists file', live st' !! index = Some file' /\ isProcessed file' = true) /\
    (forall path, Delete path ∈ added -> path = filePath file).
Proof.
  intros Hlive Hfile Hnot.
  destruct (process_single_effects snap user api index st)
    as (h & added & w & Hrun & _ & Hcalls & Hdel & _).
  eexists _, added. split; [exact Hrun |]. split; [reflexivity |]. simpl.
  rewrite lookup_map_at, Hlive, Hfile. simpl. rewrite Nat.eqb_refl.
  assert (Honly : forall path, Delete path ∈ added -> path = filePath file).
  { intros path Hin. destruct (Hcalls _ Hin) as (file0 & Hf0 & _ & [Hp | Hp]);
      simpl in Hp; congruence. }
  split; [| exact Honly].
  destruct Hdel as [[Hsome Hdone] | [Hnone Hsame]].
  - split; [intros _; eexists; split; [reflexivity | apply Hdone] |].
    intros _. apply existsb_exists in Hsome as (c & Hc & Hd).
    destruct c; try discriminate. apply list_elem_of_In in Hc.
    now rewrite <- (Honly _ Hc).
  - split.
    + intros Hin. exfalso. apply list_elem_of_In in Hin.
      assert (Hex : existsb is_delete added = true)
        by (apply existsb_exists; eexists; split; [exact Hin | reflexivity]).
      congruence.
    + intros (file' & [= <-] & Hp). rewrite Hsame in Hp. congruence.
Qed.

(** X13. The stored result of a completed entry carries the upload: its
    [file_id] and [one_drive_id] are the [id] of the uploaded file, its
    [web_url] is the [webUrl], and its associations are the answer of the
    association request (the empty list when no tag was selected); this holds
    whatever the deletion of the source file answers. *)
Theorem completed_result_carries_upload (snap : list FileProcessingState)
    (u : UserInfo) (index : nat) (file : FileProcessingState) (st : Sys W)
    (r id webUrl : json) (w1 w2 w3 : W) (d : caught + bool) :
  live st = snap ->
  snap !! index = Some file ->
  ready file = true ->
  uploadToOneDrive (filePath file) (displayName file) (oneDriveFolder_of file)
    (world st) = (inr r, w1) ->
  prop r "id" = Some id -> prop r "webUrl" = Some webUrl ->
  association_succeeds u file r w1 w2 ->
  deleteFile (filePath file) w2 = (d, w3) ->
  exists st' file' res,
    handleProcessSingleFile snap (Some u) true index st = (inr tt, st') /\
    live st' !! index = Some file' /\
    isProcessed file' = true /\ error file' = None /\
    result file' = Some res /\
    success res = true /\ file_id res = id /\ one_drive_id res = id /\
    web_url res = webUrl /\
    (selectedTags file = [] -> associations res = JArr []).
Proof.
  intros Hlive Hfile Hready Hupload Hid Hweb Hassoc Hdelete.
  destruct (process_completes_run snap u index file st r id webUrl w1 w2 w3 d
              Hfile Hready Hupload Hid Hweb Hassoc Hdelete)
    as (assoc & middle & Hrun & Hnone & _).
  eexists _, _, _. split; [exact Hrun |]. simpl.
  rewrite lookup_map_at, Hlive, Hfile. simpl. rewrite Nat.eqb_refl.
  split; [reflexivity |]. repeat split. intros Htags. now apply Hnone.
Qed.

(** X14. A retry starts over: after a run in which the upload failed,
    processing the entry again uploads the file a second time and, when this
    upload and the association succeed, the entry ends processed with the
    error of the first run cleared. *)
Theorem retry_after_failure (snap : list FileProcessingState) (u : UserInfo)
    (index : nat) (file : FileProcessingState) (st : Sys W) (e : caught)
    (r id webUrl : json) (w1 w2 w3 w4 : W) (d : caught + bool) :
  live st = snap ->
  snap !! index = Some file ->
  ready file = true ->
  uploadToOneDrive (filePath file) (displayName file) (oneDriveFolder_of file)
    (world st) = (inl e, w1) ->
  uploadToOneDrive (filePath file) (displayName file) (oneDriveFolder_of file)
    w1 = (inr r, w2) ->
  prop r "id" = Some id -> prop r "webUrl" = Some webUrl ->
  association_succeeds u file r w2 w3 ->
  deleteFile (filePath file) w3 = (d, w4) ->
  let st1 := snd (handleProcessSingleFile snap (Some u) true index st) in
  let st2 := snd (handleProcessSingleFile (live st1) (Some u) true index st1) in
  (exists failed, live st1 !! index = Some failed /\
                  error failed = Some (error_text e) /\ isProcessed failed = false) /\
  (exists file', live st2 !! index = Some file' /\
                 isProcessed file' = true /\ error file' = None) /\
  exists rest,
    calls st2
    = calls st ++ Upload (filePath file) (displayName file) (oneDriveFolder_of file)
                  :: Upload (filePath file) (displayName file) (oneDriveFolder_of file)
                  :: rest.
Proof.
  intros Hlive Hfile Hready Hup1 Hup2 Hid Hweb Hassoc Hdelete st1 st2.
  assert (Hst1 : st1 = {| live := map_at index
                                    (fun f => mark_failed (error_text e) (mark_processing f))
                                    (live st);
                          world := w1;
                          calls := calls st ++ [Upload (filePath file) (displayName file)
                                                  (oneDriveFolder_of file)] |}).
  { subst st1. now rewrite (upload_failure_run snap u index file st e w1). }
  set (failed := mark_failed (error_text e) (mark_processing file)).
  assert (Hfailed : live st1 !! index = Some failed).
  { rewrite Hst1. simpl. rewrite lookup_map_at, Hlive, Hfile. simpl.
    now rewrite Nat.eqb_refl. }
  assert (Hretry : ready failed = true).
  { unfold ready in *. simpl. destruct (isProcessed file); easy. }
  split.
  { exists failed. split; [exact Hfailed |]. split; [reflexivity |].
    unfold ready in Hready. simpl. destruct (isProcessed file); easy. }
  destruct (process_completes_run (live st1) u index failed st1 r id webUrl w2 w3 w4 d
              Hfailed Hretry) as (assoc & middle & Hrun & _); try assumption.
  { rewrite Hst1. exact Hup2. }
  subst st2. rewrite Hrun. simpl. split.
  - rewrite lookup_map_at, Hfailed. simpl. rewrite Nat.eqb_refl.
    eexists. split; [reflexivity |]. split; reflexivity.
  - rewrite Hst1. simpl. rewrite <- app_assoc. simpl. eexists. reflexivity.
Qed.

Lemma lookup_map_at_other (i j : nat) g (q : list FileProcessingState) :
  j <> i -> map_at i g q !! j = q !! j.
Proof.
  intros Hne. rewrite lookup_map_at. apply Nat.eqb_neq in Hne. rewrite Hne.
  now destruct (q !! j).
Qed.

Lemma fmap_map_at {K} (k : FileProcessingState -> K) (i : nat) g
    (q : list FileProcessingState) :
  (forall f, k (g f) = k f) -> k <$> map_at i g q = k <$> q.
Proof.
  intros Hg. apply list_eq. intros j.
  rewrite !list_lookup_fmap, lookup_map_at.
  destruct (q !! j) as [f|]; [| reflexivity]. simpl.
  destruct (Nat.eqb j i); [now rewrite Hg | reflexivity].
Qed.

(** The loop of the batch, whatever the world answers and whatever the
    snapshot: it returns normally, keeps the assignments, leaves alone every
    position whose entry was not ready, and only makes calls about ready
    entries. *)
Lemma process_from_effects (snap : list FileProcessingState)
    (user : option UserInfo) (api : bool) (files : list FileProcessingState) :
  forall st, exists st' added,
    process_from snap user api files st = (inr tt, st') /\
    calls st' = calls st ++ added /\
    assignment <$> live st' = assignment <$> live st /\
    (forall j f, snap !! j = Some f -> ready f = false ->
       live st' !! j = live st !! j) /\
    (forall c, c ∈ added ->
       call_path c = None \/
       exists f, f ∈ snap /\ ready f = true /\ call_path c = Some (filePath f)).
Proof.
  induction files as [|f0 rest IH]; intros st.
  - exists st, []. split; [reflexivity |]. split; [now rewrite app_nil_r |].
    split; [reflexivity |]. split; [reflexivity |].
    intros c Hc. now apply elem_of_nil in Hc.
  - cbn [process_from]. unfold bind at 1.
    destruct (findIndex (fun g => String.eqb (filePath g) (filePath f0)) snap)
      as [i|].
    + unfold bind at 1.
      destruct (process_single_effects snap user api i st)
        as (h & added & w & Hrun & Hassign & Hcalls & _ & Hidle).
      rewrite Hrun.
      set (st1 := {| live := map_at i h (live st); world := w;
                     calls := calls st ++ added |}).
      set (pause := match rest with [] => [] | _ :: _ => [Delay 1000] end).
      set (st2 := {| live := live st1; world := world st1;
                     calls := calls st1 ++ pause |}).
      assert (Hpause : match rest with
                       | [] => ret tt
                       | _ :: _ => emit (Delay 1000)
                       end st1 = (inr tt, st2)).
      { subst st2 pause. destruct rest; [| reflexivity].
        unfold ret. now rewrite app_nil_r. }
      rewrite Hpause.
      destruct (IH st2) as (st' & added' & Hrest & Hcalls' & Hassign' & Hframe & Hpaths).
      exists st', (added ++ pause ++ added'). split; [exact Hrest |].
      split; [rewrite Hcalls'; simpl; now rewrite <- !app_assoc |].
      split; [rewrite Hassign'; simpl; now apply fmap_map_at |].
      split.
      * intros j f Hf Hnot. rewrite (Hframe j f Hf Hnot). simpl.
        destruct (Nat.eq_dec j i) as [-> | Hne]; [| now apply lookup_map_at_other].
        rewrite lookup_map_at, Nat.eqb_refl.
        destruct Hidle as [_ Hid]; [intros file Hfile; congruence |].
        destruct (live st !! i); simpl; [now rewrite Hid | reflexivity].
      * intros c Hc. apply elem_of_app in Hc as [Hc | Hc].
        -- destruct (Hcalls c Hc) as (file & Hfile & Hready & [Hp | Hp]);
             [now left |].
           right. exists file. split; [| now split].
           eapply list_elem_of_lookup_2. exact Hfile.
        -- apply elem_of_app in Hc as [Hc | Hc]; [| now apply Hpaths].
           left. subst pause. destruct rest; [now apply elem_of_nil in Hc |].
           apply list_elem_of_singleton in Hc. now subst.
    + unfold ret at 1. apply IH.
Qed.

Lemma handleProcessAllFiles_effects (snap : list FileProcessingState)
    (user : option UserInfo) (api : bool) (st : Sys W) :
  exists st' added,
    handleProcessAllFiles snap user api st = (inr tt, st') /\
    calls st' = calls st ++ added /\
    assignment <$> live st' = assignment <$> live st /\
    (forall j f, snap !! j = Some f -> ready f = false ->
       live st' !! j = live st !! j) /\
    (forall c, c ∈ added ->
       call_path c = None \/
       exists f, f ∈ snap /\ ready f = true /\ call_path c = Some (filePath f)).
Proof.
  unfold handleProcessAllFiles.
  destruct (Nat.eqb (List.length (List.filter ready snap)) 0).
  - eexists _, _. split; [reflexivity |]. simpl. split; [reflexivity |].
    split; [reflexivity |]. split; [reflexivity |].
    intros c Hc. apply list_elem_of_singleton in Hc. subst. now left.
  - apply process_from_effects.
Qed.

(** X15. Processing never changes what was assigned: whatever the
    collaborators answer, after processing one entry and after the whole
    batch, every entry of the queue has the file name, display name, path,
    time stamp, folder and tags it had, in the same order, so no entry is
    added, removed or moved. *)
Theorem processing_keeps_assignments (snap : list FileProcessingState)
    (user : option UserInfo) (api : bool) (index : nat) (st : Sys W) :
  assignment <$> live (snd (handleProcessSingleFile snap user api index st))
  = assignment <$> live st /\
  assignment <$> live (snd (handleProcessAllFiles snap user api st))
  = assignment <$> live st.
Proof.
  split.
  - destruct (process_single_effects snap user api index st)
      as (h & added & w & Hrun & Hassign & _).
    rewrite Hrun. simpl. now apply fmap_map_at.
  - destruct (handleProcessAllFiles_effects snap user api st)
      as (st' & added & Hrun & _ & Hassign & _).
    now rewrite Hrun.
Qed.

(** X16. The batch leaves finished and running entries alone: on a queue
    with pairwise different paths, an entry that is completed or being
    processed when the batch starts is the same afterwards, and no upload or
    deletion is made for its file. *)
Theorem batch_skips_settled (snap : list FileProcessingState)
    (user : option UserInfo) (api : bool) (st : Sys W)
    (j : nat) (f : FileProcessingState) :
  NoDup (paths snap) ->
  live st = snap ->
  snap !! j = Some f ->
  ready f = false ->
  exists st' added,
    handleProcessAllFiles snap user api st = (inr tt, st') /\
    calls st' = calls st ++ added /\
    live st' !! j = Some f /\
    (forall c, c ∈ added -> call_path c <> Some (filePath f)).
Proof.
  intros Hnd Hlive Hf Hnot.
  destruct (handleProcessAllFiles_effects snap user api st)
    as (st' & added & Hrun & Hcalls & _ & Hframe & Hpaths).
  exists st', added. split; [exact Hrun |]. split; [exact Hcalls |].
  split; [rewrite (Hframe j f Hf Hnot), Hlive; exact Hf |].
  intros c Hc Hpath. destruct (Hpaths c Hc) as [Hp | (g & Hg & Hready & Hp)];
    [congruence |].
  apply list_elem_of_lookup_1 in Hg as [k Hk].
  assert (Hkj : k = j).
  { apply (NoDup_lookup (paths snap) k j (filePath f)); [exact Hnd | |].
    - unfold paths. rewrite map_fmap, list_lookup_fmap, Hk. simpl. congruence.
    - unfold paths. rewrite map_fmap, list_lookup_fmap, Hf. reflexivity. }
  subst k. congruence.
Qed.

End Facts.
Lemma upload_failure_keeps_entry_witness :
  let snap := [Samples.tagged] in
  let st := MoreSamples.sys_at 0 snap in
  live st = snap /\
  snap !! 0%nat = Some Samples.tagged /\
  ready Samples.tagged = true /\
  exists st' file',
    handleProcessSingleFile (H := MoreSamples.flaky) snap (Some Samples.user) true 0 st
    = (inr tt, st') /\
    live st' !! 0%nat = Some file' /\
    error file' = Some "Network error during upload: timeout" /\
    ready file' = true /\
    assignment file' = assignment Samples.tagged /\
    calls st' = [Upload "C:\drop\contract.pdf" "contract.pdf" (Some "Finance/2024")].
Proof.
  intros snap st. split; [reflexivity |]. split; [reflexivity |].
  split; [reflexivity |].
  exact (upload_failure_keeps_entry (H := MoreSamples.flaky) snap Samples.user 0
           Samples.tagged st (ErrorObj "Network error during upload: timeout") 1%nat
           eq_refl eq_refl eq_refl eq_refl).
Defined.

Lemma association_rejected_fails_entry_witness :
  let snap := [Samples.tagged] in
  let st := MoreSamples.sys_at 1 snap in
  selectedTags Samples.tagged <> [] /\
  ok MoreSamples.forbidden = false /\
  exists st' file',
    handleProcessSingleFile (H := MoreSamples.flaky) snap (Some Samples.user) true 0 st
    = (inr tt, st') /\
    live st' !! 0%nat = Some file' /\
    error file' = Some "Failed to create tag associations: Forbidden" /\
    isProcessed file' = false /\ isProcessing file' = false /\
    calls st' = [Upload "C:\drop\contract.pdf" "contract.pdf" (Some "Finance/2024");
                 Associate "Ada" [(JStr "F7", 7); (JStr "F7", 9)]].
Proof.
  intros snap st.
  assert (Htags : selectedTags Samples.tagged <> []) by discriminate.
  split; [exact Htags |]. split; [reflexivity |].
  exact (association_rejected_fails_entry (H := MoreSamples.flaky) snap Samples.user 0
           Samples.tagged st MoreSamples.uploaded (JStr "F7") MoreSamples.forbidden
           2%nat 3%nat eq_refl eq_refl eq_refl Htags eq_refl eq_refl eq_refl eq_refl).
Defined.

Lemma unauthenticated_makes_no_call_witness :
  let snap := [Samples.invoice] in
  let st := Samples.sys snap in
  live st = snap /\ snap !! 0%nat = Some Samples.invoice /\
  ready Samples.invoice = true /\
  exists st' file',
    handleProcessSingleFile (H := Samples.bridge) snap None true 0 st = (inr tt, st') /\
    calls st' = calls st /\ world st' = world st /\
    live st' !! 0%nat = Some file' /\
    error file'
    = Some "Please authenticate with Microsoft to upload files to OneDrive." /\
    ready file' = true.
Proof.
  intros snap st. split; [reflexivity |]. split; [reflexivity |].
  split; [reflexivity |].
  exact (unauthenticated_makes_no_call (H := Samples.bridge) snap true 0
           Samples.invoice st eq_refl eq_refl eq_refl).
Defined.

Lemma delete_iff_processed_witness :
  let snap := [Samples.broken; Samples.invoice] in
  let st := Samples.sys snap in
  live st = snap /\ snap !! 0%nat = Some Samples.broken /\
  isProcessed Samples.broken = false /\
  exists st' added,
    handleProcessSingleFile (H := Samples.bridge) snap (Some Samples.user) true 0 st
    = (inr tt, st') /\
    calls st' = calls st ++ added /\
    (Delete (filePath Samples.broken) ∈ added <->
     exists file', live st' !! 0%nat = Some file' /\ isProcessed file' = true) /\
    (forall path, Delete path ∈ added -> path = filePath Samples.broken).
Proof.
  intros snap st. split; [reflexivity |]. split; [reflexivity |].
  split; [reflexivity |].
  exact (delete_iff_processed (H := Samples.bridge) snap (Some Samples.user) true 0
           Samples.broken st eq_refl eq_refl eq_refl).
Defined.

Lemma completed_result_carries_upload_witness :
  let snap := [Samples.invoice] in
  let st := MoreSamples.sys_at 1 snap in
  live st = snap /\ snap !! 0%nat = Some Samples.invoice /\
  ready Samples.invoice = true /\
  association_succeeds (H := MoreSamples.flaky) Samples.user Samples.invoice
    MoreSamples.uploaded 2%nat 2%nat /\
  exists st' file' res,
    handleProcessSingleFile (H := MoreSamples.flaky) snap (Some Samples.user) true 0 st
    = (inr tt, st') /\
    live st' !! 0%nat = Some file' /\
    isProcessed file' = true /\ error file' = None /\
    result file' = Some res /\
    success res = true /\ file_id res = JStr "F7" /\ one_drive_id res = JStr "F7" /\
    web_url res = JStr "https://1drv.ms/Finance/2024/invoice.pdf" /\
    (selectedTags Samples.invoice = [] -> associations res = JArr []).
Proof.
  intros snap st.
  assert (Hassoc : association_succeeds (H := MoreSamples.flaky) Samples.user
                     Samples.invoice MoreSamples.uploaded 2%nat 2%nat)
    by (left; split; reflexivity).
  split; [reflexivity |]. split; [reflexivity |]. split; [reflexivity |].
  split; [exact Hassoc |].
  exact (completed_result_carries_upload (H := MoreSamples.flaky) snap Samples.user 0
           Samples.invoice st MoreSamples.uploaded (JStr "F7")
           (JStr "https://1drv.ms/Finance/2024/invoice.pdf") 2%nat 2%nat 3%nat
           (inr true) eq_refl eq_refl eq_refl eq_refl eq_refl eq_refl Hassoc eq_refl).
Defined.

Lemma retry_after_failure_witness :
  let snap := [Samples.invoice] in
  let st := MoreSamples.sys_at 0 snap in
  let st1 := snd (handleProcessSingleFile (H := MoreSamples.flaky) snap
                    (Some Samples.user) true 0 st) in
  let st2 := snd (handleProcessSingleFile (H := MoreSamples.flaky) (live st1)
                    (Some Samples.user) true 0 st1) in
  live st = snap /\ snap !! 0%nat = Some Samples.invoice /\
  ready Samples.invoice = true /\
  (exists file', live st2 !! 0%nat = Some file' /\
                 isProcessed file' = true /\ error file' = None) /\
  calls st2 = [Upload "C:\drop\invoice.pdf" "invoice.pdf" (Some "Finance/2024");
               Upload "C:\drop\invoice.pdf" "invoice.pdf" (Some "Finance/2024");
               Delete "C:\drop\invoice.pdf"].
Proof.
  intros snap st st1 st2.
  assert (Hassoc : association_succeeds (H := MoreSamples.flaky) Samples.user
                     Samples.invoice MoreSamples.uploaded 2%nat 2%nat)
    by (left; split; reflexivity).
  split; [reflexivity |]. split; [reflexivity |]. split; [reflexivity |].
  destruct (retry_after_failure (H := MoreSamples.flaky) snap Samples.user 0
              Samples.invoice st (ErrorObj "Network error during upload: timeout")
              MoreSamples.uploaded (JStr "F7")
              (JStr "https://1drv.ms/Finance/2024/invoice.pdf") 1%nat 2%nat 2%nat 3%nat
              (inr true) eq_refl eq_refl eq_refl eq_refl eq_refl eq_refl eq_refl
              Hassoc eq_refl) as (_ & Hdone & _).
  split; [exact Hdone | reflexivity].
Defined.

Lemma batch_skips_settled_witness :
  let snap := [Samples.broken; Samples.done Samples.readme; Samples.invoice] in
  let st := Samples.sys snap in
  NoDup (paths snap) /\ live st = snap /\
  snap !! 1%nat = Some (Samples.done Samples.readme) /\
  ready (Samples.done Samples.readme) = false /\
  exists st' added,
    handleProcessAllFiles (H := Samples.bridge) snap (Some Samples.user) true st
    = (inr tt, st') /\
    calls st' = calls st ++ added /\
    live st' !! 1%nat = Some (Samples.done Samples.readme) /\
    (forall c, c ∈ added -> call_path c <> Some "C:\drop\README").
Proof.
  intros snap st.
  assert (Hnd : NoDup (paths snap)).
  { apply NoDup_ListNoDup. repeat constructor; simpl; intuition discriminate. }
  split; [exact Hnd |]. split; [reflexivity |]. split; [reflexivity |].
  split; [reflexivity |].
  exact (batch_skips_settled (H := Samples.bridge) snap (Some Samples.user) true st 1
           (Samples.done Samples.readme) Hnd eq_refl eq_refl eq_refl).
Defined.

End OutcomeFacts.

(** ** Removing one entry and clearing the queue *)

Module ClearFacts.
Import JS JSFacts Queue QueueFacts QueueOps Eff.

Section Facts.
Context {W : Type} `{Bridge W}.

Lemma delete_each_run (files : list FileProcessingState) :
  forall st : Sys W, exists results w,
    delete_each true files st
    = (inr results,
       {| live := live st; world := w;
          calls := calls st ++ ((fun f => Delete (filePath f)) <$> files) |}) /\
    length results = length files /\
    (deletions_answer -> count false results = O).
Proof.
  induction files as [|f rest IH]; intros st.
  - exists [], (world st). simpl. rewrite app_nil_r.
    split; [now destruct st |]. now split.
  - cbn [delete_each]. unfold bind at 1. unfold delete_one, try_catch, bind, call, ret.
    destruct (deleteFile (filePath f) (world st)) as [[e | b] w1] eqn:Hdel.
    + destruct (IH {| live := live st; world := w1;
                      calls := calls st ++ [Delete (filePath f)] |})
        as (results & w & Hrest & Hlen & Hnone).
      rewrite Hrest. exists (false :: results), w. simpl.
      rewrite <- app_assoc. split; [reflexivity |]. split; [now rewrite Hlen |].
      intros Hans. destruct (Hans (filePath f) (world st)) as (b & w' & Hb). congruence.
    + destruct (IH {| live := live st; world := w1;
                      calls := calls st ++ [Delete (filePath f)] |})
        as (results & w & Hrest & Hlen & Hnone).
      rewrite Hrest. exists (true :: results), w. simpl.
      rewrite <- app_assoc. split; [reflexivity |]. split; [now rewrite Hlen |].
      intros Hans. unfold count in *. simpl. now apply Hnone.
Qed.

(** X17. Clearing the queue deletes the files of the unprocessed entries and
    only those: when every entry is processed the queue is emptied at once
    and nothing is deleted; otherwise nothing happens unless the user
    confirms, and then [deleteFile] is called once per unprocessed entry in
    queue order, the queue is emptied whatever the deletions answer, and at
    most one alert follows; when the bridge answers every deletion the alert
    is never raised, even for deletions answered [false]. *)
Theorem clear_all_deletes_unprocessed (snap : list FileProcessingState)
    (confirmed : bool) (st : Sys W) :
  let unprocessed := List.filter (fun file => negb (isProcessed file)) snap in
  (unprocessed = [] ->
   handleClearAllFiles_async snap true confirmed st
   = (inr tt, {| live := []; world := world st; calls := calls st |})) /\
  (unprocessed <> [] -> confirmed = false ->
   handleClearAllFiles_async snap true confirmed st = (inr tt, st)) /\
  (unprocessed <> [] -> confirmed = true ->
   exists st' notes,
     handleClearAllFiles_async snap true confirmed st = (inr tt, st') /\
     live st' = [] /\
     calls st' = calls st ++ ((fun f => Delete (filePath f)) <$> unprocessed) ++ notes /\
     (notes = [] \/ exists text, notes = [Alert text]) /\
     (deletions_answer -> notes = [])).
Proof.
  intros unprocessed. unfold handleClearAllFiles_async. fold unprocessed.
  split; [| split].
  - intros ->. reflexivity.
  - intros Hne ->. destruct unprocessed; [congruence | reflexivity].
  - intros Hne ->. destruct unprocessed as [|f rest] eqn:Hun; [congruence |].
    cbn [List.length Nat.eqb]. rewrite <- Hun.
    unfold try_catch. unfold bind at 1.
    destruct (delete_each_run unprocessed st) as (results & w & Hrun & _ & Hnone).
    rewrite Hrun. unfold bind, setDetectedFiles, modify, emit, ret. simpl.
    destruct (Nat.ltb 0 (count false results)) eqn:Hfailed.
    + eexists _, _. split; [reflexivity |]. simpl. split; [reflexivity |].
      split; [now rewrite <- app_assoc |]. split; [right; eexists; reflexivity |].
      intros Hans. rewrite (Hnone Hans) in Hfailed. discriminate.
    + eexists _, []. split; [reflexivity |]. simpl. split; [reflexivity |].
      rewrite app_nil_r. split; [reflexivity |]. split; [now left | reflexivity].
Qed.

(** X18. Removing an entry takes it off the queue whatever happens to the
    file: unconfirmed, nothing changes; confirmed, [deleteFile] is called
    once for the file of the entry and the entry leaves the queue both when
    the deletion is answered (even with [false], without any alert) and when
    it throws (then with an alert that reports the error). *)
Theorem remove_file_takes_entry_off (snap : list FileProcessingState)
    (index : nat) (file : FileProcessingState) (st : Sys W) :
  snap !! index = Some file ->
  handleRemoveFile_async snap true false index st = (inr tt, st) /\
  exists st' notes,
    handleRemoveFile_async snap true true index st = (inr tt, st') /\
    live st' = remove_at index (live st) /\
    calls st' = calls st ++ Delete (filePath file) :: notes /\
    (forall b w, deleteFile (filePath file) (world st) = (inr b, w) -> notes = []) /\
    (forall e w, deleteFile (filePath file) (world st) = (inl e, w) ->
       exists text, notes = [Alert (text +:+ error_string e)]).
Proof.
  intros Hfile. unfold handleRemoveFile_async. rewrite Hfile.
  split; [reflexivity |].
  unfold try_catch, bind, call, setDetectedFiles, modify, emit, ret.
  destruct (deleteFile (filePath file) (world st)) as [[e | b] w] eqn:Hdel; simpl.
  - eexists _, _. split; [reflexivity |]. simpl. split; [reflexivity |].
    split; [now rewrite <- app_assoc |].
    split; [intros b w' [=] | intros e' w' [= <- _]; eexists; reflexivity].
  - eexists _, []. split; [reflexivity |]. simpl. split; [reflexivity |].
    split; [reflexivity |]. split; [reflexivity | intros e w' [=]].
Qed.

End Facts.

Lemma clear_all_deletes_unprocessed_witness :
  let snap := [Samples.invoice; Samples.done Samples.readme; Samples.tagged] in
  let st := Samples.sys snap in
  deletions_answer (H := Samples.bridge) /\
  handleClearAllFiles_async (H := Samples.bridge) snap true true st
  = (inr tt, {| live := []; world := 2%nat;
                calls := [Delete "C:\drop\invoice.pdf";
                          Delete "C:\drop\contract.pdf"] |}).
Proof.
  intros snap st.
  assert (Hans : deletions_answer (H := Samples.bridge)).
  { intros path w. exists false, (S w). reflexivity. }
  split; [exact Hans |].
  destruct (clear_all_deletes_unprocessed (H := Samples.bridge) snap true st)
    as (_ & _ & Hclear).
  destruct Hclear as (st' & notes & Hrun & Hlive & Hcalls & _ & Hnone);
    [discriminate | reflexivity |].
  rewrite Hrun. f_equal. destruct st' as [q w c]. simpl in *.
  rewrite (Hnone Hans) in Hcalls. subst q c. f_equal.
  assert (Hw : w = world (snd (handleClearAllFiles_async (H := Samples.bridge) snap
                                 true true st))) by now rewrite Hrun.
  rewrite Hw. reflexivity.
Defined.

Lemma remove_file_takes_entry_off_witness :
  let snap := [Samples.invoice; Samples.readme] in
  let st := Samples.sys snap in
  snap !! 0%nat = Some Samples.invoice /\
  handleRemoveFile_async (H := Samples.bridge) snap true true 0 st
  = (inr tt, {| live := [Samples.readme]; world := 1%nat;
                calls := [Delete "C:\drop\invoice.pdf"] |}).
Proof.
  intros snap st.
  assert (Hfile : snap !! 0%nat = Some Samples.invoice) by reflexivity.
  split; [exact Hfile |].
  destruct (remove_file_takes_entry_off (H := Samples.bridge) snap 0 Samples.invoice st
              Hfile) as (_ & st' & notes & Hrun & Hlive & Hcalls & Hnone & _).
  rewrite Hrun. f_equal. destruct st' as [q w c]. simpl in *.
  rewrite (Hnone false 1%nat eq_refl) in Hcalls. subst q c. f_equal.
  assert (Hw : w = world (snd (handleRemoveFile_async (H := Samples.bridge) snap true
                                 true 0 st))) by now rewrite Hrun.
  rewrite Hw. reflexivity.
Defined.

End ClearFacts.

(** ** The remote drive client: paths, drive choice, request budget *)

Module DriveFacts.
Import JS JSFacts JSMoreFacts OneDrive DriveOps Eff.
#[local] Arguments String.append !_ _ / : simpl nomatch.

Lemma lacks_strip_prefix (c : ascii) (p s : string) :
  lacks c s -> lacks c (strip_prefix p s).
Proof.
  intros Hs. unfold strip_prefix. destruct (startsWith s p); [| exact Hs].
  now apply lacks_drop.
Qed.

Lemma lacks_strip_leading (c d : ascii) (s : string) :
  lacks d s -> lacks d (strip_leading c s).
Proof.
  induction s as [|a s IH]; intros Hs; [exact I |]. simpl.
  destruct (Ascii.eqb a c); [apply IH; now destruct Hs | exact Hs].
Qed.

Lemma lacks_strip_trailing (c d : ascii) (s : string) :
  lacks d s -> lacks d (strip_trailing c s).
Proof.
  induction s as [|a s IH]; intros Hs; [exact I |]. destruct Hs as [Ha Hs].
  simpl. specialize (IH Hs). destruct (strip_trailing c s) as [|b t].
  - destruct (Ascii.eqb a c); [exact I | now split].
  - now split.
Qed.

Lemma split_keeps_lacks (c d : ascii) (s : string) :
  lacks d s -> Forall (lacks d) (split c s).
Proof.
  induction s as [|a s IH]; intros Hs; [repeat constructor |].
  destruct Hs as [Ha Hs]. specialize (IH Hs). simpl.
  destruct (Ascii.eqb a c); [constructor; [exact I | exact IH] |].
  destruct (split c s) as [|h t].
  - constructor; [now split | constructor].
  - inversion IH; subst. constructor; [now split | assumption].
Qed.

Lemma targetPath_lacks_backslash (folderPath : string) :
  lacks backslash (targetPath_of folderPath).
Proof.
  unfold targetPath_of.
  destruct (negb (String.eqb folderPath "") && negb (String.eqb folderPath "root"))%bool;
    [| cbv; intuition discriminate].
  destruct (includes folderPath "\") eqn:Hinc.
  - assert (Ht : lacks backslash
                   (replace_all backslash "/" (strip_prefix "E:\365\" folderPath))).
    { apply lacks_replace_all. cbv. intuition discriminate. }
    destruct (startsWith _ _); [now apply lacks_substring | exact Ht].
  - apply (includes_char backslash) in Hinc.
    destruct (startsWith _ _); [now apply lacks_substring | exact Hinc].
Qed.

Lemma pathParts_clean (folderPath : string) :
  Forall (fun part => part <> EmptyString /\ lacks slash part /\ lacks backslash part)
    (pathParts_of (cleanPath_of folderPath)).
Proof.
  unfold pathParts_of. set (clean := cleanPath_of folderPath).
  assert (Hclean : lacks backslash clean).
  { unfold clean, cleanPath_of.
    apply lacks_strip_trailing, lacks_strip_leading, lacks_replace_all.
    cbv. intuition discriminate. }
  pose proof (split_parts_lack slash clean) as Hslash.
  pose proof (split_keeps_lacks slash backslash clean Hclean) as Hback.
  induction (split slash clean) as [|part parts IH]; [constructor |].
  inversion Hslash; subst. inversion Hback; subst. simpl.
  destruct part as [|a part]; simpl; [now apply IH |].
  constructor; [| now apply IH]. split; [discriminate | now split].
Qed.

(** X19. No backslash reaches the drive. Whatever folder is given, the
    target path [uploadFile] puts in its URLs contains no backslash, and every
    segment [findFolderByPath] would create is not empty and contains neither
    ['/'] nor a backslash. *)
Theorem drive_paths_are_clean (folderPath : string) :
  lacks backslash (targetPath_of folderPath) /\
  Forall (fun part => part <> EmptyString /\ lacks slash part /\ lacks backslash part)
    (pathParts_of (cleanPath_of folderPath)).
Proof.
  split; [apply targetPath_lacks_backslash | apply pathParts_clean].
Qed.

Section Facts.
Context {W : Type} `{Remote W}.

Lemma rethrow_state {S E A : Type} (m : M S E A) (f : E -> E) (st : S) :
  snd (try_catch m (fun e => throw (f e)) st) = snd (m st).
Proof.
  unfold try_catch, throw. now destruct (m st) as [[e | a] s].
Qed.

(** X20. [uploadFile] sends at most three requests and never retries
    beyond the fallback: whatever the collaborators answer, either no request
    is made, or the first is the creation of the upload session for the
    target path and at most two more follow. *)
Theorem uploadFile_request_budget (filePath fileName : string)
    (folderPath : option string) (st : Service W) :
  exists added,
    requests (snd (uploadFile filePath fileName folderPath st)) = requests st ++ added /\
    (added = [] \/
     exists accessToken driveId more,
       added = session_request accessToken driveId
                 (targetPath_of (default "root" folderPath)) fileName :: more /\
       (length more <= 2)%nat).
Proof.
  unfold uploadFile. rewrite rethrow_state.
  unfold bind at 1. unfold ask at 1.
  destruct (getAccessToken (net st)) as [[e | accessToken] w1].
  { exists []. split; [simpl; now rewrite app_nil_r | now left]. }
  unfold bind at 1.
  match goal with
  | |- context [driveId_or_default ?s] =>
      pose proof (OneDriveFacts.driveId_requests s) as Hd;
      destruct (driveId_or_default s) as [[e | driveId] s2]
  end; simpl in Hd.
  { exists []. split; [simpl; now rewrite Hd, app_nil_r | now left]. }
  unfold bind at 1. unfold ask at 1.
  destruct (readFileSync filePath (net s2)) as [[e | fileBuffer] w3].
  { exists []. split; [simpl; now rewrite Hd, app_nil_r | now left]. }
  set (s3 := {| currentDriveId := currentDriveId s2; net := w3;
                requests := requests s2 |}).
  set (targetPath := targetPath_of (default "root" folderPath)).
  unfold try_catch at 1.
  destruct (OneDriveFacts.session_upload_requests accessToken driveId targetPath
              fileName fileBuffer s3) as (more & Hreqs & Hmore).
  destruct (session_upload accessToken driveId targetPath fileName fileBuffer s3)
    as [[e | file] s4]; simpl in Hreqs.
  - destruct (OneDriveFacts.simple_upload_run accessToken driveId targetPath fileName
                fileBuffer s4) as [Hdirect _].
    rewrite Hdirect, Hreqs, Hd, <- app_assoc.
    eexists. split; [reflexivity |].
    right. exists accessToken, driveId. eexists. split; [reflexivity |].
    destruct Hmore as [-> | [u ->]]; simpl; lia.
  - simpl. rewrite Hreqs, Hd. eexists. split; [reflexivity |].
    right. exists accessToken, driveId, more. split; [reflexivity |].
    destruct Hmore as [-> | [u ->]]; simpl; lia.
Qed.

Lemma choice_in (drives : list Drive) (d : Drive) :
  match List.find (fun d => String.eqb (driveType d) "personal") drives with
  | Some d => Some d
  | None =>
      match List.find (fun d => match drive_name d with
                                | Some n => (negb (String.eqb n "") &&
                                             includes (toLowerCase n) "onedrive")%bool
                                | None => false
                                end) drives with
      | Some d => Some d
      | None => head drives
      end
  end = Some d ->
  d ∈ drives /\
  ((exists p, p ∈ drives /\ driveType p = "personal") -> driveType d = "personal").
Proof.
  destruct (List.find (fun d => String.eqb (driveType d) "personal") drives)
    as [p|] eqn:Hp.
  - intros [= <-]. apply find_some in Hp as [Hin Heq].
    apply String.eqb_eq in Heq. split; [now apply list_elem_of_In | auto].
  - intros Hd. split.
    + revert Hd.
      match goal with
      | |- match ?c with Some _ => _ | None => _ end = _ -> _ =>
          destruct c as [q|] eqn:Hq
      end.
      * intros [= <-]. apply find_some in Hq as [Hin _].
        now apply list_elem_of_In.
      * destruct drives; [discriminate |]. intros [= <-]. apply list_elem_of_here.
    + intros (p & Hin & Hpers). exfalso.
      apply list_elem_of_In in Hin.
      pose proof (find_none _ _ Hp p Hin) as Hno. simpl in Hno.
      rewrite Hpers in Hno. discriminate.
Qed.

(** X21. The choice of the drive: when the auth service lists no drive,
    [getDefaultDrive] throws and [currentDriveId] is unchanged; when it lists
    some, the call succeeds with one of the listed drives, a personal one
    whenever the list has one, remembers its identifier, and, if that
    identifier is not empty, later calls use it without asking the auth
    service again. *)
Theorem default_drive_choice (st : Service W) (drives : list Drive) (w : W) :
  getOneDriveDrives (net st) = (inr drives, w) ->
  (drives = [] ->
   exists msg, getDefaultDrive st
               = (inl (Error msg),
                  {| currentDriveId := currentDriveId st; net := w;
                     requests := requests st |})) /\
  (drives <> [] ->
   exists d name,
     let st' := {| currentDriveId := Some (drive_id d); net := w;
                   requests := requests st |} in
     getDefaultDrive st = (inr (drive_id d, name), st') /\
     d ∈ drives /\
     ((exists p, p ∈ drives /\ driveType p = "personal") -> driveType d = "personal") /\
     name <> EmptyString /\
     (drive_id d <> EmptyString -> driveId_or_default st' = (inr (drive_id d), st'))).
Proof.
  intros Hdrives.
  split; intros Hne; unfold getDefaultDrive; unfold bind at 1; unfold ask at 1;
    rewrite Hdrives.
  - subst drives. simpl. eexists. reflexivity.
  - cbv beta iota zeta.
    destruct drives as [|d0 ds]; [congruence |].
    pose proof (choice_in (d0 :: ds) d0) as Hc0.
    match type of Hc0 with
    | ?c = _ -> _ => destruct c as [d|] eqn:Hchoice
    end; clear Hc0.
    + destruct (choice_in (d0 :: ds) d Hchoice) as [Hin Hpers].
      exists d. eexists. split; [reflexivity |]. split; [exact Hin |].
      split; [exact Hpers |]. split.
      * unfold or_else. destruct (truthy (drive_name d)) eqn:Ht; [| discriminate].
        destruct (truthy_Some _ Ht) as (n & -> & Hn). exact Hn.
      * intros Hid. unfold driveId_or_default, bind, gets, ret. simpl.
        destruct (String.eqb_spec (drive_id d) ""); [congruence | reflexivity].
    + exfalso. revert Hchoice.
      destruct (List.find _ (d0 :: ds)); [discriminate |].
      destruct (List.find _ (d0 :: ds)); discriminate.
Qed.

End Facts.

Lemma default_drive_choice_witness :
  let st := MoreSamples.fresh O in
  exists d name,
    getDefaultDrive (H := Samples.drive) st
    = (inr (drive_id d, name),
       {| currentDriveId := Some (drive_id d); net := O; requests := [] |}) /\
    d = Samples.personal.
Proof.
  intros st.
  destruct (default_drive_choice (H := Samples.drive) st [Samples.personal] O eq_refl)
    as [_ Hsome].
  destruct Hsome as (d & name & Hrun & Hin & _); [discriminate |].
  exists d, name. split; [exact Hrun |].
  apply list_elem_of_singleton in Hin. exact Hin.
Defined.

End DriveFacts.

(** ** The remote drive client: folders *)

Module FolderFacts.
Import JS JSFacts OneDrive DriveOps Eff.
#[local] Arguments String.append !_ _ / : simpl nomatch.

Section Facts.
Context {W : Type} `{Remote W}.

Lemma catch_all_returns {S E A : Type} (m : M S E A) (a : A) (st : S) :
  exists r st', try_catch m (fun _ => ret a) st = (inr r, st').
Proof.
  unfold try_catch, ret. destruct (m st) as [[e | r] s]; eauto.
Qed.

Lemma deepest_cons (parent : json) (folder : OneDriveFolder)
    (folders : list OneDriveFolder) :
  deepest parent (folder :: folders) = deepest (folder_id folder) folders.
Proof.
  unfold deepest. cbn [List.map]. rewrite last_cons.
  now destruct (last (List.map folder_id folders)).
Qed.

(** The loop gives up at the first creation that fails. *)
Lemma create_parts_stops (pre : list string) (part : string) (rest : list string)
    (parent : json) (st st1 st2 : Service W) (folders : list OneDriveFolder)
    (e : thrown) :
  created pre parent st folders st1 ->
  createFolder part (deepest parent folders) st1 = (inl e, st2) ->
  create_parts (pre ++ part :: rest) parent st = (inr None, st2).
Proof.
  intros Hcreated. revert part rest e st2.
  induction Hcreated as [parent st | p pre parent st st1 st' folder folders Hcreate _ IH];
    intros part rest e st2 Hfail.
  - cbn [app create_parts]. unfold bind at 1. unfold try_catch at 1. unfold bind at 1.
    change (deepest parent []) with parent in Hfail. now rewrite Hfail.
  - rewrite deepest_cons in Hfail.
    cbn [app create_parts]. unfold bind at 1. unfold try_catch at 1. unfold bind at 1.
    rewrite Hcreate. unfold ret at 1. now apply (IH part rest e st2).
Qed.

(** What [findFolderByPath] does once the lookup has failed. *)
Lemma lookup_failed_run (folderPath : string) (st st2 : Service W)
    (accessToken driveId : string) (w1 w : W) (e : thrown) :
  getAccessToken (net st) = (inr accessToken, w1) ->
  driveId_or_default {| currentDriveId := currentDriveId st; net := w1;
                        requests := requests st |} = (inr driveId, st2) ->
  let cleanPath := cleanPath_of folderPath in
  let lookup := lookup_request accessToken driveId cleanPath in
  let asked := {| currentDriveId := currentDriveId st2; net := w;
                  requests := requests st2 ++ [lookup] |} in
  axios lookup (net st2) = (inl e, w) ->
  findFolderByPath folderPath st
  = try_catch
      (match response e with
       | Some r =>
           if status r =? 404 then
             bind (create_parts (pathParts_of cleanPath) (JStr "root"))
               (fun last =>
                  match last with
                  | None => ret None
                  | Some currentFolderId =>
                      bind (send (item_request accessToken driveId currentFolderId))
                        (fun finalResponse =>
                           bind (folder_of (data finalResponse))
                             (fun folder => ret (Some folder)))
                  end)
           else throw e
       | None => throw e
       end)
      (fun _ => ret None) asked.
Proof.
  intros Htoken Hdrive cleanPath lookup asked Hlookup.
  unfold findFolderByPath.
  unfold try_catch at 1. unfold bind at 1. unfold ask at 1. rewrite Htoken.
  unfold bind at 1. rewrite Hdrive. fold cleanPath. fold lookup.
  unfold try_catch at 1. unfold bind at 1. unfold send at 1. rewrite Hlookup.
  fold asked. unfold try_catch.
  destruct (response e) as [r |]; [| reflexivity].
  destruct (status r =? 404); reflexivity.
Qed.

(** X22. Folder creation stops at the first failure: when the lookup says
    404, the first segments of the path are created and the creation of the
    next one fails, [findFolderByPath] returns [null] in the state that failed
    creation left: no later segment is tried, the folder is not read back, and
    the folders already created stay. The requests made for the segments
    created are POSTs to the children of the folder the creation before
    returned, of the root for the first one and when that folder came back
    without an identifier. *)
Theorem folder_creation_stops_at_failure (folderPath : string) (st st2 : Service W)
    (accessToken driveId : string) (w1 w : W) (e : thrown) (r : Response)
    (pre : list string) (part : string) (rest : list string)
    (folders : list OneDriveFolder) (st3 st4 : Service W) (createError : thrown) :
  getAccessToken (net st) = (inr accessToken, w1) ->
  driveId_or_default {| currentDriveId := currentDriveId st; net := w1;
                        requests := requests st |} = (inr driveId, st2) ->
  let cleanPath := cleanPath_of folderPath in
  let drives := "https://graph.microsoft.com/v1.0/drives/" in
  let lookup :=
    {| method := GET; url := JStr (drives +:+ driveId +:+ "/root:/" +:+ cleanPath);
       bearer := Some accessToken; content := NoBody |} in
  let creation (req : Request) (target : string * json) :=
    exists token drive,
      req = {| method := POST;
               url := JStr (drives +:+ drive +:+ "/items/"
                            +:+ to_string (match snd target with
                                           | JUndef => JStr "root"
                                           | parent => parent
                                           end)
                            +:+ "/children");
               bearer := Some token;
               content := JsonBody (JObj [("name", JStr (fst target));
                                          ("folder", JObj []);
                                          ("@microsoft.graph.conflictBehavior",
                                           JStr "rename")]) |} in
  let asked := {| currentDriveId := currentDriveId st2; net := w;
                  requests := requests st2 ++ [lookup] |} in
  axios lookup (net st2) = (inl e, w) ->
  response e = Some r -> status r = 404 ->
  pathParts_of cleanPath = pre ++ part :: rest ->
  created pre (JStr "root") asked folders st3 ->
  createFolder part (deepest (JStr "root") folders) st3 = (inl createError, st4) ->
  findFolderByPath folderPath st = (inr None, st4) /\
  exists reqs,
    requests st3 = requests st2 ++ [lookup] ++ reqs /\
    Forall2 creation reqs (zip pre (JStr "root" :: List.map folder_id folders)).
Proof.
  intros Htoken Hdrive cleanPath drives lookup creation asked Hlookup Hresp Hstatus
    Hparts Hcreated Hfail.
  split.
  - rewrite (lookup_failed_run folderPath st st2 accessToken driveId w1 w e
               Htoken Hdrive Hlookup).
    fold cleanPath. change (lookup_request accessToken driveId cleanPath) with lookup.
    fold asked. rewrite Hresp, Hstatus. simpl (404 =? 404). cbv iota.
    unfold try_catch. unfold bind at 1. rewrite Hparts.
    now rewrite (create_parts_stops pre part rest _ _ _ _ _ _ Hcreated Hfail).
  - destruct (OneDriveFacts.create_parts_created _ _ _ _ _ Hcreated)
      as [_ (reqs & Hreqs & Hall)].
    exists reqs. split; [rewrite Hreqs; simpl; now rewrite <- app_assoc | exact Hall].
Qed.

(** X23. [findFolderByPath] never throws: whatever the collaborators do, it
    returns a folder or [null]; and when the access token cannot be
    obtained the result is [null] and no request has been sent. *)
Theorem findFolderByPath_never_throws (folderPath : string) (st : Service W) :
  (exists result st', findFolderByPath folderPath st = (inr result, st')) /\
  (forall e w,
     getAccessToken (net st) = (inl e, w) ->
     findFolderByPath folderPath st
     = (inr None, {| currentDriveId := currentDriveId st; net := w;
                     requests := requests st |})).
Proof.
  split.
  - unfold findFolderByPath. apply catch_all_returns.
  - intros e w Htoken. unfold findFolderByPath.
    unfold try_catch at 1. unfold bind at 1. unfold ask at 1. now rewrite Htoken.
Qed.

(** X24. A lookup that fails for another reason than 404 creates nothing:
    when the lookup request gets no answer, or an answer with a status other
    than 404, [findFolderByPath] returns [null] and the lookup is the only
    request it has sent. *)
Theorem lookup_failure_creates_nothing (folderPath : string) (st st2 : Service W)
    (accessToken driveId : string) (w1 w : W) (e : thrown) :
  getAccessToken (net st) = (inr accessToken, w1) ->
  driveId_or_default {| currentDriveId := currentDriveId st; net := w1;
                        requests := requests st |} = (inr driveId, st2) ->
  let lookup := lookup_request accessToken driveId (cleanPath_of folderPath) in
  axios lookup (net st2) = (inl e, w) ->
  (response e = None \/ exists r, response e = Some r /\ status r <> 404) ->
  findFolderByPath folderPath st
  = (inr None, {| currentDriveId := currentDriveId st2; net := w;
                  requests := requests st2 ++ [lookup] |}).
Proof.
  intros Htoken Hdrive lookup Hlookup Hwhy.
  rewrite (lookup_failed_run folderPath st st2 accessToken driveId w1 w e
             Htoken Hdrive Hlookup).
  destruct Hwhy as [-> | (r & -> & Hstatus)]; [reflexivity |].
  apply Z.eqb_neq in Hstatus. now rewrite Hstatus.
Qed.

Lemma item_of_listed (item : json) (st : Service W) :
  readable item -> item_of item st = (inr (listed item), st).
Proof.
  intros [Hu Hn]. unfold item_of, listed, read, require, bind, ret.
  destruct item; try congruence; reflexivity.
Qed.

Lemma item_of_unreadable (item : json) (st : Service W) :
  ~ readable item -> exists e, item_of item st = (inl e, st).
Proof.
  intros Hno. unfold item_of, read, require, bind, throw.
  destruct item; try (exfalso; apply Hno; split; discriminate);
    eexists; reflexivity.
Qed.

Lemma item_of_state (item : json) (st : Service W) : snd (item_of item st) = st.
Proof.
  unfold item_of, read, require, bind, ret, throw. now destruct item.
Qed.

Lemma items_of_listed (items : list json) (st : Service W) :
  Forall readable items -> items_of items st = (inr (List.map listed items), st).
Proof.
  induction 1 as [|item items Hitem _ IH]; [reflexivity |].
  cbn [items_of List.map]. unfold bind at 1. rewrite (item_of_listed item st Hitem).
  unfold bind at 1. now rewrite IH.
Qed.

Lemma items_of_unreadable (items : list json) (st : Service W) :
  Exists (fun item => ~ readable item) items ->
  exists e, items_of items st = (inl e, st).
Proof.
  induction items as [|item items IH]; intros Hex; [inversion Hex |].
  cbn [items_of]. unfold bind at 1.
  pose proof (item_of_state item st) as Hst.
  destruct (item_of item st) as [[e | f] s] eqn:Hitem; simpl in Hst; subst s.
  - now exists e.
  - inversion Hex as [? ? Hno | ? ? Hrest]; subst.
    + destruct (item_of_unreadable item st Hno) as [e He]. congruence.
    + destruct (IH Hrest) as [e He]. exists e. unfold bind at 1. now rewrite He.
Qed.

(** X25. The listing of a folder: once the children request is answered,
    [getFolderContents] has sent that one request, a GET of the children of
    the folder given, of the root when none is given; a missing or falsy
    [value] gives the empty list; an array of items gives one entry per item,
    in order, with [size] defaulting to 0; and an array with an item that is
    [null] or [undefined] makes the call throw. *)
Theorem folder_listing (folderId : json) (st st2 : Service W)
    (accessToken driveId : string) (w1 w : W) (resp : Response) (value : json) :
  getAccessToken (net st) = (inr accessToken, w1) ->
  driveId_or_default {| currentDriveId := currentDriveId st; net := w1;
                        requests := requests st |} = (inr driveId, st2) ->
  let children :=
    {| method := GET;
       url := JStr ("https://graph.microsoft.com/v1.0/drives/" +:+ driveId +:+ "/items/"
                    +:+ to_string (match folderId with
                                   | JUndef => JStr "root"
                                   | id => id
                                   end)
                    +:+ "/children");
       bearer := Some accessToken; content := NoBody |} in
  let asked := {| currentDriveId := currentDriveId st2; net := w;
                  requests := requests st2 ++ [children] |} in
  axios children (net st2) = (inr resp, w) ->
  prop (data resp) "value" = Some value ->
  (js_truthy value = false -> getFolderContents folderId st = (inr [], asked)) /\
  (forall items, value = JArr items -> Forall readable items ->
     getFolderContents folderId st = (inr (List.map listed items), asked) /\
     Forall (fun f => file_size f <> JUndef) (List.map listed items)) /\
  (forall items, value = JArr items -> Exists (fun item => ~ readable item) items ->
     exists e, getFolderContents folderId st = (inl e, asked)).
Proof.
  intros Htoken Hdrive children asked Hsend Hvalue.
  assert (Hrequest : children_request accessToken driveId
                       (or_default folderId (JStr "root")) = children).
  { unfold children_request, children, or_default. now destruct folderId. }
  assert (Hrun : getFolderContents folderId st
                 = try_catch
                     (match js_or value (JArr []) with
                      | JArr items => items_of items
                      | _ => throw (Error "items.map is not a function")
                      end) (fun error => throw error) asked).
  { unfold getFolderContents. cbv zeta.
    unfold try_catch at 1. unfold bind at 1. unfold ask at 1. rewrite Htoken.
    unfold bind at 1. rewrite Hdrive. rewrite Hrequest.
    unfold bind at 1. unfold send at 1. rewrite Hsend. fold asked.
    unfold bind at 1. unfold read, require. rewrite Hvalue. unfold ret at 1.
    unfold try_catch.
    match goal with
    | |- match ?m asked with _ => _ end = _ => now destruct (m asked) as [[e | a] s]
    end. }
  rewrite Hrun. clear Hrun. split; [| split].
  - intros Hfalsy. unfold js_or. now rewrite Hfalsy.
  - intros items -> Hall. split.
    + unfold js_or. simpl js_truthy. cbv iota. unfold try_catch.
      now rewrite (items_of_listed items asked Hall).
    + clear. induction items as [|item items IH]; constructor; [| exact IH].
      unfold listed, js_or. simpl file_size.
      destruct (js_truthy (default JUndef (prop item "size"))) eqn:Ht;
        [| discriminate].
      intros Hu. rewrite Hu in Ht. discriminate.
  - intros items -> Hex. unfold js_or. simpl js_truthy. cbv iota. unfold try_catch.
    destruct (items_of_unreadable items asked Hex) as [e He]. rewrite He.
    now exists e.
Qed.

End Facts.

Lemma folder_creation_stops_at_failure_witness :
  let st := Samples.service O in
  let run := findFolderByPath (H := MoreSamples.quota) "Finance/2024/Q1" st in
  let creation (name parent : string) :=
    {| method := POST;
       url := JStr ("https://graph.microsoft.com/v1.0/drives/drive1/items/" +:+ parent
                    +:+ "/children");
       bearer := Some "token";
       content := JsonBody (JObj [("name", JStr name); ("folder", JObj []);
                                  ("@microsoft.graph.conflictBehavior", JStr "rename")]) |} in
  fst run = inr None /\
  requests (snd run)
  = [ {| method := GET;
         url := JStr "https://graph.microsoft.com/v1.0/drives/drive1/root:/Finance/2024/Q1";
         bearer := Some "token"; content := NoBody |};
      creation "Finance" "root";
      creation "2024" "F1" ].
Proof.
  intros st run creation.
  edestruct (folder_creation_stops_at_failure (H := MoreSamples.quota)
               "Finance/2024/Q1" st st "token" "drive1" O O
               (MoreSamples.refused 404 "Not Found")
               {| status := 404; statusText := "Not Found"; data := JObj [] |}
               ["Finance"] "2024" ["Q1"]) as [Hrun _].
  - reflexivity.
  - reflexivity.
  - reflexivity.
  - reflexivity.
  - reflexivity.
  - vm_compute. reflexivity.
  - eapply created_next; [vm_compute; reflexivity | apply created_none].
  - vm_compute. reflexivity.
  - unfold run. rewrite Hrun. split; [reflexivity | vm_compute; reflexivity].
Defined.

Lemma findFolderByPath_never_throws_witness :
  let st := Samples.service tt in
  findFolderByPath (H := Samples.signed_out) "Finance/2024" st = (inr None, st).
Proof.
  intros st.
  exact (proj2 (findFolderByPath_never_throws (H := Samples.signed_out)
                  "Finance/2024" st)
           (Error "Silent token acquisition failed") tt eq_refl).
Defined.

Lemma lookup_failure_creates_nothing_witness :
  let st := Samples.service tt in
  findFolderByPath (H := MoreSamples.locked) "Finance/2024" st
  = (inr None,
     {| currentDriveId := Some "drive1"; net := tt;
        requests := [lookup_request "token" "drive1" "Finance/2024"] |}).
Proof.
  intros st.
  refine (lookup_failure_creates_nothing (H := MoreSamples.locked) "Finance/2024"
            st st "token" "drive1" tt tt (MoreSamples.refused 403 "Forbidden")
            eq_refl eq_refl _ _).
  - reflexivity.
  - right. eexists. split; [reflexivity | discriminate].
Defined.

Lemma folder_listing_witness :
  let st := Samples.service tt in
  let run := getFolderContents (H := MoreSamples.listing) JUndef st in
  (exists files,
     fst run = inr files /\
     List.map file_name files = [JStr "report.pdf"; JStr "Archive"] /\
     List.map file_size files = [JNum 2048; JNum 0]) /\
  requests (snd run)
  = [ {| method := GET;
         url := JStr "https://graph.microsoft.com/v1.0/drives/drive1/items/root/children";
         bearer := Some "token"; content := NoBody |} ].
Proof.
  intros st run.
  destruct (folder_listing (H := MoreSamples.listing) JUndef st st "token"
              "drive1" tt tt
              {| status := 200; statusText := "OK";
                 data := JObj [("value", JArr [MoreSamples.report_pdf;
                                                MoreSamples.archive_folder])] |}
              (JArr [MoreSamples.report_pdf; MoreSamples.archive_folder])
              eq_refl eq_refl eq_refl eq_refl) as (_ & Hitems & _).
  destruct (Hitems _ eq_refl) as [Hrun _].
  - repeat constructor; discriminate.
  - unfold run. rewrite Hrun. split; [| reflexivity].
    eexists. split; [reflexivity |]. split; reflexivity.
Defined.

End FolderFacts.

(** ** The key/value cache: writing, and reading back *)

Module StoreFacts.
Import JS Cache Store.

Section Facts.
Context `{Runtime} `{Encoder}.

Lemma row_of_rows (rows : gmap string CacheRow) (k : string) :
  row {| db := Some {| cache := Some rows |} |} k = rows !! k.
Proof. reflexivity. Qed.

(** X26. What is cached is read back until it expires. In an open store,
    for a value and an expiry instant that survive their text form,
    [cacheData] succeeds; a read of the key up to and including the expiry
    instant returns the value and leaves the store as it is; a read after it
    returns [null] and removes the row; and the rows of the other keys are
    those of before the write. *)
Theorem cached_value_is_read_back (key : string) (v : json) (ttlMinutes now : Z)
    (m : DatabaseManager) (rows : gmap string CacheRow) (text iso : string) :
  db m = Some {| cache := Some rows |} ->
  JSON_stringify v = Some text -> JSON_parse text = Some v ->
  let expiry := now + ttlMinutes * 60 * 1000 in
  toISOString expiry = Some iso -> Date_time iso = Some expiry ->
  let m' := snd (cacheData key v ttlMinutes now m) in
  fst (cacheData key v ttlMinutes now m) = true /\
  (forall later, later <= expiry -> getCachedData key later m' = (v, m')) /\
  (forall later, expiry < later ->
     fst (getCachedData key later m') = JNull /\
     row (snd (getCachedData key later m')) key = None) /\
  (forall k, k <> key -> row m' k = row m k).
Proof.
  intros Hdb Htext Hparse expiry Hiso Hdate m'.
  assert (Hm' : m' = {| db := Some {| cache :=
                  Some (<[key := {| value := text; expires_at := iso |}]> rows) |} |}).
  { unfold m', cacheData. rewrite Hdb. fold expiry. rewrite Hiso. simpl.
    now rewrite Htext. }
  split.
  { unfold cacheData. rewrite Hdb. fold expiry. rewrite Hiso. simpl.
    now rewrite Htext. }
  rewrite Hm'. split; [| split].
  - intros later Hlater. unfold getCachedData, before. simpl.
    rewrite lookup_insert_eq. simpl. rewrite Hdate.
    destruct (Z.ltb_spec expiry later) as [Hlt | _]; [lia |]. now rewrite Hparse.
  - intros later Hlater. unfold getCachedData, before. simpl.
    rewrite lookup_insert_eq. simpl. rewrite Hdate.
    apply Z.ltb_lt in Hlater. rewrite Hlater. simpl. split; [reflexivity |].
    rewrite row_of_rows. apply lookup_delete_eq.
  - intros k Hk. destruct m as [[[[rows0|]]|]]; simpl in Hdb; try discriminate.
    injection Hdb as ->. rewrite !row_of_rows. now apply lookup_insert_ne.
Qed.

(** X27. A write that does not succeed changes nothing, and a mock store
    keeps nothing: when [cacheData] returns [false] the store is the one of
    before; in mock mode it returns [true] although the store is unchanged,
    and every read returns [null]. *)
Theorem unsuccessful_write_keeps_store (key : string) (v : json)
    (ttlMinutes now : Z) (m : DatabaseManager) :
  (fst (cacheData key v ttlMinutes now m) = false ->
   snd (cacheData key v ttlMinutes now m) = m) /\
  (db m = None ->
   cacheData key v ttlMinutes now m = (true, m) /\
   forall k later, getCachedData k later m = (JNull, m)).
Proof.
  split.
  - unfold cacheData. destruct (db m) as [d|]; [| discriminate].
    destruct (toISOString _); [| reflexivity].
    destruct (cache d); [| reflexivity].
    destruct (JSON_stringify v); [discriminate | reflexivity].
  - intros Hmock. unfold cacheData, getCachedData. now rewrite Hmock.
Qed.

(** X28. A read removes nothing but an expired row of its own key. Every
    row of the store is as before the read, except the row of the key read
    when its date is valid and strictly earlier than the time of the read;
    so a row whose date is not a valid date, or is the very instant of the
    read, stays, and so does a row whose payload cannot be parsed, for which
    the read returns [null]. *)
Theorem read_removes_only_expired (key : string) (now : Z) (m : DatabaseManager) :
  (forall k,
     row (snd (getCachedData key now m)) k = row m k \/
     (k = key /\ row (snd (getCachedData key now m)) k = None /\
      exists r t, row m key = Some r /\ Date_time (expires_at r) = Some t /\ t < now)) /\
  (forall r,
     row m key = Some r ->
     Date_time (expires_at r) = None \/ Date_time (expires_at r) = Some now ->
     getCachedData key now m = (default JNull (JSON_parse (value r)), m)).
Proof.
  split.
  - intros k. unfold getCachedData.
    destruct m as [[[[rows|]]|]]; simpl; try (now left).
    destruct (rows !! key) as [r|] eqn:Hr; [| now left].
    unfold before. destruct (Date_time (expires_at r)) as [t|] eqn:Ht.
    + destruct (Z.ltb_spec t now) as [Hlt | Hge].
      * simpl. rewrite !row_of_rows.
        destruct (decide (k = key)) as [-> | Hk].
        -- right. split; [reflexivity |]. split; [apply lookup_delete_eq |].
           now exists r, t.
        -- left. now apply lookup_delete_ne.
      * destruct (JSON_parse (value r)); now left.
    + destruct (JSON_parse (value r)); now left.
  - intros r Hrow Hdate.
    destruct (CacheFacts.row_lookup m key r Hrow) as (rows & -> & Hr).
    unfold getCachedData, before. simpl. rewrite Hr.
    destruct Hdate as [-> | ->].
    + now destruct (JSON_parse (value r)).
    + rewrite Z.ltb_irrefl. now destruct (JSON_parse (value r)).
Qed.

End Facts.

Lemma cached_value_is_read_back_witness :
  let m' := snd (cacheData (H := MoreSamples.encoder) "tag-categories" (JStr "tags")
                   60 1704063600000 MoreSamples.empty_store) in
  getCachedData (H := Samples.runtime) "tag-categories" 1704067200000 m'
  = (JStr "tags", m') /\
  fst (getCachedData (H := Samples.runtime) "tag-categories" 1704067200001 m') = JNull.
Proof.
  intros m'.
  destruct (cached_value_is_read_back (H := Samples.runtime) (H0 := MoreSamples.encoder)
              "tag-categories" (JStr "tags") 60 1704063600000 MoreSamples.empty_store
              ∅ "tags" "2024-01-01T00:00:00.000Z"
              eq_refl eq_refl eq_refl eq_refl eq_refl) as (_ & Hread & Hlate & _).
  split.
  - apply Hread. lia.
  - apply Hlate. lia.
Defined.

Lemma unsuccessful_write_keeps_store_witness :
  snd (cacheData (H := MoreSamples.encoder) "count" (JNum 3) 60 1704063600000
         MoreSamples.empty_store) = MoreSamples.empty_store /\
  cacheData (H := MoreSamples.encoder) "count" (JNum 3) 60 1704063600000
    MoreSamples.mock = (true, MoreSamples.mock).
Proof.
  split.
  - exact (proj1 (unsuccessful_write_keeps_store (H := Samples.runtime)
                    (H0 := MoreSamples.encoder) "count" (JNum 3) 60 1704063600000
                    MoreSamples.empty_store) eq_refl).
  - exact (proj1 (proj2 (unsuccessful_write_keeps_store (H := Samples.runtime)
                    (H0 := MoreSamples.encoder) "count" (JNum 3) 60 1704063600000
                    MoreSamples.mock) eq_refl)).
Defined.

Lemma read_removes_only_expired_witness :
  getCachedData (H := Samples.runtime) "tag-categories" 1704067200000 Samples.store
  = (JStr "tags", Samples.store).
Proof.
  refine (proj2 (read_removes_only_expired (H := Samples.runtime) "tag-categories"
                   1704067200000 Samples.store) Samples.cached _ _).
  - unfold row, Samples.store. simpl. apply lookup_singleton_eq.
  - right. reflexivity.
Defined.

End StoreFacts.

(** ** The folder watcher *)

Module WatchFacts.
Import JS JSFacts Watch.
#[local] Arguments String.append !_ _ / : simpl nomatch.

Lemma any_char_spec (b : N) :
  any_char b = true <-> (b <> 10 /\ b <> 13 /\ b <> 8232 /\ b <> 8233)%N.
Proof.
  unfold any_char. rewrite negb_true_iff, !orb_false_iff, !N.eqb_neq. tauto.
Qed.

Lemma is_separator_spec (sep : N) :
  is_separator sep = true <-> (sep = 47 \/ sep = 92)%N.
Proof.
  unfold is_separator. rewrite orb_true_iff, !N.eqb_eq. reflexivity.
Qed.

Lemma ignored_from_hidden (boundary : bool) (s : list N) :
  ignored_from boundary s = true <->
  exists pre b rest,
    s = pre ++ code dot :: b :: rest /\
    any_char b = true /\
    ((pre = [] /\ boundary = true) \/
     exists pre' sep, pre = pre' ++ [sep] /\ is_separator sep = true).
Proof.
  revert boundary. induction s as [|a s IH]; intros boundary.
  - split; [discriminate |]. intros (pre & b & rest & Hs & _). now destruct pre.
  - cbn [ignored_from]. rewrite orb_true_iff, IH. split.
    + intros [Hhere | (pre & b & rest & -> & Hb & Hpre)].
      * apply andb_true_iff in Hhere as [Hhere Hnext].
        apply andb_true_iff in Hhere as [Hboundary Hdot].
        apply N.eqb_eq in Hdot. subst a.
        destruct s as [|b rest]; [discriminate |].
        exists [], b, rest. split; [reflexivity |]. split; [exact Hnext |].
        now left.
      * exists (a :: pre), b, rest. split; [reflexivity |]. split; [exact Hb |].
        right. destruct Hpre as [[-> Hsep] | (pre' & sep & -> & Hsep)].
        -- now exists [], a.
        -- now exists (a :: pre'), sep.
    + intros (pre & b & rest & Hs & Hb & Hpre).
      destruct pre as [|a' pre]; simpl in Hs.
      * injection Hs as -> ->. left.
        destruct Hpre as [[_ ->] | (pre' & sep & Hpre & _)].
        -- rewrite N.eqb_refl. exact Hb.
        -- now destruct pre'.
      * injection Hs as <- ->. right. exists pre, b, rest.
        split; [reflexivity |]. split; [exact Hb |].
        destruct Hpre as [[Hpre _] | (pre' & sep & Hpre & Hsep)]; [discriminate |].
        destruct pre' as [|a0 pre']; simpl in Hpre.
        -- injection Hpre as -> <-. now left.
        -- injection Hpre as _ ->. right. now exists pre', sep.
Qed.

(** X29. What the watcher ignores: the pattern of [FileWatcher.start]
    matches a path exactly when the path has a dot that stands at its start
    or right after ['/'] or a backslash and is followed by one more code unit
    that is no line terminator (LF, CR, U+2028, U+2029); so a lone ['.'] at
    the end of a path and dots inside a name are not ignored. *)
Theorem ignored_iff_hidden (path : list N) : ignored path = true <-> hidden path.
Proof.
  unfold ignored, hidden. rewrite ignored_from_hidden.
  split; intros (pre & b & rest & Hs & Hb & Hpre); exists pre, b, rest;
    (split; [exact Hs |]).
  - split; [now apply any_char_spec |].
    destruct Hpre as [[-> _] | (pre' & sep & -> & Hsep)]; [now left |].
    right. exists pre', sep. split; [reflexivity | now apply is_separator_spec].
  - split; [now apply any_char_spec |].
    destruct Hpre as [-> | (pre' & sep & -> & Hsep)]; [now left |].
    right. exists pre', sep. split; [reflexivity | now apply is_separator_spec].
Qed.

(** Dot files and dot folders are ignored wherever they are; a dot inside a
    name, a trailing dot, and a dot followed by a line separator are not. *)
Lemma ignored_samples :
  ignored (units_of ".git") = true /\
  ignored (units_of "C:\drop\.tmp\invoice.pdf") = true /\
  ignored (units_of "/home/ada/drop/.hidden") = true /\
  ignored (units_of "C:\drop\invoice.v2.pdf") = false /\
  ignored (units_of "C:\drop\.") = false /\
  ignored [code dot; 8232%N; code "x"] = false.
Proof. repeat split; reflexivity. Qed.

Lemma stopped_is_empty (m : Main) :
  tidy m ->
  let c1 := match fileWatcher m with
            | Some fw => snd (stop fw (chokidar m))
            | None => chokidar m
            end in
  open c1 = ∅ /\ next c1 = next (chokidar m).
Proof.
  intros [Hopen _]. unfold held in Hopen.
  destruct (fileWatcher m) as [fw|]; simpl in *; [| now split].
  unfold stop. destruct (watcher fw) as [h|]; simpl in *; [| now split].
  split; [| reflexivity]. rewrite Hopen. apply difference_diag_L.
Qed.

Lemma started_is_tidy (ok : bool) (path : string) (c1 : Chokidar) :
  open c1 = ∅ ->
  let '(started, fw, c2) := start ok {| folderPath := path; watcher := None |} c1 in
  tidy {| fileWatcher := Some fw; chokidar := c2 |}.
Proof.
  intros Hopen. unfold start, tidy, held. destruct ok; simpl.
  - rewrite Hopen, union_empty_r_L. split; [reflexivity |].
    intros h Hh. rewrite ?union_empty_r_L in Hh. apply elem_of_singleton in Hh. lia.
  - rewrite Hopen. split; [reflexivity |].
    intros h Hh. now apply not_elem_of_empty in Hh.
Qed.

Lemma handle_tidy (m : Main) (req : Ipc) : tidy m -> tidy (snd (handle m req)).
Proof.
  intros Hm. pose proof (stopped_is_empty m Hm) as [Hopen Hnext].
  assert (Hnone : forall c, open c = ∅ -> tidy {| fileWatcher := None; chokidar := c |}).
  { intros c Hc. unfold tidy, held. simpl. rewrite Hc. split; [reflexivity |].
    intros h Hh. now apply not_elem_of_empty in Hh. }
  destruct req as [path ok | | saved ok]; cbn [handle].
  - pose proof (started_is_tidy ok path _ Hopen) as Hs.
    destruct (start ok _ _) as [[started fw] c2]. exact Hs.
  - destruct (fileWatcher m) as [fw|]; [now apply Hnone | exact Hm].
  - destruct saved as [[path|]|]; try now apply Hnone.
    destruct (String.eqb path ""); [now apply Hnone |].
    pose proof (started_is_tidy ok path _ Hopen) as Hs.
    destruct (start ok _ _) as [[started fw] c2]. exact Hs.
Qed.

Lemma serve_tidy (reqs : list Ipc) (m : Main) : tidy m -> tidy (serve m reqs).
Proof.
  revert m. induction reqs as [|req reqs IH]; intros m Hm; [exact Hm |].
  apply IH. now apply handle_tidy.
Qed.

Lemma boot_tidy : tidy boot.
Proof.
  split; [reflexivity |]. intros h Hh. now apply not_elem_of_empty in Hh.
Qed.

(** X30. At most one watcher is open. Whatever start, stop and restart
    requests the main process has served since it started, and whether or not
    chokidar could start, the watchers open are exactly the one the current
    [FileWatcher] holds, none when there is no [FileWatcher] or it is not
    watching; and serving a stop request then leaves none open. *)
Theorem at_most_one_watcher_open (reqs : list Ipc) :
  let m := serve boot reqs in
  open (chokidar m) = match held m with Some h => {[ h ]} | None => ∅ end /\
  (size (open (chokidar m)) <= 1)%nat /\
  open (chokidar (snd (handle m StopFileWatcher))) = ∅.
Proof.
  intros m. pose proof (serve_tidy reqs boot boot_tidy) as Hm. fold m in Hm.
  pose proof Hm as [Hopen _]. split; [exact Hopen |]. split.
  - rewrite Hopen. destruct (held m); [now rewrite size_singleton |].
    rewrite size_empty. lia.
  - pose proof (stopped_is_empty m Hm) as [Hstopped _]. cbn [handle].
    destruct (fileWatcher m) as [fw|] eqn:Hfw; [exact Hstopped |].
    cbn [snd]. rewrite Hopen. unfold held. now rewrite Hfw.
Qed.

End WatchFacts.
